(** * Edit-session engine of the photo editor (App.tsx)

    A shallow embedding of the state held by the [App] component and of
    its event handlers: the history stack ([history], [historyIndex]),
    the transient selections (hotspot, crop region, text layers) and the
    two canvas routines (crop rasterisation and layer flattening).

    Conventions used throughout.
    - React state is one record, [AppState]; a handler is a function from
      the state captured by its closure to the state after all of its
      setter calls have been applied.  Every setter call in the source is
      an absolute write (or, for [setLayers], a functional update), so
      the order of independent writes does not matter.
    - An awaited collaborator call is an argument of the handler: the
      value it resolves to, or the value it rejects with.  The handlers
      of [App] are first given as functions of one state, which is what
      they do when nothing happens between the event and the settlement
      of the call; the section on awaited calls splits them at the
      [await] and lets other events come in between.
    - JavaScript numbers that are array indices or element sizes are [Z];
      the remaining numbers (coordinates, ratios, opacities) are the
      rationals [Q] they denote.  Where the handlers compute the size of
      the crop canvas and the hotspot, the arithmetic is the one of
      binary64 numbers ([Number], [binary64]).
    - Strings are held as their UTF-8 bytes.
    - What the browser decides (base-64 decoding, image decoding, PNG
      encoding, CSS parsing, the device pixel ratio) is a field of the
      [Platform] record. *)

From Stdlib Require Import QArith Qround Qpower.
From Stdlib Require Import Lqa.
From Stdlib Require Import Ascii String DecimalString.
From stdpp Require Import base tactics option list strings.

Set Default Proof Using "Type".
Local Open Scope string_scope.
Local Open Scope Z_scope.

(** ** JavaScript built-ins used by the handlers *)

(** Value caught by a [catch] clause: an [Error] instance carrying its
    message, or anything else. *)
Inductive JsThrown : Type :=
  | ErrorObj (message : string)
  | OtherThrown.

(** [err instanceof Error ? err.message : 'An unknown error occurred.'] *)
Definition errorMessage (err : JsThrown) : string :=
  match err with
  | ErrorObj m => m
  | OtherThrown => "An unknown error occurred."
  end.

(** Result of a computation that either completes or throws. *)
Inductive Result (A : Type) : Type :=
  | Ok (a : A)
  | Throw (e : JsThrown).
Arguments Ok {A} a.
Arguments Throw {A} e.

(** [Array.prototype.slice]: a negative bound counts from the end, and
    both bounds are clamped to the array. *)
Definition relativeIndex (len k : Z) : Z :=
  if k <? 0 then Z.max (len + k) 0 else Z.min k len.

Definition slice {A : Type} (l : list A) (start stop : Z) : list A :=
  let len := Z.of_nat (length l) in
  let k := relativeIndex len start in
  let final := relativeIndex len stop in
  take (Z.to_nat (final - k)) (drop (Z.to_nat k) l).

(** [arr[i] ?? null] for an integer [i]. *)
Definition index {A : Type} (l : list A) (i : Z) : option A :=
  if i <? 0 then None else l !! Z.to_nat i.

(** Decimal rendering of an integer inside a template literal. *)
Definition showZ (n : Z) : string := NilZero.string_of_int (Z.to_int n).

(** White space removed by [String.prototype.trim]: the code points
    [WhiteSpace] and [LineTerminator] of ECMAScript, each as its UTF-8
    byte sequence.  One byte: U+0009 .. U+000D and U+0020.  Two bytes:
    U+00A0.  Three bytes: U+1680, U+2000 .. U+200A, U+2028, U+2029,
    U+202F, U+205F, U+3000 and U+FEFF. *)
Definition isWhiteSpace (c : ascii) : bool :=
  let n := nat_of_ascii c in
  ((9 <=? n)%nat && (n <=? 13)%nat) || (n =? 32)%nat.

Definition isWhiteSpace2 (a b : ascii) : bool :=
  (nat_of_ascii a =? 194)%nat && (nat_of_ascii b =? 160)%nat.

Definition isWhiteSpace3 (a b c : ascii) : bool :=
  let x := nat_of_ascii a in
  let y := nat_of_ascii b in
  let z := nat_of_ascii c in
  ((x =? 225)%nat && (y =? 154)%nat && (z =? 128)%nat)
  || ((x =? 226)%nat && (y =? 128)%nat
      && (((128 <=? z)%nat && (z <=? 138)%nat)
          || (z =? 168)%nat || (z =? 169)%nat || (z =? 175)%nat))
  || ((x =? 226)%nat && (y =? 129)%nat && (z =? 159)%nat)
  || ((x =? 227)%nat && (y =? 128)%nat && (z =? 128)%nat)
  || ((x =? 239)%nat && (y =? 187)%nat && (z =? 191)%nat).

Fixpoint trimStart (s : string) : string :=
  match s with
  | EmptyString => EmptyString
  | String a r1 =>
      if isWhiteSpace a then trimStart r1
      else
        match r1 with
        | EmptyString => s
        | String b r2 =>
            if isWhiteSpace2 a b then trimStart r2
            else
              match r2 with
              | EmptyString => s
              | String c r3 => if isWhiteSpace3 a b c then trimStart r3 else s
              end
        end
  end.

(** A string that holds white space only. *)
Definition isBlank (s : string) : bool :=
  match trimStart s with EmptyString => true | _ => false end.

(** The string up to the point from which only white space follows. *)
Fixpoint trimEnd (s : string) : string :=
  match s with
  | EmptyString => EmptyString
  | String c r => if isBlank s then EmptyString else String c (trimEnd r)
  end.

Definition trim (s : string) : string := trimEnd (trimStart s).

(** Truthiness of a string: only the empty string is falsy. *)
Definition truthy (s : string) : bool :=
  match s with EmptyString => false | _ => true end.

(** [s.split(',')] for a one-character separator. *)
Fixpoint split (sep : ascii) (s : string) : list string :=
  match s with
  | EmptyString => [EmptyString]
  | String c r =>
      if Ascii.eqb c sep then EmptyString :: split sep r
      else match split sep r with
           | w :: ws => String c w :: ws
           | [] => [String c EmptyString]
           end
  end.

(** The regular expression [/:(.*?);/]: the capture of the leftmost
    match.  [.] excludes the line terminators U+000A, U+000D, U+2028 and
    U+2029, so a candidate starting at a colon dies on a line break and
    the search resumes further right. *)
Definition isLineTerminator (c : ascii) : bool :=
  let n := nat_of_ascii c in (n =? 10)%nat || (n =? 13)%nat.

(** Whether the string starts with U+2028 or U+2029 (E2 80 A8, E2 80 A9). *)
Definition startsWithSeparator (s : string) : bool :=
  match s with
  | String a (String b (String c _)) =>
      (nat_of_ascii a =? 226)%nat && (nat_of_ascii b =? 128)%nat
      && ((nat_of_ascii c =? 168)%nat || (nat_of_ascii c =? 169)%nat)
  | _ => false
  end.

Fixpoint lazyUpToSemicolon (s : string) : option string :=
  match s with
  | EmptyString => None
  | String c r =>
      if Ascii.eqb c ";"%char then Some EmptyString
      else if isLineTerminator c || startsWithSeparator s then None
      else String c <$> lazyUpToSemicolon r
  end.

Fixpoint matchMime (s : string) : option string :=
  match s with
  | EmptyString => None
  | String c r =>
      if Ascii.eqb c ":"%char then
        match lazyUpToSemicolon r with
        | Some m => Some m
        | None => matchMime r
        end
      else matchMime r
  end.

(** ** Files and the browser *)

(** A [File]: its bytes, its name and its MIME type. *)
Record File : Type := mkFile {
  fileBits : string;
  fileName : string;
  fileType : string
}.

(** The [type] of [new File(bits, name, { type })]: the empty string when
    the given type has a character outside U+0020 .. U+007E, and the
    given type in ASCII lower case otherwise. *)
Definition isPrintable (c : ascii) : bool :=
  let n := nat_of_ascii c in (32 <=? n)%nat && (n <=? 126)%nat.

Definition toLowerCase (c : ascii) : ascii :=
  let n := nat_of_ascii c in
  if (65 <=? n)%nat && (n <=? 90)%nat then ascii_of_nat (n + 32) else c.

Fixpoint allPrintable (s : string) : bool :=
  match s with
  | EmptyString => true
  | String c r => isPrintable c && allPrintable r
  end.

Fixpoint lowerCase (s : string) : string :=
  match s with
  | EmptyString => EmptyString
  | String c r => String (toLowerCase c) (lowerCase r)
  end.

Definition normalizedType (t : string) : string :=
  if allPrintable t then lowerCase t else EmptyString.

(** [new File([u8arr], filename, { type: mime })], [bstr] being the
    binary string whose character codes fill [u8arr]. *)
Definition newFile (bstr filename mime : string) : File :=
  mkFile bstr filename (normalizedType mime).

(** Size of a displayed [<img>] element. *)
Record ImageElement : Type := mkImageElement {
  imgSrc : File;
  naturalWidth : Z;
  naturalHeight : Z;
  width : Z;
  height : Z
}.

(** A decoded bitmap created by [new Image()] once [onload] fires. *)
Record LoadedImage : Type := mkLoadedImage {
  loadedSrc : File;
  loadedNaturalWidth : Z;
  loadedNaturalHeight : Z
}.

(** Font assigned to a 2D context: [`${size}px ${family}`]. *)
Record CssFont : Type := mkCssFont {
  fontPx : Q;
  fontFamily : string
}.

(** Drawing state of a [CanvasRenderingContext2D]. *)
Record Ctx2D : Type := mkCtx2D {
  globalAlpha : Q;
  font : CssFont;
  fillStyle : string;
  textBaseline : string;
  transform : Q * Q * Q * Q * Q * Q;
  imageSmoothingQuality : string
}.

Definition defaultCtx : Ctx2D :=
  {| globalAlpha := 1%Q;
     font := mkCssFont 10%Q "sans-serif";
     fillStyle := "#000000";
     textBaseline := "alphabetic";
     transform := (1, 0, 0, 1, 0, 0)%Q;
     imageSmoothingQuality := "low" |}.

(** Source of a [drawImage] call. *)
Inductive ImageSource : Type :=
  | FromElement (e : ImageElement)
  | FromLoaded (i : LoadedImage).

(** A drawing call together with the context state it was issued under;
    the pixels of a canvas are a function of its size and of these. *)
Inductive DrawOp : Type :=
  | DrawImageAt (img : ImageSource) (dx dy : Q) (st : Ctx2D)
  | DrawImageRect (img : ImageSource) (sx sy sw sh dx dy dw dh : Q) (st : Ctx2D)
  | FillText (text : string) (x y : Q) (st : Ctx2D).

Record Canvas : Type := mkCanvas {
  canvasWidth : Z;
  canvasHeight : Z;
  ctx : Ctx2D;
  drawn : list DrawOp
}.

(** What the browser supplies. *)
Record Platform : Type := mkPlatform {
  (** [atob]: the binary string, or the exception it throws on malformed
      input. *)
  atob : string → Result string;
  (** [window.devicePixelRatio]. *)
  devicePixelRatio : Q;
  (** whether [canvas.getContext('2d')] yields a context. *)
  hasContext2d : bool;
  (** decoding of an object URL by [new Image()]: the natural size, or
      [None] when [onerror] fires. *)
  decodeImage : File → option (Z * Z);
  (** base-64 text of the PNG encoding of a non-empty canvas. *)
  encodePng : Canvas → string;
  (** whether the 2D context accepts a font / a fill style. *)
  fontParses : CssFont → bool;
  colorParses : string → bool
}.

(** [dataURLtoFile]: the helper that converts a data URL to a [File]. *)
Definition dataURLtoFile (P : Platform) (dataurl filename : string) : Result File :=
  let arr := split ","%char dataurl in
  if (length arr <? 2)%nat then Throw (ErrorObj "Invalid data URL")
  else
    match matchMime (default EmptyString (arr !! 0%nat)) with
    | None => Throw (ErrorObj "Could not parse MIME type from data URL")
    | Some mime =>
        if negb (truthy mime)
        then Throw (ErrorObj "Could not parse MIME type from data URL")
        else
          match atob P (default EmptyString (arr !! 1%nat)) with
          | Throw e => Throw e
          | Ok bstr => Ok (newFile bstr filename mime)
          end
    end.

(** ** The data model of [App] *)

Inductive AppMode : Type := ModeStart | ModeGenerate | ModeEdit.

Inductive Tab : Type :=
  TabRetouch | TabAdjust | TabFilters | TabCrop | TabText | TabLayers.

(** A point [{ x, y }]. *)
Record Point : Type := mkPoint { ptX : Q; ptY : Q }.

(** [Crop] and [PixelCrop] of react-image-crop. *)
Inductive CropUnit : Type := UnitPx | UnitPercent.

Record Crop : Type := mkCrop {
  cropX : Q;
  cropY : Q;
  cropWidth : Q;
  cropHeight : Q;
  cropUnit : CropUnit
}.

(** A [PixelCrop] is a [Crop] whose unit is ['px']. *)
Definition PixelCrop : Type := Crop.

Module TextLayer.
Inductive kind : Type := text.

Record t : Type := mk {
  id : string;
  type : kind;
  content : string;
  font : string;
  size : Q;
  color : string;
  position : Point;
  opacity : Q;
  visible : bool
}.

Definition isText (l : t) : bool :=
  match type l with text => true end.
End TextLayer.

Record AppState : Type := mkAppState {
  mode : AppMode;
  history : list File;
  historyIndex : Z;
  prompt : string;
  isLoading : bool;
  error : option string;
  editHotspot : option Point;
  displayHotspot : option Point;
  activeTab : Tab;
  crop : option Crop;
  completedCrop : option PixelCrop;
  aspect : option Q;
  layers : list TextLayer.t;
  selectedLayerId : option string;
  (** the object URL made for the current image, held as the file it
      resolves to *)
  currentImageUrl : option File
}.

(** The values passed to [useState]. *)
Definition initialState : AppState :=
  {| mode := ModeStart; history := []; historyIndex := -1; prompt := "";
     isLoading := false; error := None; editHotspot := None;
     displayHotspot := None; activeTab := TabRetouch; crop := None;
     completedCrop := None; aspect := None; layers := [];
     selectedLayerId := None; currentImageUrl := None |}.

(** *** State setters *)

Definition setMode (v : AppMode) (s : AppState) : AppState :=
  mkAppState v (history s) (historyIndex s) (prompt s) (isLoading s) (error s)
    (editHotspot s) (displayHotspot s) (activeTab s) (crop s) (completedCrop s)
    (aspect s) (layers s) (selectedLayerId s)
    (currentImageUrl s).

Definition setHistory (v : list File) (s : AppState) : AppState :=
  mkAppState (mode s) v (historyIndex s) (prompt s) (isLoading s) (error s)
    (editHotspot s) (displayHotspot s) (activeTab s) (crop s) (completedCrop s)
    (aspect s) (layers s) (selectedLayerId s)
    (currentImageUrl s).

Definition setHistoryIndex (v : Z) (s : AppState) : AppState :=
  mkAppState (mode s) (history s) v (prompt s) (isLoading s) (error s)
    (editHotspot s) (displayHotspot s) (activeTab s) (crop s) (completedCrop s)
    (aspect s) (layers s) (selectedLayerId s)
    (currentImageUrl s).

Definition setPrompt (v : string) (s : AppState) : AppState :=
  mkAppState (mode s) (history s) (historyIndex s) v (isLoading s) (error s)
    (editHotspot s) (displayHotspot s) (activeTab s) (crop s) (completedCrop s)
    (aspect s) (layers s) (selectedLayerId s)
    (currentImageUrl s).

Definition setIsLoading (v : bool) (s : AppState) : AppState :=
  mkAppState (mode s) (history s) (historyIndex s) (prompt s) v (error s)
    (editHotspot s) (displayHotspot s) (activeTab s) (crop s) (completedCrop s)
    (aspect s) (layers s) (selectedLayerId s)
    (currentImageUrl s).

Definition setError (v : option string) (s : AppState) : AppState :=
  mkAppState (mode s) (history s) (historyIndex s) (prompt s) (isLoading s) v
    (editHotspot s) (displayHotspot s) (activeTab s) (crop s) (completedCrop s)
    (aspect s) (layers s) (selectedLayerId s)
    (currentImageUrl s).

Definition setEditHotspot (v : option Point) (s : AppState) : AppState :=
  mkAppState (mode s) (history s) (historyIndex s) (prompt s) (isLoading s)
    (error s) v (displayHotspot s) (activeTab s) (crop s) (completedCrop s)
    (aspect s) (layers s) (selectedLayerId s)
    (currentImageUrl s).

Definition setDisplayHotspot (v : option Point) (s : AppState) : AppState :=
  mkAppState (mode s) (history s) (historyIndex s) (prompt s) (isLoading s)
    (error s) (editHotspot s) v (activeTab s) (crop s) (completedCrop s)
    (aspect s) (layers s) (selectedLayerId s)
    (currentImageUrl s).

Definition setActiveTab (v : Tab) (s : AppState) : AppState :=
  mkAppState (mode s) (history s) (historyIndex s) (prompt s) (isLoading s)
    (error s) (editHotspot s) (displayHotspot s) v (crop s) (completedCrop s)
    (aspect s) (layers s) (selectedLayerId s)
    (currentImageUrl s).

Definition setCrop (v : option Crop) (s : AppState) : AppState :=
  mkAppState (mode s) (history s) (historyIndex s) (prompt s) (isLoading s)
    (error s) (editHotspot s) (displayHotspot s) (activeTab s) v
    (completedCrop s) (aspect s) (layers s) (selectedLayerId s)
    (currentImageUrl s).

Definition setCompletedCrop (v : option PixelCrop) (s : AppState) : AppState :=
  mkAppState (mode s) (history s) (historyIndex s) (prompt s) (isLoading s)
    (error s) (editHotspot s) (displayHotspot s) (activeTab s) (crop s) v
    (aspect s) (layers s) (selectedLayerId s)
    (currentImageUrl s).

Definition setAspect (v : option Q) (s : AppState) : AppState :=
  mkAppState (mode s) (history s) (historyIndex s) (prompt s) (isLoading s)
    (error s) (editHotspot s) (displayHotspot s) (activeTab s) (crop s)
    (completedCrop s) v (layers s) (selectedLayerId s)
    (currentImageUrl s).

(** [setLayers] takes the new list or a function of the previous one; the
    functional form is [setLayers (f (layers s)) s]. *)
Definition setLayers (v : list TextLayer.t) (s : AppState) : AppState :=
  mkAppState (mode s) (history s) (historyIndex s) (prompt s) (isLoading s)
    (error s) (editHotspot s) (displayHotspot s) (activeTab s) (crop s)
    (completedCrop s) (aspect s) v (selectedLayerId s)
    (currentImageUrl s).

Definition setSelectedLayerId (v : option string) (s : AppState) : AppState :=
  mkAppState (mode s) (history s) (historyIndex s) (prompt s) (isLoading s)
    (error s) (editHotspot s) (displayHotspot s) (activeTab s) (crop s)
    (completedCrop s) (aspect s) (layers s) v (currentImageUrl s).

Definition setCurrentImageUrl (v : option File) (s : AppState) : AppState :=
  mkAppState (mode s) (history s) (historyIndex s) (prompt s) (isLoading s)
    (error s) (editHotspot s) (displayHotspot s) (activeTab s) (crop s)
    (completedCrop s) (aspect s) (layers s) (selectedLayerId s) v.

(** ** The history stack *)

(** [history[historyIndex] ?? null] and [history[0] ?? null]. *)
Definition currentImage (s : AppState) : option File :=
  index (history s) (historyIndex s).

Definition originalImage (s : AppState) : option File :=
  index (history s) 0.

(** The effect that follows a render in which [currentImage] has
    changed: it stores the object URL made for the current image, or
    [null] when there is none. *)
Definition currentImageEffect (s : AppState) : AppState :=
  setCurrentImageUrl (currentImage s) s.

Definition canUndo (s : AppState) : bool := 0 <? historyIndex s.

Definition canRedo (s : AppState) : bool :=
  historyIndex s <? Z.of_nat (length (history s)) - 1.

Definition addImageToHistory (newImageFile : File) (s : AppState) : AppState :=
  let newHistory := (slice (history s) 0 (historyIndex s + 1) ++ [newImageFile])%list in
  let s := setHistory newHistory s in
  let s := setHistoryIndex (Z.of_nat (length newHistory) - 1) s in
  (* Reset transient states after an action *)
  let s := setCrop None s in
  let s := setCompletedCrop None s in
  let s := setLayers [] s in
  setSelectedLayerId None s.

Definition startNewHistoryWithFile (file : File) (s : AppState) : AppState :=
  let s := setError None s in
  let s := setHistory [file] s in
  let s := setHistoryIndex 0 s in
  let s := setEditHotspot None s in
  let s := setDisplayHotspot None s in
  let s := setActiveTab TabRetouch s in
  let s := setCrop None s in
  let s := setCompletedCrop None s in
  let s := setMode ModeEdit s in
  let s := setLayers [] s in
  setSelectedLayerId None s.

Definition handleImageUpload (file : File) (s : AppState) : AppState :=
  startNewHistoryWithFile file s.

Definition handleResetCrop (s : AppState) : AppState :=
  setCompletedCrop None (setCrop None s).

Definition handleUndo (s : AppState) : AppState :=
  if canUndo s then
    let s := setHistoryIndex (historyIndex s - 1) s in
    let s := setEditHotspot None s in
    let s := setDisplayHotspot None s in
    let s := setLayers [] s in
    setSelectedLayerId None s
  else s.

Definition handleRedo (s : AppState) : AppState :=
  if canRedo s then
    let s := setHistoryIndex (historyIndex s + 1) s in
    let s := setEditHotspot None s in
    let s := setDisplayHotspot None s in
    let s := setLayers [] s in
    setSelectedLayerId None s
  else s.

Definition handleReset (s : AppState) : AppState :=
  if (0 <? length (history s))%nat then
    let s := setHistoryIndex 0 s in
    let s := setError None s in
    let s := setEditHotspot None s in
    let s := setDisplayHotspot None s in
    let s := setLayers [] s in
    setSelectedLayerId None s
  else s.

Definition handleUploadNew (s : AppState) : AppState :=
  let s := setHistory [] s in
  let s := setHistoryIndex (-1) s in
  let s := setError None s in
  let s := setPrompt "" s in
  let s := setEditHotspot None s in
  let s := setDisplayHotspot None s in
  setMode ModeStart s.

(** ** Content edits through the external collaborator *)

(** The functions imported from the Gemini service module.  Each call
    settles once: it resolves to a data URL or rejects. *)
Record Services : Type := mkServices {
  generateEditedImage : File → string → Point → Result string;
  generateFilteredImage : File → string → Result string;
  generateAdjustedImage : File → string → Result string;
  generateAutoEnhancedImage : File → Result string;
  generateUpscaledImage : File → Result string
}.

#[global] Instance Result_bind : MBind Result := fun A B k r =>
  match r with
  | Ok a => k a
  | Throw e => Throw e
  end.

(** [try { body } catch (err) { setError(`${what} ${message}`) }
     finally { setIsLoading(false) }], where [s] is the state on entry to
    the [try] and [body] the state after the [try] block if nothing is
    thrown. *)
Definition tryCatchFinally (what : string) (s : AppState)
    (body : Result AppState) : AppState :=
  let s' :=
    match body with
    | Ok s' => s'
    | Throw err => setError (Some (what +:+ " " +:+ errorMessage err)) s
    end in
  setIsLoading false s'.

Definition handleGenerate (P : Platform) (G : Services) (now : Z)
    (s : AppState) : AppState :=
  match currentImage s with
  | None => setError (Some "No image loaded to edit.") s
  | Some image =>
      if negb (truthy (trim (prompt s))) then
        setError (Some "Please enter a description for your edit.") s
      else
        match editHotspot s with
        | None =>
            setError (Some "Please click on the image to select an area to edit.") s
        | Some hotspot =>
            let s := setIsLoading true s in
            let s := setError None s in
            tryCatchFinally "Failed to generate the image." s
              (editedImageUrl ← generateEditedImage G image (prompt s) hotspot;
               newImageFile ← dataURLtoFile P editedImageUrl
                                ("edited-" +:+ showZ now +:+ ".png");
               Ok (setDisplayHotspot None
                     (setEditHotspot None (addImageToHistory newImageFile s))))
        end
  end.

Definition handleApplyFilter (P : Platform) (G : Services) (now : Z)
    (filterPrompt : string) (s : AppState) : AppState :=
  match currentImage s with
  | None => setError (Some "No image loaded to apply a filter to.") s
  | Some image =>
      let s := setIsLoading true s in
      let s := setError None s in
      tryCatchFinally "Failed to apply the filter." s
        (filteredImageUrl ← generateFilteredImage G image filterPrompt;
         newImageFile ← dataURLtoFile P filteredImageUrl
                          ("filtered-" +:+ showZ now +:+ ".png");
         Ok (addImageToHistory newImageFile s))
  end.

Definition handleApplyAdjustment (P : Platform) (G : Services) (now : Z)
    (adjustmentPrompt : string) (s : AppState) : AppState :=
  match currentImage s with
  | None => setError (Some "No image loaded to apply an adjustment to.") s
  | Some image =>
      let s := setIsLoading true s in
      let s := setError None s in
      tryCatchFinally "Failed to apply the adjustment." s
        (adjustedImageUrl ← generateAdjustedImage G image adjustmentPrompt;
         newImageFile ← dataURLtoFile P adjustedImageUrl
                          ("adjusted-" +:+ showZ now +:+ ".png");
         Ok (addImageToHistory newImageFile s))
  end.

Definition handleAutoEnhance (P : Platform) (G : Services) (now : Z)
    (s : AppState) : AppState :=
  match currentImage s with
  | None => setError (Some "No image loaded to auto-enhance.") s
  | Some image =>
      let s := setIsLoading true s in
      let s := setError None s in
      tryCatchFinally "Failed to auto-enhance the image." s
        (enhancedImageUrl ← generateAutoEnhancedImage G image;
         newImageFile ← dataURLtoFile P enhancedImageUrl
                          ("enhanced-" +:+ showZ now +:+ ".png");
         Ok (addImageToHistory newImageFile s))
  end.

Definition handleUpscale (P : Platform) (G : Services) (now : Z)
    (s : AppState) : AppState :=
  match currentImage s with
  | None => setError (Some "No image loaded to upscale.") s
  | Some image =>
      let s := setIsLoading true s in
      let s := setError None s in
      tryCatchFinally "Failed to upscale the image." s
        (upscaledImageUrl ← generateUpscaledImage G image;
         newImageFile ← dataURLtoFile P upscaledImageUrl
                          ("upscaled-" +:+ showZ now +:+ ".png");
         Ok (addImageToHistory newImageFile s))
  end.

(** ** Numbers *)

(** A JavaScript number: a finite binary64 value, held as the rational it
    denotes, or one of the three values that are not finite.  The sign
    of zero is not kept. *)
Inductive Number : Type :=
  | Finite (q : Q)
  | PlusInfinity
  | MinusInfinity
  | NotANumber.

Definition finite (v : Number) : option Q :=
  match v with
  | Finite q => Some q
  | _ => None
  end.

(** The exponent [e] with [2^e <= a < 2^(e+1)], for a positive [a]. *)
Definition binade (a : Q) : Z :=
  let k := Z.log2 (Qnum a) - Z.log2 (Z.pos (Qden a)) in
  if Qle_bool (2 ^ k) a then k else k - 1.

(** The nearest integer, a tie going to the even one. *)
Definition roundHalfEven (v : Q) : Z :=
  let f := Qfloor v in
  match (v - inject_Z f ?= 1 # 2)%Q with
  | Lt => f
  | Gt => f + 1
  | Eq => if Z.even f then f else f + 1
  end.

(** The distance between neighbouring binary64 values around a positive
    [a]: 53 significant bits, and [2^-1074] below the normal range. *)
Definition ulp (a : Q) : Q := (2 ^ (Z.max (binade a) (-1022) - 52))%Q.

Definition nearest64 (a : Q) : Q :=
  (inject_Z (roundHalfEven (a / ulp a)) * ulp a)%Q.

(** The binary64 value of an exact result: round to nearest, ties to
    even, overflow to the infinity of its sign. *)
Definition binary64 (q : Q) : Number :=
  match (q ?= 0)%Q with
  | Eq => Finite 0
  | Gt =>
      let r := nearest64 q in
      if Qle_bool (2 ^ 1024) r then PlusInfinity else Finite (Qred r)
  | Lt =>
      let r := nearest64 (- q) in
      if Qle_bool (2 ^ 1024) r then MinusInfinity else Finite (Qred (- r))
  end.

(** [x - y] and [x / y] for finite operands, [x * v] for a finite [x]. *)
Definition minus (x y : Q) : Number := binary64 (x - y).

Definition over (x y : Q) : Number :=
  if Qeq_bool y 0 then
    match (x ?= 0)%Q with
    | Eq => NotANumber
    | Gt => PlusInfinity
    | Lt => MinusInfinity
    end
  else binary64 (x / y).

Definition times (x : Q) (v : Number) : Number :=
  match v with
  | Finite y => binary64 (x * y)
  | NotANumber => NotANumber
  | PlusInfinity =>
      match (x ?= 0)%Q with
      | Eq => NotANumber
      | Gt => PlusInfinity
      | Lt => MinusInfinity
      end
  | MinusInfinity =>
      match (x ?= 0)%Q with
      | Eq => NotANumber
      | Gt => MinusInfinity
      | Lt => PlusInfinity
      end
  end.

(** A number on its way to an [unsigned long]: [NaN] and the infinities
    convert like 0. *)
Definition finiteOrZero (v : Number) : Q := default 0%Q (finite v).

(** ** The canvas *)

(** Conversion of a number to the [unsigned long] stored by
    [canvas.width] and [canvas.height]: truncation towards zero modulo
    2^32, and the attribute's default when the result exceeds 2^31-1. *)
Definition truncate (v : Q) : Z := Z.quot (Qnum v) (Z.pos (Qden v)).

Definition toCanvasSize (dflt : Z) (v : Q) : Z :=
  let n := truncate v mod 4294967296 in
  if n <=? 2147483647 then n else dflt.

(** [document.createElement('canvas')]. *)
Definition createCanvas : Canvas :=
  {| canvasWidth := 300; canvasHeight := 150; ctx := defaultCtx; drawn := [] |}.

(** Assigning either dimension clears the bitmap and resets the context. *)
Definition setCanvasWidth (v : Q) (c : Canvas) : Canvas :=
  {| canvasWidth := toCanvasSize 300 v; canvasHeight := canvasHeight c;
     ctx := defaultCtx; drawn := [] |}.

Definition setCanvasHeight (v : Q) (c : Canvas) : Canvas :=
  {| canvasWidth := canvasWidth c; canvasHeight := toCanvasSize 150 v;
     ctx := defaultCtx; drawn := [] |}.

Definition withCtx (f : Ctx2D → Ctx2D) (c : Canvas) : Canvas :=
  {| canvasWidth := canvasWidth c; canvasHeight := canvasHeight c;
     ctx := f (ctx c); drawn := drawn c |}.

Definition draw (op : Ctx2D → DrawOp) (c : Canvas) : Canvas :=
  {| canvasWidth := canvasWidth c; canvasHeight := canvasHeight c;
     ctx := ctx c; drawn := (drawn c ++ [op (ctx c)])%list |}.

(** [ctx.globalAlpha = v] is ignored unless [0 <= v <= 1]. *)
Definition setGlobalAlpha (v : Q) : Canvas → Canvas :=
  withCtx (fun st =>
    if Qle_bool 0 v && Qle_bool v 1 then
      mkCtx2D v (font st) (fillStyle st) (textBaseline st) (transform st)
        (imageSmoothingQuality st)
    else st).

(** [ctx.font = f] and [ctx.fillStyle = col] are ignored when the value
    does not parse. *)
Definition setFont (P : Platform) (f : CssFont) : Canvas → Canvas :=
  withCtx (fun st =>
    if fontParses P f then
      mkCtx2D (globalAlpha st) f (fillStyle st) (textBaseline st) (transform st)
        (imageSmoothingQuality st)
    else st).

Definition setFillStyle (P : Platform) (col : string) : Canvas → Canvas :=
  withCtx (fun st =>
    if colorParses P col then
      mkCtx2D (globalAlpha st) (font st) col (textBaseline st) (transform st)
        (imageSmoothingQuality st)
    else st).

Definition setTextBaseline (b : string) : Canvas → Canvas :=
  withCtx (fun st =>
    mkCtx2D (globalAlpha st) (font st) (fillStyle st) b (transform st)
      (imageSmoothingQuality st)).

Definition setTransform (a b c d e f : Q) : Canvas → Canvas :=
  withCtx (fun st =>
    mkCtx2D (globalAlpha st) (font st) (fillStyle st) (textBaseline st)
      (a, b, c, d, e, f) (imageSmoothingQuality st)).

Definition setImageSmoothingQuality (q : string) : Canvas → Canvas :=
  withCtx (fun st =>
    mkCtx2D (globalAlpha st) (font st) (fillStyle st) (textBaseline st)
      (transform st) q).

Definition drawImageAt (img : ImageSource) (dx dy : Q) : Canvas → Canvas :=
  draw (DrawImageAt img dx dy).

Definition drawImageRect (img : ImageSource) (sx sy sw sh dx dy dw dh : Q)
    : Canvas → Canvas :=
  draw (DrawImageRect img sx sy sw sh dx dy dw dh).

Definition fillText (text : string) (x y : Q) : Canvas → Canvas :=
  draw (FillText text x y).

(** [drawImage] with computed source coordinates: the call returns
    without drawing when one of them is not finite. *)
Definition drawImageScaled (img : ImageSource) (sx sy sw sh : Number)
    (dx dy dw dh : Q) (c : Canvas) : Canvas :=
  match finite sx, finite sy, finite sw, finite sh with
  | Some sx, Some sy, Some sw, Some sh =>
      drawImageRect img sx sy sw sh dx dy dw dh c
  | _, _, _, _ => c
  end.

(** [canvas.toDataURL('image/png')]: a canvas with no pixels serialises
    to ["data:,"]. *)
Definition toDataURL (P : Platform) (c : Canvas) : string :=
  if (canvasWidth c =? 0) || (canvasHeight c =? 0) then "data:,"
  else "data:image/png;base64," +:+ encodePng P c.

(** Outcome of an event handler without a [try]: it returns, or an
    exception escapes it; either way the setter calls made so far stand. *)
Inductive Outcome : Type :=
  | Returned (s : AppState)
  | Uncaught (e : JsThrown) (s : AppState).

Definition stateOf (o : Outcome) : AppState :=
  match o with
  | Returned s => s
  | Uncaught _ s => s
  end.

(** ** Crop *)

Definition Qlt_bool (a b : Q) : bool := negb (Qle_bool b a).

(** [window.devicePixelRatio || 1]. *)
Definition pixelRatioOf (P : Platform) : Q :=
  if Qeq_bool (devicePixelRatio P) 0 then 1%Q else devicePixelRatio P.

(** The canvas [handleApplyCrop] has built when it calls [toDataURL]. *)
Definition cropCanvas (P : Platform) (completedCrop : PixelCrop)
    (image : ImageElement) : Canvas :=
  let canvas := createCanvas in
  let scaleX := over (inject_Z (naturalWidth image)) (inject_Z (width image)) in
  let scaleY := over (inject_Z (naturalHeight image)) (inject_Z (height image)) in
  let canvas := setCanvasWidth (cropWidth completedCrop) canvas in
  let canvas := setCanvasHeight (cropHeight completedCrop) canvas in
  let pixelRatio := pixelRatioOf P in
  let canvas :=
    setCanvasWidth
      (finiteOrZero (times (cropWidth completedCrop) (Finite pixelRatio))) canvas in
  let canvas :=
    setCanvasHeight
      (finiteOrZero (times (cropHeight completedCrop) (Finite pixelRatio))) canvas in
  let canvas := setTransform pixelRatio 0 0 pixelRatio 0 0 canvas in
  let canvas := setImageSmoothingQuality "high" canvas in
  drawImageScaled (FromElement image)
    (times (cropX completedCrop) scaleX)
    (times (cropY completedCrop) scaleY)
    (times (cropWidth completedCrop) scaleX)
    (times (cropHeight completedCrop) scaleY)
    0 0
    (cropWidth completedCrop)
    (cropHeight completedCrop)
    canvas.

(** [imgRef] is the [<img>] element currently mounted, if any. *)
Definition handleApplyCrop (P : Platform) (imgRef : option ImageElement)
    (now : Z) (s : AppState) : Outcome :=
  match completedCrop s, imgRef with
  | Some completedCrop, Some image =>
      if negb (hasContext2d P) then
        Returned (setError (Some "Could not process the crop.") s)
      else
        let croppedImageUrl := toDataURL P (cropCanvas P completedCrop image) in
        match dataURLtoFile P croppedImageUrl
                ("cropped-" +:+ showZ now +:+ ".png") with
        | Ok newImageFile => Returned (addImageToHistory newImageFile s)
        | Throw e => Uncaught e s
        end
  | _, _ => Returned (setError (Some "Please select an area to crop.") s)
  end.

(** The props that enable the buttons of the crop panel:
    [!!completedCrop?.width && completedCrop.width > 0] and the same
    for [crop]. *)
Definition isApplyCropEnabled (s : AppState) : bool :=
  match completedCrop s with
  | Some c => negb (Qeq_bool (cropWidth c) 0) && Qlt_bool 0 (cropWidth c)
  | None => false
  end.

Definition isCropActive (s : AppState) : bool :=
  match crop s with
  | Some c => negb (Qeq_bool (cropWidth c) 0) && Qlt_bool 0 (cropWidth c)
  | None => false
  end.

(** ** Text layers *)

Definition handleAddTextLayer (now : Z) (s : AppState) : AppState :=
  let newId := "layer_" +:+ showZ now in
  let newLayer :=
    {| TextLayer.id := newId;
       TextLayer.type := TextLayer.text;
       TextLayer.content := "Your Text Here";
       TextLayer.font := "Arial";
       TextLayer.size := 50%Q;
       TextLayer.color := "#FFFFFF";
       TextLayer.position := mkPoint 50%Q 50%Q;
       TextLayer.opacity := 1%Q;
       TextLayer.visible := true |} in
  let s := setLayers (layers s ++ [newLayer])%list s in
  let s := setSelectedLayerId (Some newId) s in
  setActiveTab TabText s.

(** A [Partial<TextLayer>]: the attributes present in an update. *)
Record PartialTextLayer : Type := mkPartial {
  newId : option string;
  newContent : option string;
  newFont : option string;
  newSize : option Q;
  newColor : option string;
  newPosition : option Point;
  newOpacity : option Q;
  newVisible : option bool
}.

Definition noUpdates : PartialTextLayer :=
  mkPartial None None None None None None None None.

(** [{ ...l, ...updates }] *)
Definition spread (l : TextLayer.t) (updates : PartialTextLayer) : TextLayer.t :=
  {| TextLayer.id := default (TextLayer.id l) (newId updates);
     TextLayer.type := TextLayer.type l;
     TextLayer.content := default (TextLayer.content l) (newContent updates);
     TextLayer.font := default (TextLayer.font l) (newFont updates);
     TextLayer.size := default (TextLayer.size l) (newSize updates);
     TextLayer.color := default (TextLayer.color l) (newColor updates);
     TextLayer.position := default (TextLayer.position l) (newPosition updates);
     TextLayer.opacity := default (TextLayer.opacity l) (newOpacity updates);
     TextLayer.visible := default (TextLayer.visible l) (newVisible updates) |}.

Definition handleUpdateLayer (id : string) (updates : PartialTextLayer)
    (s : AppState) : AppState :=
  setLayers
    ((fun l => if String.eqb (TextLayer.id l) id then spread l updates else l)
       <$> layers s) s.

Definition handleRemoveLayer (id : string) (s : AppState) : AppState :=
  let s' := setLayers (filter (fun l => TextLayer.id l ≠ id) (layers s)) s in
  if decide (selectedLayerId s = Some id) then setSelectedLayerId None s' else s'.

(** [layers.find(l => l.id === selectedLayerId)] *)
Definition selectedLayer (s : AppState) : option TextLayer.t :=
  match selectedLayerId s with
  | Some id => list_find (fun l => TextLayer.id l = id) (layers s) ≫= (fun p => Some p.2)
  | None => None
  end.

(** ** Flattening *)

(** The body of the [forEach] callback, identical at both call sites. *)
Definition paintLayer (P : Platform) (canvas : Canvas) (layer : TextLayer.t)
    : Canvas :=
  if TextLayer.visible layer && TextLayer.isText layer then
    let canvas := setGlobalAlpha (TextLayer.opacity layer) canvas in
    let canvas :=
      setFont P (mkCssFont (TextLayer.size layer) (TextLayer.font layer)) canvas in
    let canvas := setFillStyle P (TextLayer.color layer) canvas in
    let canvas := setTextBaseline "top" canvas in
    fillText (TextLayer.content layer)
      (ptX (TextLayer.position layer)) (ptY (TextLayer.position layer)) canvas
  else canvas.

(** The canvas built by the [onload] callback of [handleMergeLayers]. *)
Definition mergeCanvas (P : Platform) (imageToMerge : LoadedImage)
    (layers : list TextLayer.t) : Canvas :=
  let canvas := createCanvas in
  let canvas := setCanvasWidth (inject_Z (loadedNaturalWidth imageToMerge)) canvas in
  let canvas := setCanvasHeight (inject_Z (loadedNaturalHeight imageToMerge)) canvas in
  let canvas := drawImageAt (FromLoaded imageToMerge) 0 0 canvas in
  foldl (paintLayer P) canvas (reverse layers).

(** The canvas built by the [onload] callback of [handleDownload]. *)
Definition downloadCanvas (P : Platform) (imageToDownload : LoadedImage)
    (layers : list TextLayer.t) : Canvas :=
  let canvas := createCanvas in
  let canvas := setCanvasWidth (inject_Z (loadedNaturalWidth imageToDownload)) canvas in
  let canvas := setCanvasHeight (inject_Z (loadedNaturalHeight imageToDownload)) canvas in
  let canvas := drawImageAt (FromLoaded imageToDownload) 0 0 canvas in
  (* Draw layers in reverse order (bottom to top) *)
  foldl (paintLayer P) canvas (reverse layers).

(** [new Image()] with [src] set to an object URL: the bitmap handed to
    [onload], or [None] when the image does not load. *)
Definition loadImage (P : Platform) (url : option File) : option LoadedImage :=
  file ← url;
  '(w, h) ← decodeImage P file;
  Some (mkLoadedImage file w h).

Definition handleMergeLayers (P : Platform) (now : Z) (s : AppState) : Outcome :=
  match currentImageUrl s with
  | None => Returned s
  | Some _ =>
      let s1 := setIsLoading true s in
      match loadImage P (currentImageUrl s) with
      | Some imageToMerge =>
          if negb (hasContext2d P) then
            Returned
              (setError (Some "Failed to create canvas context for merging.")
                 (setIsLoading false s1))
          else
            let dataUrl := toDataURL P (mergeCanvas P imageToMerge (layers s)) in
            match dataURLtoFile P dataUrl ("merged-" +:+ showZ now +:+ ".png") with
            | Ok newImageFile =>
                Returned (setIsLoading false (addImageToHistory newImageFile s1))
            | Throw e => Uncaught e s1
            end
      | None =>
          Returned
            (setError (Some "Failed to load image for merging.")
               (setIsLoading false s1))
      end
  end.

(** The data URL handed to the download link, if the handler gets that
    far. *)
Definition handleDownload (P : Platform) (s : AppState) : option string :=
  match loadImage P (currentImageUrl s) with
  | Some imageToDownload =>
      if negb (hasContext2d P) then None
      else Some (toDataURL P (downloadCanvas P imageToDownload (layers s)))
  | None => None
  end.

(** The live rendering, [layers.map(...)]: one positioned element per
    visible layer in sequence order, so a later layer is stacked above
    an earlier one. *)
Definition renderedLayers (s : AppState) : list TextLayer.t :=
  filter (fun l => TextLayer.isText l && TextLayer.visible l = true) (layers s).

(** The texts painted on a canvas, in the order of the drawing calls: a
    later text is painted over an earlier one. *)
Definition paintedTexts (c : Canvas) : list string :=
  omap (fun op => match op with FillText t _ _ _ => Some t | _ => None end)
    (drawn c).

(** The layer created by [handleAddTextLayer] at time [now]. *)
Definition newTextLayer (now : Z) : TextLayer.t :=
  TextLayer.mk ("layer_" +:+ showZ now) TextLayer.text "Your Text Here"
    "Arial" 50 "#FFFFFF" (mkPoint 50 50) 1 true.

(** The canvas of [handleMergeLayers] once the raster has been drawn and
    before any layer is painted. *)
Definition rasterCanvas (image : LoadedImage) : Canvas :=
  drawImageAt (FromLoaded image) 0 0
    (setCanvasHeight (inject_Z (loadedNaturalHeight image))
       (setCanvasWidth (inject_Z (loadedNaturalWidth image)) createCanvas)).

(** ** Runs of the history stack *)

(** [N] commits in a row, then [K] undos in a row. *)
Definition commits (rs : list File) (s : AppState) : AppState :=
  foldl (fun s r => addImageToHistory r s) s rs.

Definition undos (k : nat) (s : AppState) : AppState :=
  Nat.iter k handleUndo s.

(** The cursor designates an entry, or is [-1] on the empty history. *)
Definition cursorValid (s : AppState) : Prop :=
  -1 ≤ historyIndex s < Z.of_nat (length (history s)).

(** What a handler did to the history stack. *)
Definition historyUntouched (s s' : AppState) : Prop :=
  history s' = history s ∧ historyIndex s' = historyIndex s.

Definition committed (s s' : AppState) : Prop :=
  ∃ f, history s' = history (addImageToHistory f s)
       ∧ historyIndex s' = historyIndex (addImageToHistory f s)
       ∧ crop s' = None ∧ completedCrop s' = None
       ∧ layers s' = [] ∧ selectedLayerId s' = None.

Definition keepsHotspot (s s' : AppState) : Prop :=
  editHotspot s' = editHotspot s ∧ displayHotspot s' = displayHotspot s.

Definition hotspotCleared (s : AppState) : Prop :=
  editHotspot s = None ∧ displayHotspot s = None.

Definition keepsCropRegion (s s' : AppState) : Prop :=
  crop s' = crop s ∧ completedCrop s' = completedCrop s ∧ aspect s' = aspect s.

(** The state after a content edit that failed: the history stack and
    the layers are as before, an error message is set, the busy flag is
    down. *)
Definition failedEdit (s s' : AppState) : Prop :=
  historyUntouched s s'
  ∧ currentImage s' = currentImage s
  ∧ layers s' = layers s
  ∧ is_Some (error s')
  ∧ isLoading s' = false.

(** ** A sample session, for closed instances *)

Module Sample.
Definition platform : Platform :=
  {| atob := fun s => Ok s;
     devicePixelRatio := 1%Q;
     hasContext2d := true;
     decodeImage := fun _ => Some (1000, 500);
     encodePng := fun c => "iVBORw0KGgo=";
     fontParses := fun _ => true;
     colorParses := fun _ => true |}.

Definition resolving : Services :=
  {| generateEditedImage := fun _ _ _ => Ok "data:image/png;base64,ZWRpdA==";
     generateFilteredImage := fun _ _ => Ok "data:image/png;base64,ZmlsdA==";
     generateAdjustedImage := fun _ _ => Ok "data:image/png;base64,YWRq";
     generateAutoEnhancedImage := fun _ => Ok "data:image/png;base64,ZW5o";
     generateUpscaledImage := fun _ => Ok "data:image/png;base64,dXA=" |}.

Definition rejecting : Services :=
  {| generateEditedImage := fun _ _ _ => Throw (ErrorObj "quota exceeded");
     generateFilteredImage := fun _ _ => Throw (ErrorObj "quota exceeded");
     generateAdjustedImage := fun _ _ => Throw (ErrorObj "quota exceeded");
     generateAutoEnhancedImage := fun _ => Throw (ErrorObj "quota exceeded");
     generateUpscaledImage := fun _ => Throw OtherThrown |}.

Definition R0 : File := mkFile "r0" "photo.jpeg" "image/jpeg".
Definition R1 : File := mkFile "r1" "filtered-1.png" "image/png".
Definition R2 : File := mkFile "r2" "adjusted-2.png" "image/png".
Definition R3 : File := mkFile "r3" "edited-3.png" "image/png".

(** A session holding three rasters, the last one current. *)
Definition three : AppState :=
  commits [R1; R2] (startNewHistoryWithFile R0 initialState).

(** The [<img>] of a 1000x500 raster laid out at 500x250. *)
Definition element : ImageElement := mkImageElement R0 1000 500 500 250.

Definition region : PixelCrop := mkCrop 100 50 100 50 UnitPx.

Definition spot : Point := mkPoint 120 80.

(** One raster loaded, a hotspot placed, a crop region drawn. *)
Definition marked : AppState :=
  setPrompt "make the sky bluer"
    (setCompletedCrop (Some region)
       (setCrop (Some region)
          (setDisplayHotspot (Some (mkPoint 60 40))
             (setEditHotspot (Some spot)
                (startNewHistoryWithFile R0 initialState))))).

(** Three rasters in the history and a crop region drawn with the
    16:9 constraint. *)
Definition cropping : AppState :=
  setAspect (Some (16 # 9))
    (setCompletedCrop (Some region) (setCrop (Some region) three)).

(** [marked] after a filter that the collaborator delivers. *)
Definition filtered : AppState :=
  handleApplyFilter platform resolving 7 "vintage" marked.

(** [cropping] after an undo, and after a redo that follows it. *)
Definition undone : AppState := handleUndo cropping.
Definition redone : AppState := handleRedo undone.

(** A completed selection 40 wide and 0 high, as a purely horizontal
    drag leaves it. *)
Definition flatRegion : PixelCrop := mkCrop 10 10 40 0 UnitPx.

Definition flat : AppState :=
  setCompletedCrop (Some flatRegion)
    (setCrop (Some flatRegion) (startNewHistoryWithFile R0 initialState)).

(** A selection of negative width. *)
Definition inverted : AppState :=
  setCompletedCrop (Some (mkCrop 10 10 (-5) 20 UnitPx))
    (startNewHistoryWithFile R0 initialState).

Definition bitmap : LoadedImage := mkLoadedImage R0 1000 500.

(** Two text layers added one after the other; the second one is then
    given the text "Top". *)
Definition twoLayers : AppState :=
  handleUpdateLayer "layer_2"
    (mkPartial None (Some "Top") None None None None None None)
    (handleAddTextLayer 2
       (handleAddTextLayer 1 (startNewHistoryWithFile R0 initialState))).

Definition hiddenLayer : TextLayer.t :=
  TextLayer.mk "layer_9" TextLayer.text "draft" "Impact" 32 "#FF0000"
    (mkPoint 10 20) (1 # 2) false.
End Sample.

(** ** Pointer handling *)

(** [getBoundingClientRect()] and the coordinates of a mouse event. *)
Record DOMRect : Type := mkDOMRect {
  rectLeft : Q;
  rectTop : Q;
  rectWidth : Q;
  rectHeight : Q
}.

Record MouseEvent : Type := mkMouseEvent {
  clientX : Q;
  clientY : Q
}.

(** The [<img>] behind [imgRef] as the pointer handlers read it. *)
Record ImageLayout : Type := mkImageLayout {
  layoutNaturalWidth : Z;
  layoutNaturalHeight : Z;
  clientWidth : Z;
  clientHeight : Z;
  boundingRect : DOMRect
}.

(** [Math.round] of a finite number: the nearest integer, a tie going
    up. *)
Definition mathRound (v : Q) : Z := Qfloor (v + (1 # 2)).

(** [handleImageClick]; [None] when a coordinate of the hotspot would not
    be a finite number (an image laid out with no width or no height, or
    an overflow), which a [Point] cannot hold. *)
Definition handleImageClick (imgRef : option ImageLayout) (e : MouseEvent)
    (s : AppState) : option AppState :=
  match activeTab s with
  | TabRetouch =>
      match imgRef with
      | None => Some s
      | Some img =>
          let rect := boundingRect img in
          offsetX ← finite (minus (clientX e) (rectLeft rect));
          offsetY ← finite (minus (clientY e) (rectTop rect));
          let s := setDisplayHotspot (Some (mkPoint offsetX offsetY)) s in
          let scaleX :=
            over (inject_Z (layoutNaturalWidth img)) (inject_Z (clientWidth img)) in
          let scaleY :=
            over (inject_Z (layoutNaturalHeight img)) (inject_Z (clientHeight img)) in
          originalX ← mathRound <$> finite (times offsetX scaleX);
          originalY ← mathRound <$> finite (times offsetY scaleY);
          Some (setEditHotspot
                  (Some (mkPoint (inject_Z originalX) (inject_Z originalY))) s)
      end
  | _ => Some (setSelectedLayerId None s)
  end.

(** The mutable cell [dragInfo] and the state of the magnifier. *)
Record DragInfo : Type := mkDragInfo {
  dragId : option string;
  dragOffset : Point
}.

Record Overlay : Type := mkOverlay {
  dragInfo : DragInfo;
  magnifierPosition : Point;
  showMagnifier : bool;
  magnifierImageOffset : Point
}.

Definition initialOverlay : Overlay :=
  {| dragInfo := mkDragInfo None (mkPoint 0 0);
     magnifierPosition := mkPoint 0 0;
     showMagnifier := false;
     magnifierImageOffset := mkPoint 0 0 |}.

(** [{ ...layer, position: { x, y } }] *)
Definition withPosition (layer : TextLayer.t) (p : Point) : TextLayer.t :=
  spread layer (mkPartial None None None None None (Some p) None None).

(** The layer being dragged, if [dragInfo.current.id] is truthy. *)
Definition dragging (o : Overlay) : option string :=
  match dragId (dragInfo o) with
  | Some id => if truthy id then Some id else None
  | None => None
  end.

Definition handleMouseMove (containerRef : option DOMRect)
    (imgRef : option ImageLayout) (e : MouseEvent)
    (so : AppState * Overlay) : AppState * Overlay :=
  let '(s, o) := so in
  match dragging o with
  | Some id =>
      match containerRef with
      | None => (s, o)
      | Some rect =>
          let x := (clientX e - rectLeft rect - ptX (dragOffset (dragInfo o)))%Q in
          let y := (clientY e - rectTop rect - ptY (dragOffset (dragInfo o)))%Q in
          (setLayers
             ((fun layer =>
                 if String.eqb (TextLayer.id layer) id
                 then withPosition layer (mkPoint x y) else layer)
                <$> layers s) s, o)
      end
  | None =>
      match activeTab s, imgRef with
      | TabRetouch, Some img =>
          let rect := boundingRect img in
          let x := (clientX e - rectLeft rect)%Q in
          let y := (clientY e - rectTop rect)%Q in
          if Qle_bool 0 x && Qle_bool x (rectWidth rect)
             && Qle_bool 0 y && Qle_bool y (rectHeight rect)
          then
            let offsetX := (x / rectWidth rect * 100)%Q in
            let offsetY := (y / rectHeight rect * 100)%Q in
            (s, mkOverlay (dragInfo o) (mkPoint (clientX e) (clientY e)) true
                  (mkPoint offsetX offsetY))
          else
            (s, mkOverlay (dragInfo o) (magnifierPosition o) false
                  (magnifierImageOffset o))
      | _, _ => (s, o)
      end
  end.

Definition handleMouseLeave (so : AppState * Overlay) : AppState * Overlay :=
  let '(s, o) := so in
  (s, mkOverlay (mkDragInfo None (dragOffset (dragInfo o)))
        (magnifierPosition o) false (magnifierImageOffset o)).

Definition handleMouseUp (so : AppState * Overlay) : AppState * Overlay :=
  let '(s, o) := so in
  (s, mkOverlay (mkDragInfo None (dragOffset (dragInfo o)))
        (magnifierPosition o) (showMagnifier o) (magnifierImageOffset o)).

(** [elRect] is the bounding rectangle of the layer element that
    received the event; the rectangle of the container, which encloses
    that element, is read by the source and not used. *)
Definition handleLayerMouseDown (elRect : DOMRect) (e : MouseEvent)
    (id : string) (so : AppState * Overlay) : AppState * Overlay :=
  let '(s, o) := so in
  (setSelectedLayerId (Some id) s,
   mkOverlay
     (mkDragInfo (Some id)
        (mkPoint (clientX e - rectLeft elRect) (clientY e - rectTop elRect))%Q)
     (magnifierPosition o) (showMagnifier o) (magnifierImageOffset o)).

(** ** Reordering layers *)

(** [Array.prototype.splice(start, deleteCount, ...items)]: the removed
    elements and the array afterwards. *)
Definition splice {A : Type} (l : list A) (start deleteCount : Z)
    (items : list A) : list A * list A :=
  let len := Z.of_nat (length l) in
  let k := relativeIndex len start in
  let d := Z.min (Z.max deleteCount 0) (len - k) in
  (take (Z.to_nat d) (drop (Z.to_nat k) l),
   (take (Z.to_nat k) l ++ items ++ drop (Z.to_nat (k + d)) l)%list).

(** The body of the updater in [handleReorderLayers].  An entry [None]
    is [undefined]: it is what the destructuring yields when the first
    [splice] removes nothing. *)
Definition reorderItems {A : Type} (prev : list A) (sourceIndex destIndex : Z)
    : list (option A) :=
  let items := Some <$> prev in
  let '(removed, items) := splice items sourceIndex 1 [] in
  let reorderedItem := mjoin (head removed) in
  snd (splice items destIndex 0 [reorderedItem]).

(** [handleReorderLayers]; [None] when the array would hold an
    [undefined] entry and so no longer be a list of layers. *)
Definition handleReorderLayers (sourceIndex destIndex : Z) (s : AppState)
    : option AppState :=
  items ← mapM (fun x : option TextLayer.t => x)
             (reorderItems (layers s) sourceIndex destIndex);
  Some (setLayers items s).

(** The drag state of the layer panel ([dragItem], [dragOverItem],
    [dragOverIndex]) and its handlers; [handleDragEnd] also yields the
    call to [onReorderLayers], if one is made. *)
Record PanelDrag : Type := mkPanelDrag {
  dragItem : option Z;
  dragOverItem : option Z;
  dragOverIndex : option Z
}.

Definition handleDragStart (index : Z) (d : PanelDrag) : PanelDrag :=
  mkPanelDrag (Some index) (dragOverItem d) (dragOverIndex d).

Definition handleDragEnter (index : Z) (d : PanelDrag) : PanelDrag :=
  mkPanelDrag (dragItem d) (Some index) (Some index).

Definition handleDragEnd (d : PanelDrag) : option (Z * Z) * PanelDrag :=
  (match dragItem d, dragOverItem d with
   | Some i, Some j => if negb (i =? j) then Some (i, j) else None
   | _, _ => None
   end,
   mkPanelDrag None None None).

(** ** Screens *)

Inductive Screen : Type :=
  | ErrorScreen (message : string)
  | StartScreen
  | GenerateScreen
  | FallbackStartScreen
  | EditorScreen.

(** The screen for a session without a pending error. *)
Definition screenOfMode (s : AppState) : Screen :=
  match mode s with
  | ModeStart => StartScreen
  | ModeGenerate => GenerateScreen
  | ModeEdit =>
      match currentImageUrl s with
      | None => FallbackStartScreen
      | Some _ => EditorScreen
      end
  end.

(** The branch taken by [renderContent]. *)
Definition renderContent (s : AppState) : Screen :=
  match error s with
  | Some message => if truthy message then ErrorScreen message else screenOfMode s
  | None => screenOfMode s
  end.

(** The "Try Again" button of the error screen. *)
Definition handleTryAgain (s : AppState) : AppState :=
  let s' := setError None s in
  match mode s, currentImage s with
  | ModeEdit, None => setMode ModeStart s'
  | _, _ => s'
  end.

(** ** Generating a first image *)

Record Generators : Type := mkGenerators {
  generateImageFromText : string → string → Result string;
  generateImageFromTextAndImages : string → string → list File → Result string
}.

Definition handleGenerateImage (P : Platform) (G : Generators) (now : Z)
    (prompt aspectRatio : string) (images : list File) (s : AppState)
    : AppState :=
  let s := setIsLoading true s in
  let s := setError None s in
  let body :=
    generatedImageUrl ←
      (if (0 <? length images)%nat
       then generateImageFromTextAndImages G prompt aspectRatio images
       else generateImageFromText G prompt aspectRatio);
    newImageFile ← dataURLtoFile P generatedImageUrl
                     ("generated-" +:+ showZ now +:+ ".jpeg");
    Ok (startNewHistoryWithFile newImageFile s) in
  let s' :=
    match body with
    | Ok s' => s'
    | Throw err =>
        setMode ModeGenerate
          (setError (Some ("Failed to generate the image. " +:+ errorMessage err)) s)
    end in
  setIsLoading false s'.

(** ** The responses of the model (service module) *)

Record InlineData : Type := mkInlineData {
  mimeType : option string;
  data : option string
}.

Record Part : Type := mkPart {
  inlineData : option InlineData;
  partText : option string
}.

Record Candidate : Type := mkCandidate {
  contentParts : option (list Part);
  finishReason : option string
}.

Record PromptFeedback : Type := mkPromptFeedback {
  blockReason : option string;
  blockReasonMessage : option string
}.

(** [responseText] is the value of the [text] accessor. *)
Record GenerateContentResponse : Type := mkResponse {
  promptFeedback : option PromptFeedback;
  candidates : option (list Candidate);
  responseText : option string
}.

(** A string that is present and not empty. *)
Definition truthyOpt (o : option string) : option string :=
  match o with
  | Some v => if truthy v then Some v else None
  | None => None
  end.

(** An optional string inside a template literal. *)
Definition render (o : option string) : string := default "undefined" o.

Definition quote : string := String (ascii_of_nat 34) EmptyString.

(** [response.candidates?.[0]] *)
Definition firstCandidate (response : GenerateContentResponse)
    : option Candidate :=
  candidates response ≫= head.

(** [response.candidates?.[0]?.content?.parts?.find(part => part.inlineData)] *)
Definition imagePartFromResponse (response : GenerateContentResponse)
    : option Part :=
  match firstCandidate response with
  | Some candidate =>
      match contentParts candidate with
      | Some parts =>
          List.find
            (fun part => match inlineData part with Some _ => true | None => false end)
            parts
      | None => None
      end
  | None => None
  end.

(** The message of the error thrown when there is no image and the
    generation was not stopped. *)
Definition noImageMessage (response : GenerateContentResponse)
    (context : string) : string :=
  "The AI model did not return an image for the " +:+ context +:+ ". " +:+
  match truthyOpt (trim <$> responseText response) with
  | Some textFeedback =>
      "The model responded with text: " +:+ quote +:+ textFeedback +:+ quote
  | None =>
      "This can happen due to safety filters or if the request is too complex. Please try rephrasing your prompt to be more direct."
  end.

Definition handleApiResponse (response : GenerateContentResponse)
    (context : string) : Result string :=
  (* 1. Check for prompt blocking first *)
  match promptFeedback response ≫= (fun f => truthyOpt (blockReason f)) with
  | Some reason =>
      Throw (ErrorObj
        ("Request was blocked. Reason: " +:+ reason +:+ ". " +:+
         default "" (promptFeedback response
                       ≫= (fun f => truthyOpt (blockReasonMessage f)))))
  | None =>
      (* 2. Try to find the image part *)
      match imagePartFromResponse response ≫= inlineData with
      | Some image =>
          Ok ("data:" +:+ render (mimeType image) +:+ ";base64," +:+
              render (data image))
      | None =>
          (* 3. If no image, check for other reasons *)
          match firstCandidate response
                  ≫= (fun c => truthyOpt (finishReason c)) with
          | Some reason =>
              if negb (String.eqb reason "STOP") then
                Throw (ErrorObj
                  ("Image generation for " +:+ context +:+
                   " stopped unexpectedly. Reason: " +:+ reason +:+
                   ". This often relates to safety settings."))
              else Throw (ErrorObj (noImageMessage response context))
          | None => Throw (ErrorObj (noImageMessage response context))
          end
      end
  end.

(** The response of the image model and what [generateImageFromText]
    makes of it. *)
Record ImageData : Type := mkImageData {
  imageBytes : option string
}.

Record GeneratedImage : Type := mkGeneratedImage {
  image : option ImageData
}.

Record GenerateImagesResponse : Type := mkImagesResponse {
  generatedImages : option (list GeneratedImage)
}.

(** [response.generatedImages?.[0]?.image?.imageBytes], when truthy. *)
Definition firstImageBytes (response : GenerateImagesResponse) : option string :=
  match generatedImages response with
  | Some (generatedImage :: _) =>
      match image generatedImage with
      | Some img => truthyOpt (imageBytes img)
      | None => None
      end
  | _ => None
  end.

Definition imageFromTextResult (response : GenerateImagesResponse)
    : Result string :=
  match firstImageBytes response with
  | Some base64ImageBytes => Ok ("data:image/jpeg;base64," +:+ base64ImageBytes)
  | None =>
      Throw (ErrorObj
        "The AI model did not return an image. This could be due to safety filters or a complex prompt. Please try again.")
  end.

(** [fileToPart], on the data URL that the [FileReader] delivered for the
    file. *)
Definition fileToPart (dataUrl : string) : Result InlineData :=
  let arr := split ","%char dataUrl in
  if (length arr <? 2)%nat then Throw (ErrorObj "Invalid data URL")
  else
    match matchMime (default EmptyString (arr !! 0%nat)) with
    | None => Throw (ErrorObj "Could not parse MIME type from data URL")
    | Some mime =>
        if negb (truthy mime)
        then Throw (ErrorObj "Could not parse MIME type from data URL")
        else Ok (mkInlineData (Some mime) (arr !! 1%nat))
    end.

(** ** The generate screen *)

Definition MAX_IMAGES : Z := 3.

Record GenerateScreenState : Type := mkGenerateScreenState {
  generatePrompt : string;
  activeAspect : string;
  images : list File;
  (** the object URLs of the previews, each standing for its file *)
  imagePreviews : list File;
  isDraggingOver : bool
}.

Definition initialGenerateScreen : GenerateScreenState :=
  mkGenerateScreenState "" "1:1" [] [] false.

(** [handleFileSelect] of the generate screen; [files] is [None] for a
    null [FileList]. *)
Definition handleFileSelect (files : option (list File))
    (g : GenerateScreenState) : GenerateScreenState :=
  match files with
  | None => g
  | Some files =>
      let newFiles := slice files 0 (MAX_IMAGES - Z.of_nat (length (images g))) in
      if (0 <? length newFiles)%nat then
        mkGenerateScreenState (generatePrompt g) (activeAspect g)
          (images g ++ newFiles)%list (imagePreviews g ++ newFiles)%list
          (isDraggingOver g)
      else g
  end.

(** [prev.filter((_, index) => index !== indexToRemove)] *)
Definition removeIndex {A : Type} (indexToRemove : Z) (prev : list A) : list A :=
  (imap (fun i x => if Z.of_nat i =? indexToRemove then [] else [x]) prev) ≫= id.

Definition handleRemoveImage (indexToRemove : Z) (g : GenerateScreenState)
    : GenerateScreenState :=
  mkGenerateScreenState (generatePrompt g) (activeAspect g)
    (removeIndex indexToRemove (images g))
    (removeIndex indexToRemove (imagePreviews g))
    (isDraggingOver g).

(** [handleGenerateClick]: the arguments of the call to [onGenerate], if
    it is made. *)
Definition handleGenerateClick (isLoading : bool) (g : GenerateScreenState)
    : option (string * string * list File) :=
  if truthy (trim (generatePrompt g)) && negb isLoading
  then Some (generatePrompt g, activeAspect g, images g)
  else None.

(** ** Awaited calls *)

(** A handler that awaits a call runs in two parts: the first runs in the
    event and ends at the [await], the second runs once the call has
    settled.  Both read the values of the render in which the handler
    was created, whose state is [closure] below: the second part commits
    through the [addImageToHistory] of that render, which computes the new
    sequence from the [history] and the [historyIndex] of that render,
    while every write lands on the state as it is by then. *)

(** [addImageToHistory] as created in the render of [closure]. *)
Definition addImageToHistoryOf (closure : AppState) (newImageFile : File)
    (s : AppState) : AppState :=
  let newHistory :=
    (slice (history closure) 0 (historyIndex closure + 1) ++ [newImageFile])%list in
  let s := setHistory newHistory s in
  let s := setHistoryIndex (Z.of_nat (length newHistory) - 1) s in
  let s := setCrop None s in
  let s := setCompletedCrop None s in
  let s := setLayers [] s in
  setSelectedLayerId None s.

(** The part of each handler before its [await]: the state it leaves and
    whether the call is made. *)
Definition generateImageStart (s : AppState) : AppState * bool :=
  (setError None (setIsLoading true s), true).

Definition generateStart (s : AppState) : AppState * bool :=
  match currentImage s with
  | None => (setError (Some "No image loaded to edit.") s, false)
  | Some _ =>
      if negb (truthy (trim (prompt s))) then
        (setError (Some "Please enter a description for your edit.") s, false)
      else
        match editHotspot s with
        | None =>
            (setError (Some "Please click on the image to select an area to edit.") s,
             false)
        | Some _ => (setError None (setIsLoading true s), true)
        end
  end.

Definition applyFilterStart (s : AppState) : AppState * bool :=
  match currentImage s with
  | None => (setError (Some "No image loaded to apply a filter to.") s, false)
  | Some _ => (setError None (setIsLoading true s), true)
  end.

Definition applyAdjustmentStart (s : AppState) : AppState * bool :=
  match currentImage s with
  | None => (setError (Some "No image loaded to apply an adjustment to.") s, false)
  | Some _ => (setError None (setIsLoading true s), true)
  end.

Definition autoEnhanceStart (s : AppState) : AppState * bool :=
  match currentImage s with
  | None => (setError (Some "No image loaded to auto-enhance.") s, false)
  | Some _ => (setError None (setIsLoading true s), true)
  end.

Definition upscaleStart (s : AppState) : AppState * bool :=
  match currentImage s with
  | None => (setError (Some "No image loaded to upscale.") s, false)
  | Some _ => (setError None (setIsLoading true s), true)
  end.

(** [handleMergeLayers] up to the assignment of [src]: the call awaited
    is the loading of the image. *)
Definition mergeLayersStart (s : AppState) : AppState * bool :=
  match currentImageUrl s with
  | None => (s, false)
  | Some _ => (setIsLoading true s, true)
  end.

(** The part of each handler after its [await], on the state [s] found
    when the call settles. *)
Definition generateImageSettled (P : Platform) (G : Generators) (now : Z)
    (prompt aspectRatio : string) (images : list File) (s : AppState)
    : AppState :=
  let body :=
    generatedImageUrl ←
      (if (0 <? length images)%nat
       then generateImageFromTextAndImages G prompt aspectRatio images
       else generateImageFromText G prompt aspectRatio);
    newImageFile ← dataURLtoFile P generatedImageUrl
                     ("generated-" +:+ showZ now +:+ ".jpeg");
    Ok (startNewHistoryWithFile newImageFile s) in
  let s' :=
    match body with
    | Ok s' => s'
    | Throw err =>
        setMode ModeGenerate
          (setError (Some ("Failed to generate the image. " +:+ errorMessage err)) s)
    end in
  setIsLoading false s'.

Definition generateSettled (P : Platform) (G : Services) (now : Z)
    (closure s : AppState) : AppState :=
  match currentImage closure, editHotspot closure with
  | Some image, Some hotspot =>
      tryCatchFinally "Failed to generate the image." s
        (editedImageUrl ← generateEditedImage G image (prompt closure) hotspot;
         newImageFile ← dataURLtoFile P editedImageUrl
                          ("edited-" +:+ showZ now +:+ ".png");
         Ok (setDisplayHotspot None
               (setEditHotspot None (addImageToHistoryOf closure newImageFile s))))
  | _, _ => s
  end.

Definition applyFilterSettled (P : Platform) (G : Services) (now : Z)
    (filterPrompt : string) (closure s : AppState) : AppState :=
  match currentImage closure with
  | Some image =>
      tryCatchFinally "Failed to apply the filter." s
        (filteredImageUrl ← generateFilteredImage G image filterPrompt;
         newImageFile ← dataURLtoFile P filteredImageUrl
                          ("filtered-" +:+ showZ now +:+ ".png");
         Ok (addImageToHistoryOf closure newImageFile s))
  | None => s
  end.

Definition applyAdjustmentSettled (P : Platform) (G : Services) (now : Z)
    (adjustmentPrompt : string) (closure s : AppState) : AppState :=
  match currentImage closure with
  | Some image =>
      tryCatchFinally "Failed to apply the adjustment." s
        (adjustedImageUrl ← generateAdjustedImage G image adjustmentPrompt;
         newImageFile ← dataURLtoFile P adjustedImageUrl
                          ("adjusted-" +:+ showZ now +:+ ".png");
         Ok (addImageToHistoryOf closure newImageFile s))
  | None => s
  end.

Definition autoEnhanceSettled (P : Platform) (G : Services) (now : Z)
    (closure s : AppState) : AppState :=
  match currentImage closure with
  | Some image =>
      tryCatchFinally "Failed to auto-enhance the image." s
        (enhancedImageUrl ← generateAutoEnhancedImage G image;
         newImageFile ← dataURLtoFile P enhancedImageUrl
                          ("enhanced-" +:+ showZ now +:+ ".png");
         Ok (addImageToHistoryOf closure newImageFile s))
  | None => s
  end.

Definition upscaleSettled (P : Platform) (G : Services) (now : Z)
    (closure s : AppState) : AppState :=
  match currentImage closure with
  | Some image =>
      tryCatchFinally "Failed to upscale the image." s
        (upscaledImageUrl ← generateUpscaledImage G image;
         newImageFile ← dataURLtoFile P upscaledImageUrl
                          ("upscaled-" +:+ showZ now +:+ ".png");
         Ok (addImageToHistoryOf closure newImageFile s))
  | None => s
  end.

(** The [onload] and [onerror] callbacks of [handleMergeLayers]. *)
Definition mergeLayersSettled (P : Platform) (now : Z) (closure s : AppState)
    : Outcome :=
  match loadImage P (currentImageUrl closure) with
  | Some imageToMerge =>
      if negb (hasContext2d P) then
        Returned
          (setError (Some "Failed to create canvas context for merging.")
             (setIsLoading false s))
      else
        let dataUrl := toDataURL P (mergeCanvas P imageToMerge (layers closure)) in
        match dataURLtoFile P dataUrl ("merged-" +:+ showZ now +:+ ".png") with
        | Ok newImageFile =>
            Returned (setIsLoading false (addImageToHistoryOf closure newImageFile s))
        | Throw e => Uncaught e s
        end
  | None =>
      Returned
        (setError (Some "Failed to load image for merging.")
           (setIsLoading false s))
  end.

(** ** Sessions *)

(** A session: the state of [App] together with the pointer state. *)
Definition Session : Type := AppState * Overlay.

(** What the user and the browser can make happen.  An event carries
    what its handler reads from outside the state: the platform, the
    mounted elements, and, for a handler that awaits a call, what the
    call will settle to and the clock reading at that time. *)
Inductive Event : Type :=
  | ImageUpload (file : File)
  | StartGenerate
  | CancelGenerate
  | GenerateImage (P : Platform) (G : Generators) (now : Z)
      (prompt aspectRatio : string) (images : list File)
  | TryAgain
  | Generate (P : Platform) (G : Services) (now : Z)
  | ApplyFilter (P : Platform) (G : Services) (now : Z) (filterPrompt : string)
  | ApplyAdjustment (P : Platform) (G : Services) (now : Z)
      (adjustmentPrompt : string)
  | AutoEnhance (P : Platform) (G : Services) (now : Z)
  | Upscale (P : Platform) (G : Services) (now : Z)
  | ApplyCrop (P : Platform) (imgRef : option ImageElement) (now : Z)
  | ResetCrop
  | Undo
  | Redo
  | ResetToOriginal
  | UploadNew
  | ImageClick (imgRef : option ImageLayout) (e : MouseEvent)
  | MouseMove (containerRef : option DOMRect) (imgRef : option ImageLayout)
      (e : MouseEvent)
  | MouseLeave
  | MouseUp
  | LayerMouseDown (elRect : DOMRect) (e : MouseEvent) (id : string)
  | AddTextLayer (now : Z)
  | UpdateLayer (id : string) (updates : PartialTextLayer)
  | RemoveLayer (id : string)
  | ReorderLayers (sourceIndex destIndex : Z)
  | MergeLayers (P : Platform) (now : Z)
  | TypePrompt (value : string)
  | SelectTab (tab : Tab)
  | ChangeCrop (c : option Crop)
  | CompleteCrop (c : option PixelCrop)
  | ChooseAspect (a : option Q)
  | SelectLayer (id : option string)
  | UrlEffect.

Definition onApp (f : AppState → AppState) (st : Session) : option Session :=
  Some (f st.1, st.2).

(** What runs in the event itself; for a handler that awaits a call, its
    part up to the [await].  [None] only where the state that would
    result has no counterpart here: a reordering that leaves an
    [undefined] entry among the layers, a hotspot that is not finite. *)
Definition immediate (ev : Event) (st : Session) : option Session :=
  match ev with
  | ImageUpload file => onApp (handleImageUpload file) st
  | StartGenerate => onApp (setMode ModeGenerate) st
  | CancelGenerate => onApp (setMode ModeStart) st
  | GenerateImage P G now prompt aspectRatio images =>
      onApp (fun s => (generateImageStart s).1) st
  | TryAgain => onApp handleTryAgain st
  | Generate P G now => onApp (fun s => (generateStart s).1) st
  | ApplyFilter P G now filterPrompt => onApp (fun s => (applyFilterStart s).1) st
  | ApplyAdjustment P G now adjustmentPrompt =>
      onApp (fun s => (applyAdjustmentStart s).1) st
  | AutoEnhance P G now => onApp (fun s => (autoEnhanceStart s).1) st
  | Upscale P G now => onApp (fun s => (upscaleStart s).1) st
  | ApplyCrop P imgRef now =>
      onApp (fun s => stateOf (handleApplyCrop P imgRef now s)) st
  | ResetCrop => onApp handleResetCrop st
  | Undo => onApp handleUndo st
  | Redo => onApp handleRedo st
  | ResetToOriginal => onApp handleReset st
  | UploadNew => onApp handleUploadNew st
  | ImageClick imgRef e =>
      s ← handleImageClick imgRef e st.1; Some (s, st.2)
  | MouseMove containerRef imgRef e => Some (handleMouseMove containerRef imgRef e st)
  | MouseLeave => Some (handleMouseLeave st)
  | MouseUp => Some (handleMouseUp st)
  | LayerMouseDown elRect e id => Some (handleLayerMouseDown elRect e id st)
  | AddTextLayer now => onApp (handleAddTextLayer now) st
  | UpdateLayer id updates => onApp (handleUpdateLayer id updates) st
  | RemoveLayer id => onApp (handleRemoveLayer id) st
  | ReorderLayers sourceIndex destIndex =>
      s ← handleReorderLayers sourceIndex destIndex st.1; Some (s, st.2)
  | MergeLayers P now => onApp (fun s => (mergeLayersStart s).1) st
  | TypePrompt value => onApp (setPrompt value) st
  | SelectTab tab => onApp (setActiveTab tab) st
  | ChangeCrop c => onApp (setCrop c) st
  | CompleteCrop c => onApp (setCompletedCrop c) st
  | ChooseAspect a => onApp (setAspect a) st
  | SelectLayer id => onApp (setSelectedLayerId id) st
  | UrlEffect => onApp currentImageEffect st
  end.

(** Whether the handler of the event, run in state [s], is then waiting
    for a call. *)
Definition awaits (ev : Event) (s : AppState) : bool :=
  match ev with
  | GenerateImage _ _ _ _ _ _ => (generateImageStart s).2
  | Generate _ _ _ => (generateStart s).2
  | ApplyFilter _ _ _ _ => (applyFilterStart s).2
  | ApplyAdjustment _ _ _ _ => (applyAdjustmentStart s).2
  | AutoEnhance _ _ _ => (autoEnhanceStart s).2
  | Upscale _ _ _ => (upscaleStart s).2
  | MergeLayers _ _ => (mergeLayersStart s).2
  | _ => false
  end.

(** A call in flight: the event whose handler awaits it and the state of
    the render in which that handler was created. *)
Record Pending : Type := mkPending {
  started : Event;
  closure : AppState
}.

(** What the handler does once its call has settled. *)
Definition resume (p : Pending) (s : AppState) : AppState :=
  match started p with
  | GenerateImage P G now prompt aspectRatio images =>
      generateImageSettled P G now prompt aspectRatio images s
  | Generate P G now => generateSettled P G now (closure p) s
  | ApplyFilter P G now filterPrompt =>
      applyFilterSettled P G now filterPrompt (closure p) s
  | ApplyAdjustment P G now adjustmentPrompt =>
      applyAdjustmentSettled P G now adjustmentPrompt (closure p) s
  | AutoEnhance P G now => autoEnhanceSettled P G now (closure p) s
  | Upscale P G now => upscaleSettled P G now (closure p) s
  | MergeLayers P now => stateOf (mergeLayersSettled P now (closure p) s)
  | _ => s
  end.

(** The session and the calls in flight. *)
Record Live : Type := mkLive {
  session : Session;
  inFlight : list Pending
}.

Definition app (w : Live) : AppState := (session w).1.

Definition firstRender : Live := mkLive (initialState, initialOverlay) [].

(** What happens next: an event fires, or one of the calls in flight
    settles.  Nothing orders the two kinds: while a call is in flight
    the undo, redo, reset and start-over buttons stay enabled. *)
Inductive Occurrence : Type :=
  | Fire (ev : Event)
  | Settle (i : nat).

Definition step (occ : Occurrence) (w : Live) : option Live :=
  match occ with
  | Fire ev =>
      st ← immediate ev (session w);
      Some (mkLive st
              (if awaits ev (app w)
               then (inFlight w ++ [mkPending ev (app w)])%list
               else inFlight w))
  | Settle i =>
      p ← inFlight w !! i;
      Some (mkLive (resume p (app w), (session w).2) (delete i (inFlight w)))
  end.


(** The shape of the history stack that every handler maintains: the
    cursor designates an entry, or is [-1] when there is none, and the
    editor is only shown over a raster. *)
Definition wellFormed (m : AppMode) (h : list File) (i : Z) : Prop :=
  -1 ≤ i < Z.of_nat (length h)
  ∧ (h ≠ [] → 0 ≤ i)
  ∧ (m = ModeEdit → h ≠ []).

Definition sessionInvariant (s : AppState) : Prop :=
  wellFormed (mode s) (history s) (historyIndex s).

(** [k] redos in a row. *)
Definition redos (k : nat) (s : AppState) : AppState :=
  Nat.iter k handleRedo s.





(** The history stack as the handlers see it. *)
Definition sameStack (s s' : AppState) : Prop :=
  history s' = history s
  ∧ historyIndex s' = historyIndex s
  ∧ currentImage s' = currentImage s.

(** Whether a character occurs in a string. *)
Fixpoint occurs (c : ascii) (s : string) : bool :=
  match s with
  | EmptyString => false
  | String c' r => Ascii.eqb c' c || occurs c r
  end.

(** A MIME type as it stands between ["data:"] and [";base64,"]: not
    empty, made of the characters U+0020 .. U+007E, no comma, no
    semicolon. *)
Definition plainMime (m : string) : Prop :=
  truthy m = true
  ∧ allPrintable m = true
  ∧ occurs ","%char m = false
  ∧ occurs ";"%char m = false.

(** The data URL of a payload of the given MIME type. *)
Definition base64Url (mime payload : string) : string :=
  "data:" +:+ mime +:+ ";base64," +:+ payload.

(** The state after a run of occurrences, if every one of them applies. *)
Definition run (occs : list Occurrence) (w : Live) : option Live :=
  foldl (fun acc occ => acc ≫= step occ) (Some w) occs.

(** The response is not blocked and the first part of its first
    candidate that has inline data carries this MIME type and payload. *)
Definition carriesImage (response : GenerateContentResponse)
    (mime payload : string) : Prop :=
  promptFeedback response ≫= (fun f => truthyOpt (blockReason f)) = None
  ∧ imagePartFromResponse response ≫= inlineData
    = Some (mkInlineData (Some mime) (Some payload)).

(** The response with other candidates after the first one. *)
Definition withLaterCandidates (response : GenerateContentResponse)
    (rest : list Candidate) : GenerateContentResponse :=
  mkResponse (promptFeedback response)
    (match candidates response with
     | Some (c :: _) => Some (c :: rest)
     | other => other
     end)
    (responseText response).

(** ** More sample values *)

Module Scenario.
(** A response whose first candidate answers with a text part and then
    an image part. *)
Definition answer : GenerateContentResponse :=
  mkResponse None
    (Some [mkCandidate
             (Some [mkPart None (Some "Here is your image.");
                    mkPart (Some (mkInlineData (Some "image/jpeg") (Some "ZmlsdA==")))
                      None])
             (Some "STOP")])
    None.

(** Services whose filter call hands back what [handleApiResponse] makes
    of [answer]. *)
Definition services : Services :=
  {| generateEditedImage := fun _ _ _ => handleApiResponse answer "edit";
     generateFilteredImage := fun _ _ => handleApiResponse answer "filter";
     generateAdjustedImage := fun _ _ => handleApiResponse answer "adjustment";
     generateAutoEnhancedImage := fun _ => handleApiResponse answer "auto-enhance";
     generateUpscaledImage := fun _ => handleApiResponse answer "upscale" |}.

Definition loaded : AppState := handleImageUpload Sample.R0 initialState.

(** The image model answering with one image, and generators built on
    it; [refusing] answers with none. *)
Definition picture : GenerateImagesResponse :=
  mkImagesResponse (Some [mkGeneratedImage (Some (mkImageData (Some "/9j/4AAQ")))]).

Definition generators : Generators :=
  {| generateImageFromText := fun _ _ => imageFromTextResult picture;
     generateImageFromTextAndImages :=
       fun _ _ _ => handleApiResponse answer "text-and-image-generation" |}.

Definition refusing : Generators :=
  {| generateImageFromText :=
       fun _ _ => imageFromTextResult (mkImagesResponse (Some []));
     generateImageFromTextAndImages :=
       fun _ _ _ => Throw (ErrorObj "network down") |}.








(** A second upload, for a session that is started over. *)
Definition B0 : File := mkFile "b0" "other.jpeg" "image/jpeg".

(** A filter is requested on [Sample.R0]; before its call settles the
    user starts over and uploads [B0]; then the call settles. *)
Definition overtaken : list Occurrence :=
  [Fire (ImageUpload Sample.R0); Fire UrlEffect;
   Fire (ApplyFilter Sample.platform Sample.resolving 7 "vintage");
   Fire UploadNew; Fire UrlEffect; Fire (ImageUpload B0); Fire UrlEffect;
   Settle 0].

End Scenario.

(** * Properties *)

(** ** Arrays *)

Section arrays.
Context {A : Type}.
Implicit Types (l : list A) (i n : Z).

Lemma slice_prefix l n :
  0 ≤ n ≤ Z.of_nat (length l) → slice l 0 n = take (Z.to_nat n) l.
Proof.
  intros Hn. unfold slice, relativeIndex.
  replace (0 <? 0) with false by reflexivity.
  destruct (Z.ltb_spec n 0) as [?|_]; [lia|].
  rewrite Z.min_l, Z.min_l by lia.
  rewrite Z.sub_0_r. reflexivity.
Qed.

Lemma index_lookup l i :
  0 ≤ i → index l i = l !! Z.to_nat i.
Proof.
  intros Hi. unfold index.
  destruct (Z.ltb_spec i 0); [lia | reflexivity].
Qed.

Lemma index_negative l i : i < 0 → index l i = None.
Proof.
  intros Hi. unfold index.
  destruct (Z.ltb_spec i 0); [reflexivity | lia].
Qed.
End arrays.

(** ** Binary64 rounding *)

Section rounding.
Local Open Scope Q_scope.

Lemma two_pow_pos e : 0 < 2 ^ e.
Proof. apply Qpower_0_lt. reflexivity. Qed.

Lemma two_pow_plus a b : 2 ^ (a + b) == 2 ^ a * 2 ^ b.
Proof. apply Qpower_plus. discriminate. Qed.

Lemma two_pow_le a b : (a <= b)%Z -> 2 ^ a <= 2 ^ b.
Proof. intros H. apply Qpower_le_compat_l; [exact H | discriminate]. Qed.

Lemma two_pow_lt a b : (a < b)%Z -> 2 ^ a < 2 ^ b.
Proof. intros H. apply Qpower_lt_compat_l; [exact H | reflexivity]. Qed.

Lemma two_pow_lt_inv a b : 2 ^ a < 2 ^ b -> (a < b)%Z.
Proof. intros H. apply (Qpower_lt_compat_l_inv 2); [exact H | reflexivity]. Qed.

Lemma two_pow_Z n : (0 <= n)%Z -> 2 ^ n == inject_Z (2 ^ n).
Proof. intros H. symmetry. apply (Zpower_Qpower 2 n H). Qed.

Lemma two_pow_succ a : 2 ^ (a + 1) == 2 * 2 ^ a.
Proof. rewrite two_pow_plus. change (2 ^ 1) with 2. ring. Qed.

(** The binade of a positive rational. *)
Lemma binade_spec a : 0 < a -> 2 ^ binade a <= a /\ a < 2 ^ (binade a + 1).
Proof.
  destruct a as [n d]. unfold Qlt at 1. cbn [Qnum Qden]. rewrite Z.mul_1_r.
  intros Hn. change (0 * _)%Z with 0%Z in Hn.
  unfold binade. cbn [Qnum Qden].
  set (ln := Z.log2 n). set (ld := Z.log2 (Z.pos d)).
  destruct (Z.log2_spec n Hn) as [Hn1 Hn2]. fold ln in Hn1, Hn2.
  destruct (Z.log2_spec (Z.pos d) eq_refl) as [Hd1 Hd2]. fold ld in Hd1, Hd2.
  assert (Hln : (0 <= ln)%Z) by apply Z.log2_nonneg.
  assert (Hld : (0 <= ld)%Z) by apply Z.log2_nonneg.
  assert (En : 2 ^ ln <= inject_Z n /\ inject_Z n < 2 * 2 ^ ln).
  { rewrite (two_pow_Z ln Hln). split.
    - rewrite <- Zle_Qle. exact Hn1.
    - change 2 with (inject_Z 2) at 1. rewrite <- inject_Z_mult, <- Zlt_Qlt.
      rewrite Z.pow_succ_r in Hn2 by exact Hln. exact Hn2. }
  assert (Ed : 2 ^ ld <= inject_Z (Z.pos d) /\ inject_Z (Z.pos d) < 2 * 2 ^ ld).
  { rewrite (two_pow_Z ld Hld). split.
    - rewrite <- Zle_Qle. exact Hd1.
    - change 2 with (inject_Z 2) at 1. rewrite <- inject_Z_mult, <- Zlt_Qlt.
      rewrite Z.pow_succ_r in Hd2 by exact Hld. exact Hd2. }
  assert (Ea : n # d == inject_Z n / inject_Z (Z.pos d)) by apply Qmake_Qdiv.
  assert (Hk : 2 ^ ln == 2 ^ (ln - ld) * 2 ^ ld).
  { rewrite <- two_pow_plus. replace (ln - ld + ld)%Z with ln by lia. reflexivity. }
  pose proof (two_pow_pos ln) as Pn. pose proof (two_pow_pos ld) as Pd.
  pose proof (two_pow_pos (ln - ld)) as Pk.
  assert (Hdpos : 0 < inject_Z (Z.pos d)) by reflexivity.
  assert (Hlo : 2 ^ (ln - ld - 1) < n # d).
  { rewrite Ea. apply Qlt_shift_div_l; [exact Hdpos|].
    assert (E1 : 2 ^ (ln - ld) == 2 * 2 ^ (ln - ld - 1)).
    { rewrite <- two_pow_succ. replace (ln - ld - 1 + 1)%Z with (ln - ld)%Z by lia.
      reflexivity. }
    pose proof (two_pow_pos (ln - ld - 1)) as P1.
    destruct En as [En1 _]. destruct Ed as [_ Ed2].
    rewrite Hk, E1 in En1.
    apply (Qlt_le_trans _ (2 ^ (ln - ld - 1) * (2 * 2 ^ ld))).
    - apply Qmult_lt_l; assumption.
    - lra. }
  assert (Hhi : n # d < 2 ^ (ln - ld + 1)).
  { rewrite Ea. apply Qlt_shift_div_r; [exact Hdpos|].
    rewrite two_pow_succ.
    destruct En as [_ En2]. destruct Ed as [Ed1 _].
    rewrite Hk in En2.
    apply (Qlt_le_trans _ (2 * (2 ^ (ln - ld) * 2 ^ ld))); [exact En2|].
    rewrite <- Qmult_assoc. apply Qmult_le_l; [reflexivity|].
    apply Qmult_le_l; assumption. }
  destruct (Qle_bool (2 ^ (ln - ld)) (n # d)) eqn:E.
  - apply Qle_bool_iff in E. split; assumption.
  - assert (Hnot : ~ 2 ^ (ln - ld) <= n # d).
    { intros H. apply Qle_bool_iff in H. congruence. }
    apply Qnot_le_lt in Hnot.
    replace (ln - ld - 1 + 1)%Z with (ln - ld)%Z by lia.
    split; [apply Qlt_le_weak, Hlo | exact Hnot].
Qed.

(** Rounding to the nearest integer. *)
Lemma roundHalfEven_cases v :
  roundHalfEven v = Qfloor v \/ roundHalfEven v = (Qfloor v + 1)%Z.
Proof.
  unfold roundHalfEven. destruct (_ ?= _); [destruct (Z.even _)| |]; auto.
Qed.


Lemma roundHalfEven_ge v n : inject_Z n <= v -> (n <= roundHalfEven v)%Z.
Proof.
  intros H. apply Qfloor_resp_le in H. rewrite Qfloor_Z in H.
  destruct (roundHalfEven_cases v) as [-> | ->]; lia.
Qed.

Lemma roundHalfEven_le v n : v <= inject_Z n -> (roundHalfEven v <= n)%Z.
Proof.
  intros H.
  destruct (Z.le_gt_cases (roundHalfEven v) n) as [?|Hgt]; [assumption|].
  exfalso.
  assert (Hf : (Qfloor v <= n)%Z).
  { apply Qfloor_resp_le in H. rewrite Qfloor_Z in H. exact H. }
  destruct (roundHalfEven_cases v) as [E|E]; [lia|].
  assert (Hn : Qfloor v = n) by lia.
  (* then v = n exactly, and the fractional part is 0 *)
  assert (Hv : v == inject_Z n).
  { apply Qle_antisym; [exact H|]. rewrite <- Hn. apply Qfloor_le. }
  unfold roundHalfEven in E. rewrite Hn in E.
  assert (Hc : (v - inject_Z n ?= 1 # 2) = Lt).
  { apply (proj1 (Qlt_alt _ _)). lra. }
  rewrite Hc in E. lia.
Qed.

Lemma ulp_pos a : 0 < ulp a.
Proof. apply two_pow_pos. Qed.



(** Rounding does not cross an integer below 2^53. *)
Lemma shifted_integer (N j : Z) :
  (0 <= j)%Z -> inject_Z N / 2 ^ (- j) == inject_Z (N * 2 ^ j).
Proof.
  intros Hj. rewrite inject_Z_mult, <- (two_pow_Z j Hj).
  rewrite Qpower_opp. field. pose proof (two_pow_pos j). intros E0; lra.
Qed.

Lemma exponent_below a N :
  0 < a -> a <= inject_Z N -> (N < 2 ^ 53)%Z ->
  (Z.max (binade a) (-1022) <= 52)%Z.
Proof.
  intros Ha HN HN'. destruct (binade_spec a Ha) as [Hb _].
  assert (H : 2 ^ binade a < 2 ^ 53).
  { eapply Qle_lt_trans; [exact Hb|]. eapply Qle_lt_trans; [exact HN|].
    rewrite (two_pow_Z 53) by lia. rewrite <- Zlt_Qlt. exact HN'. }
  apply two_pow_lt_inv in H. lia.
Qed.

Lemma nearest64_le a N :
  0 < a -> a <= inject_Z N -> (N < 2 ^ 53)%Z -> nearest64 a <= inject_Z N.
Proof.
  intros Ha HN HN'. pose proof (exponent_below a N Ha HN HN') as He.
  unfold nearest64. pose proof (ulp_pos a) as Hu.
  set (j := (52 - Z.max (binade a) (-1022))%Z).
  assert (Eu : ulp a = 2 ^ (- j)).
  { unfold ulp, j. f_equal. lia. }
  assert (Hm : (roundHalfEven (a / ulp a) <= N * 2 ^ j)%Z).
  { apply roundHalfEven_le. rewrite <- shifted_integer by (unfold j; lia).
    rewrite <- Eu. apply Qmult_le_r; [apply Qinv_lt_0_compat, Hu | exact HN]. }
  rewrite Zle_Qle in Hm. rewrite <- shifted_integer in Hm by (unfold j; lia).
  rewrite <- Eu in Hm.
  apply (Qmult_le_r _ _ _ Hu) in Hm.
  assert (E : inject_Z N / ulp a * ulp a == inject_Z N) by (field; intros E0; lra).
  rewrite E in Hm. exact Hm.
Qed.

Lemma nearest64_ge a N :
  0 < a -> inject_Z N <= a -> (N < 2 ^ 53)%Z -> inject_Z N <= nearest64 a.
Proof.
  intros Ha HN HN'. unfold nearest64. pose proof (ulp_pos a) as Hu.
  destruct (Z.le_gt_cases (Z.max (binade a) (-1022)) 52) as [He|He].
  - set (j := (52 - Z.max (binade a) (-1022))%Z).
    assert (Eu : ulp a = 2 ^ (- j)).
    { unfold ulp, j. f_equal. lia. }
    assert (Hm : (N * 2 ^ j <= roundHalfEven (a / ulp a))%Z).
    { apply roundHalfEven_ge. rewrite <- shifted_integer by (unfold j; lia).
      rewrite <- Eu. apply Qmult_le_r; [apply Qinv_lt_0_compat, Hu | exact HN]. }
    rewrite Zle_Qle in Hm. rewrite <- shifted_integer in Hm by (unfold j; lia).
    rewrite <- Eu in Hm.
    apply (Qmult_le_r _ _ _ Hu) in Hm.
    assert (E : inject_Z N / ulp a * ulp a == inject_Z N) by (field; intros E0; lra).
    rewrite E in Hm. exact Hm.
  - (* the binade is above 2^53: the result is at least 2^53 *)
    assert (Hb : Z.max (binade a) (-1022) = binade a) by lia.
    destruct (binade_spec a Ha) as [Hlo _].
    assert (Hy : inject_Z (2 ^ 52) <= a / ulp a).
    { apply Qle_shift_div_l; [exact Hu|]. unfold ulp. rewrite Hb.
      rewrite <- (two_pow_Z 52) by lia. rewrite <- two_pow_plus.
      replace (52 + (binade a - 52))%Z with (binade a) by lia. exact Hlo. }
    apply roundHalfEven_ge in Hy. rewrite Zle_Qle in Hy.
    apply (Qmult_le_r _ _ _ Hu) in Hy.
    assert (E : inject_Z (2 ^ 52) * ulp a == 2 ^ binade a).
    { unfold ulp. rewrite Hb. rewrite <- (two_pow_Z 52) by lia.
      rewrite <- two_pow_plus. replace (52 + (binade a - 52))%Z with (binade a) by lia.
      reflexivity. }
    rewrite E in Hy.
    apply (Qle_trans _ (2 ^ 53)).
    + rewrite (two_pow_Z 53) by lia. rewrite <- Zle_Qle. lia.
    + apply (Qle_trans _ (2 ^ binade a)); [apply two_pow_le; lia | exact Hy].
Qed.



Lemma binary64_zero q : q == 0 -> binary64 q = Finite 0.
Proof.
  intros E. unfold binary64. apply (proj1 (Qeq_alt _ _)) in E. rewrite E.
  reflexivity.
Qed.

Lemma binary64_positive q :
  0 < q -> nearest64 q < 2 ^ 1024 -> binary64 q = Finite (Qred (nearest64 q)).
Proof.
  intros Hq Hr. unfold binary64.
  assert (E : (q ?= 0) = Gt) by (apply (proj1 (Qgt_alt _ _)), Hq).
  rewrite E. cbn zeta.
  destruct (Qle_bool (2 ^ 1024) (nearest64 q)) eqn:B; [|reflexivity].
  apply Qle_bool_iff in B. lra.
Qed.

Lemma below_overflow (n : Z) : (n < 2 ^ 53)%Z -> inject_Z n < 2 ^ 1024.
Proof.
  intros Hn. apply (Qlt_trans _ (2 ^ 53)).
  - rewrite (two_pow_Z 53) by lia. rewrite <- Zlt_Qlt. exact Hn.
  - apply two_pow_lt. lia.
Qed.

(** The binary64 value of a number between two integers lies between
    them. *)
Lemma binary64_between q lo hi :
  inject_Z lo <= q <= inject_Z hi -> (0 <= lo)%Z -> (hi < 2 ^ 53)%Z ->
  exists r, binary64 q = Finite r /\ inject_Z lo <= r <= inject_Z hi.
Proof.
  intros [Hlo Hhi] H0 Hmax.
  assert (Hq : 0 <= q).
  { apply (Qle_trans _ (inject_Z lo)); [|exact Hlo].
    change 0 with (inject_Z 0). rewrite <- Zle_Qle. exact H0. }
  destruct (Qlt_le_dec 0 q) as [Hpos|Hzero].
  - assert (Hlo' : (lo < 2 ^ 53)%Z).
    { assert (H : inject_Z lo <= inject_Z hi) by lra.
      rewrite <- Zle_Qle in H. lia. }
    pose proof (nearest64_le q hi Hpos Hhi Hmax) as Hr2.
    pose proof (nearest64_ge q lo Hpos Hlo Hlo') as Hr1.
    exists (Qred (nearest64 q)). split.
    + apply binary64_positive; [exact Hpos|].
      eapply Qle_lt_trans; [exact Hr2 | apply below_overflow, Hmax].
    + rewrite Qred_correct. split; assumption.
  - assert (E : q == 0) by lra.
    exists 0. split; [apply binary64_zero, E|]. lra.
Qed.



End rounding.

(** ** The history stack *)

Lemma history_commit s R :
  cursorValid s →
  history (addImageToHistory R s)
  = (take (Z.to_nat (historyIndex s + 1)) (history s) ++ [R])%list.
Proof.
  intros [Hlo Hhi]. cbn. f_equal. apply slice_prefix. lia.
Qed.

Lemma cursor_commit s R :
  cursorValid s →
  historyIndex (addImageToHistory R s) = historyIndex s + 1.
Proof.
  intros Hv. pose proof (history_commit s R Hv) as Hh.
  destruct Hv as [Hlo Hhi]. cbn in *. rewrite Hh.
  rewrite length_app, length_take_le by lia. cbn. lia.
Qed.

Lemma cursor_commit_last s R :
  historyIndex (addImageToHistory R s)
  = Z.of_nat (length (history (addImageToHistory R s))) - 1.
Proof. reflexivity. Qed.

Lemma canRedo_commit s R : canRedo (addImageToHistory R s) = false.
Proof. unfold canRedo. rewrite cursor_commit_last. apply Z.ltb_irrefl. Qed.

Lemma cursorValid_commit s R : cursorValid (addImageToHistory R s).
Proof.
  unfold cursorValid. rewrite cursor_commit_last. cbn.
  rewrite length_app. cbn. lia.
Qed.

Lemma history_undo s : history (handleUndo s) = history s.
Proof. unfold handleUndo. destruct (canUndo s); reflexivity. Qed.

Lemma history_redo s : history (handleRedo s) = history s.
Proof. unfold handleRedo. destruct (canRedo s); reflexivity. Qed.

Lemma cursor_undo s :
  historyIndex (handleUndo s)
  = if canUndo s then historyIndex s - 1 else historyIndex s.
Proof. unfold handleUndo. destruct (canUndo s); reflexivity. Qed.

Lemma cursor_redo s :
  historyIndex (handleRedo s)
  = if canRedo s then historyIndex s + 1 else historyIndex s.
Proof. unfold handleRedo. destruct (canRedo s); reflexivity. Qed.

(** After a run of commits from a state whose cursor is on the last
    entry, the history is the old one followed by the new rasters and the
    cursor is again on the last entry. *)
Lemma commits_spec rs : ∀ s,
  historyIndex s = Z.of_nat (length (history s)) - 1 →
  history (commits rs s) = (history s ++ rs)%list
  ∧ historyIndex (commits rs s) = Z.of_nat (length (history s ++ rs)) - 1.
Proof.
  induction rs as [|r rs IH]; intros s Hs; cbn.
  - rewrite app_nil_r. done.
  - assert (Hv : cursorValid s) by (unfold cursorValid; lia).
    destruct (IH (addImageToHistory r s) (cursor_commit_last s r)) as [Hh Hi].
    fold (commits rs (addImageToHistory r s)).
    rewrite Hh, Hi, (history_commit s r Hv).
    replace (Z.to_nat (historyIndex s + 1)) with (length (history s)) by lia.
    rewrite firstn_all, <- app_assoc. done.
Qed.

(** [k] undos move the cursor down by [k] as long as it stays at or
    above 0, and never touch the sequence. *)
Lemma undos_spec k : ∀ s,
  Z.of_nat k ≤ historyIndex s →
  history (undos k s) = history s
  ∧ historyIndex (undos k s) = historyIndex s - Z.of_nat k.
Proof.
  induction k as [|k IH]; intros s Hk.
  - cbn. split; [done | lia].
  - destruct (IH s) as [Hh Hi]; [lia|].
    change (undos (S k) s) with (handleUndo (undos k s)).
    rewrite history_undo, cursor_undo, Hh, Hi. unfold canUndo. rewrite Hi.
    destruct (Z.ltb_spec 0 (historyIndex s - Z.of_nat k)); [|lia].
    split; [done | lia].
Qed.

(** C1.  [commit] ([addImageToHistory]) keeps the entries at positions
    0 .. cursor, appends the new raster and puts the cursor on the new
    last entry, so redo is unavailable afterwards.  In particular, from
    [[R0; R1; R2]] with cursor 2, one undo (cursor 1) followed by the
    commit of [R'] gives [[R0; R1; R']] with cursor 2, redo is
    unavailable, and it becomes available again after a new undo. *)
Theorem commit_truncates_then_appends (s : AppState) (R' : File)
    (Hcur : cursorValid s) :
  let s' := addImageToHistory R' s in
  (history s' = (take (Z.to_nat (historyIndex s + 1)) (history s) ++ [R'])%list
   ∧ historyIndex s' = Z.of_nat (length (history s')) - 1
   ∧ historyIndex s' = historyIndex s + 1
   ∧ canRedo s' = false)
  ∧ ∀ R0 R1 R2,
      history s = [R0; R1; R2] → historyIndex s = 2 →
      let u := handleUndo s in
      let c := addImageToHistory R' u in
      historyIndex u = 1
      ∧ history c = [R0; R1; R'] ∧ historyIndex c = 2
      ∧ canRedo c = false ∧ canRedo (handleUndo c) = true.
Proof.
  cbn zeta. split.
  - split; [exact (history_commit s R' Hcur)|].
    split; [exact (cursor_commit_last s R')|].
    split; [exact (cursor_commit s R' Hcur) | exact (canRedo_commit s R')].
  - intros R0 R1 R2 Hh Hi.
    assert (Hu : historyIndex (handleUndo s) = 1).
    { rewrite cursor_undo. unfold canUndo. rewrite Hi. reflexivity. }
    assert (Hv : cursorValid (handleUndo s)).
    { unfold cursorValid. rewrite Hu, history_undo, Hh. cbn. lia. }
    assert (Hc : history (addImageToHistory R' (handleUndo s)) = [R0; R1; R']).
    { rewrite (history_commit _ R' Hv), Hu, history_undo, Hh. reflexivity. }
    assert (Hk : historyIndex (addImageToHistory R' (handleUndo s)) = 2).
    { rewrite (cursor_commit _ R' Hv), Hu. reflexivity. }
    repeat split; try assumption.
    + apply canRedo_commit.
    + unfold canRedo. rewrite cursor_undo, history_undo, Hc. unfold canUndo.
      rewrite Hk. reflexivity.
Qed.

Lemma commit_truncates_then_appends_witness :
  cursorValid Sample.three
  ∧ history (addImageToHistory Sample.R3 (handleUndo Sample.three))
    = [Sample.R0; Sample.R1; Sample.R3].
Proof.
  assert (Hcur : cursorValid Sample.three) by (unfold cursorValid; cbn; lia).
  split; [exact Hcur|].
  destruct (commit_truncates_then_appends Sample.three Sample.R3 Hcur)
    as [_ Hex].
  destruct (Hex Sample.R0 Sample.R1 Sample.R2 eq_refl eq_refl)
    as (_ & Hc & _).
  exact Hc.
Defined.

(** C2.  Starting from the history [[R0]] with cursor 0, after the [N]
    commits [R1 .. RN] and then [K <= N] undos, the current raster is
    [R(N-K)] and redo is available exactly when [K > 0].  In every state
    [canUndo] holds iff the cursor is positive and [canRedo] holds iff
    the cursor is below the last index. *)
Theorem current_after_commits_and_undos (s : AppState) (R0 : File)
    (rs : list File) (K : nat)
    (Hh : history s = [R0]) (Hi : historyIndex s = 0)
    (HK : (K ≤ length rs)%nat) :
  let s' := undos K (commits rs s) in
  currentImage s' = (R0 :: rs) !! (length rs - K)%nat
  ∧ is_Some (currentImage s')
  ∧ canRedo s' = bool_decide (0 < K)%nat
  ∧ ∀ t : AppState,
      (canUndo t = true ↔ historyIndex t > 0)
      ∧ (canRedo t = true ↔ historyIndex t < Z.of_nat (length (history t)) - 1).
Proof.
  cbn zeta.
  destruct (commits_spec rs s) as [Hch Hci]; [rewrite Hh, Hi; reflexivity|].
  rewrite Hh in Hch, Hci. cbn in Hch, Hci.
  destruct (undos_spec K (commits rs s)) as [Huh Hui]; [rewrite Hci; lia|].
  rewrite Hch in Huh. rewrite Hci in Hui.
  assert (Hcur : currentImage (undos K (commits rs s))
                 = (R0 :: rs) !! (length rs - K)%nat).
  { unfold currentImage. rewrite index_lookup by lia. rewrite Huh, Hui.
    f_equal. lia. }
  split; [exact Hcur|]. split.
  { rewrite Hcur. apply lookup_lt_is_Some. cbn. lia. }
  split.
  - unfold canRedo. rewrite Huh, Hui. cbn [length].
    destruct K as [|K].
    + rewrite bool_decide_eq_false_2 by lia. apply Z.ltb_ge. lia.
    + rewrite bool_decide_eq_true_2 by lia. apply Z.ltb_lt. lia.
  - intros t. unfold canUndo, canRedo. rewrite !Z.ltb_lt. lia.
Qed.

Lemma current_after_commits_and_undos_witness :
  currentImage
    (undos 2 (commits [Sample.R1; Sample.R2; Sample.R3]
                (startNewHistoryWithFile Sample.R0 initialState)))
  = Some Sample.R1.
Proof.
  refine (proj1 (current_after_commits_and_undos
                   (startNewHistoryWithFile Sample.R0 initialState)
                   Sample.R0 [Sample.R1; Sample.R2; Sample.R3] 2 _ _ _)).
  - reflexivity.
  - reflexivity.
  - cbn. lia.
Defined.

(** C10.  Undo and redo leave the sequence of committed rasters as it
    was; of the history stack only the cursor moves, by one when the
    guard holds, and when the guard ([canUndo], [canRedo]) is false the
    handler changes nothing at all. *)
Theorem undo_redo_keep_sequence (s : AppState) :
  (history (handleUndo s) = history s
   ∧ if canUndo s then historyIndex (handleUndo s) = historyIndex s - 1
     else handleUndo s = s)
  ∧ (history (handleRedo s) = history s
     ∧ if canRedo s then historyIndex (handleRedo s) = historyIndex s + 1
       else handleRedo s = s).
Proof.
  split; (split; [first [apply history_undo | apply history_redo]|]).
  - unfold handleUndo. destruct (canUndo s); reflexivity.
  - unfold handleRedo. destruct (canRedo s); reflexivity.
Qed.

(** ** Transient state across commits, undo and redo *)

(** Case analysis of a handler: unfold it and split on every test it
    makes and on every settlement of the calls it awaits. *)
Ltac handler_cases :=
  repeat match goal with
    | |- context [match ?x with _ => _ end] =>
        lazymatch x with
        | context [match _ with _ => _ end] => fail
        | _ => destruct x eqn:?; cbn beta iota
        end
    end.

Lemma commit_transients f s :
  keepsHotspot s (addImageToHistory f s)
  ∧ crop (addImageToHistory f s) = None
  ∧ completedCrop (addImageToHistory f s) = None
  ∧ layers (addImageToHistory f s) = []
  ∧ selectedLayerId (addImageToHistory f s) = None.
Proof. repeat split. Qed.

Lemma committed_intro f s s' :
  history s' = history (addImageToHistory f s) →
  historyIndex s' = historyIndex (addImageToHistory f s) →
  crop s' = None → completedCrop s' = None →
  layers s' = [] → selectedLayerId s' = None →
  committed s s'.
Proof. intros. exists f. repeat split; assumption. Qed.

(** The case in which the handler reached [addImageToHistory]. *)
Ltac commit_case :=
  match goal with
  | H : dataURLtoFile _ _ _ = Ok ?f |- committed _ _ =>
      apply (committed_intro f); reflexivity
  end.

Lemma generate_outcome P G now s :
  historyUntouched s (handleGenerate P G now s)
  ∨ (committed s (handleGenerate P G now s)
     ∧ hotspotCleared (handleGenerate P G now s)).
Proof.
  unfold handleGenerate, tryCatchFinally, mbind, Result_bind.
  handler_cases; try (left; split; reflexivity).
  right. split; [|split; reflexivity].
  commit_case.
Qed.

Lemma filter_outcome P G now fp s :
  keepsHotspot s (handleApplyFilter P G now fp s)
  ∧ (historyUntouched s (handleApplyFilter P G now fp s)
     ∨ committed s (handleApplyFilter P G now fp s)).
Proof.
  unfold handleApplyFilter, tryCatchFinally, mbind, Result_bind.
  handler_cases; (split; [split; reflexivity|]);
    try (left; split; reflexivity).
  right. commit_case.
Qed.

Lemma adjustment_outcome P G now ap s :
  keepsHotspot s (handleApplyAdjustment P G now ap s)
  ∧ (historyUntouched s (handleApplyAdjustment P G now ap s)
     ∨ committed s (handleApplyAdjustment P G now ap s)).
Proof.
  unfold handleApplyAdjustment, tryCatchFinally, mbind, Result_bind.
  handler_cases; (split; [split; reflexivity|]);
    try (left; split; reflexivity).
  right. commit_case.
Qed.

Lemma enhance_outcome P G now s :
  keepsHotspot s (handleAutoEnhance P G now s)
  ∧ (historyUntouched s (handleAutoEnhance P G now s)
     ∨ committed s (handleAutoEnhance P G now s)).
Proof.
  unfold handleAutoEnhance, tryCatchFinally, mbind, Result_bind.
  handler_cases; (split; [split; reflexivity|]);
    try (left; split; reflexivity).
  right. commit_case.
Qed.

Lemma upscale_outcome P G now s :
  keepsHotspot s (handleUpscale P G now s)
  ∧ (historyUntouched s (handleUpscale P G now s)
     ∨ committed s (handleUpscale P G now s)).
Proof.
  unfold handleUpscale, tryCatchFinally, mbind, Result_bind.
  handler_cases; (split; [split; reflexivity|]);
    try (left; split; reflexivity).
  right. commit_case.
Qed.

Lemma crop_outcome P imgRef now s :
  keepsHotspot s (stateOf (handleApplyCrop P imgRef now s))
  ∧ (historyUntouched s (stateOf (handleApplyCrop P imgRef now s))
     ∨ committed s (stateOf (handleApplyCrop P imgRef now s))).
Proof.
  unfold handleApplyCrop.
  handler_cases; (split; [split; reflexivity|]);
    try (left; split; reflexivity).
  right. commit_case.
Qed.

Lemma merge_outcome P now s :
  keepsHotspot s (stateOf (handleMergeLayers P now s))
  ∧ (historyUntouched s (stateOf (handleMergeLayers P now s))
     ∨ committed s (stateOf (handleMergeLayers P now s))).
Proof.
  unfold handleMergeLayers.
  handler_cases; (split; [split; reflexivity|]);
    try (left; split; reflexivity).
  right. commit_case.
Qed.

(** C3 (as the code has it).  Every commit path goes through
    [addImageToHistory], which clears the crop region, the layers and
    the layer selection and leaves both representations of the hotspot
    as they were.  Only the localized retouch ([handleGenerate]) clears
    the hotspot after its commit; filter, adjustment, auto-enhance,
    upscale, crop-apply and merge-layers keep it. *)
Theorem hotspot_across_commit_paths (P : Platform) (G : Services)
    (imgRef : option ImageElement) (now : Z) (filterPrompt adjustmentPrompt : string)
    (s : AppState) :
  (∀ f, keepsHotspot s (addImageToHistory f s)
        ∧ committed s (addImageToHistory f s))
  ∧ (historyUntouched s (handleGenerate P G now s)
     ∨ (committed s (handleGenerate P G now s)
        ∧ hotspotCleared (handleGenerate P G now s)))
  ∧ (keepsHotspot s (handleApplyFilter P G now filterPrompt s)
     ∧ (historyUntouched s (handleApplyFilter P G now filterPrompt s)
        ∨ committed s (handleApplyFilter P G now filterPrompt s)))
  ∧ (keepsHotspot s (handleApplyAdjustment P G now adjustmentPrompt s)
     ∧ (historyUntouched s (handleApplyAdjustment P G now adjustmentPrompt s)
        ∨ committed s (handleApplyAdjustment P G now adjustmentPrompt s)))
  ∧ (keepsHotspot s (handleAutoEnhance P G now s)
     ∧ (historyUntouched s (handleAutoEnhance P G now s)
        ∨ committed s (handleAutoEnhance P G now s)))
  ∧ (keepsHotspot s (handleUpscale P G now s)
     ∧ (historyUntouched s (handleUpscale P G now s)
        ∨ committed s (handleUpscale P G now s)))
  ∧ (keepsHotspot s (stateOf (handleApplyCrop P imgRef now s))
     ∧ (historyUntouched s (stateOf (handleApplyCrop P imgRef now s))
        ∨ committed s (stateOf (handleApplyCrop P imgRef now s))))
  ∧ (keepsHotspot s (stateOf (handleMergeLayers P now s))
     ∧ (historyUntouched s (stateOf (handleMergeLayers P now s))
        ∨ committed s (stateOf (handleMergeLayers P now s)))).
Proof.
  split.
  { intros f. split; [split; reflexivity|].
    apply (committed_intro f); reflexivity. }
  split; [apply generate_outcome|].
  split; [apply filter_outcome|].
  split; [apply adjustment_outcome|].
  split; [apply enhance_outcome|].
  split; [apply upscale_outcome|].
  split; [apply crop_outcome | apply merge_outcome].
Qed.

(** A filter applied while a hotspot is placed: the filtered raster is
    committed and the hotspot is still there, in both representations. *)
Lemma hotspot_survives_filter_commit :
  history Sample.filtered
  = [Sample.R0; mkFile "ZmlsdA==" "filtered-7.png" "image/png"]
  ∧ historyIndex Sample.filtered = 1
  ∧ error Sample.filtered = None
  ∧ editHotspot Sample.filtered = Some Sample.spot
  ∧ displayHotspot Sample.filtered = Some (mkPoint 60 40)
  ∧ ¬ hotspotCleared Sample.filtered.
Proof.
  repeat split; try reflexivity.
  intros [Hedit _]. discriminate Hedit.
Qed.

(** C4 (as the code has it).  Undo and redo leave the crop region (the
    selection being drawn, the completed selection) and the aspect
    constraint as they were.  When permitted they clear the hotspot, the
    layers and the layer selection.  The crop region is cleared by a
    commit and by [handleResetCrop]. *)
Theorem crop_region_across_undo_redo (s : AppState) :
  (keepsCropRegion s (handleUndo s)
   ∧ if canUndo s
     then hotspotCleared (handleUndo s) ∧ layers (handleUndo s) = []
          ∧ selectedLayerId (handleUndo s) = None
     else handleUndo s = s)
  ∧ (keepsCropRegion s (handleRedo s)
     ∧ if canRedo s
       then hotspotCleared (handleRedo s) ∧ layers (handleRedo s) = []
            ∧ selectedLayerId (handleRedo s) = None
       else handleRedo s = s)
  ∧ (crop (handleResetCrop s) = None ∧ completedCrop (handleResetCrop s) = None)
  ∧ ∀ f, crop (addImageToHistory f s) = None
         ∧ completedCrop (addImageToHistory f s) = None
         ∧ aspect (addImageToHistory f s) = aspect s.
Proof.
  unfold keepsCropRegion, hotspotCleared, handleUndo, handleRedo.
  split; [|split; [|split]].
  - destruct (canUndo s); repeat split.
  - destruct (canRedo s); repeat split.
  - split; reflexivity.
  - intros f. repeat split.
Qed.

(** With three rasters and a crop region drawn, an undo and then a redo
    are both permitted and the region is still selected after each. *)
Lemma crop_region_survives_undo_redo :
  (canUndo Sample.cropping = true
   ∧ historyIndex Sample.undone = 1
   ∧ crop Sample.undone = Some Sample.region
   ∧ completedCrop Sample.undone = Some Sample.region
   ∧ aspect Sample.undone = Some (16 # 9)%Q)
  ∧ (canRedo Sample.undone = true
     ∧ historyIndex Sample.redone = 2
     ∧ crop Sample.redone = Some Sample.region
     ∧ completedCrop Sample.redone = Some Sample.region
     ∧ aspect Sample.redone = Some (16 # 9)%Q).
Proof. repeat split. Qed.

(** ** Crop rasterisation *)

Lemma truncate_nonneg v : (0 <= v)%Q → truncate v = Qfloor v.
Proof.
  destruct v as [n d]. unfold Qle, truncate, Qfloor. cbn. intros Hn.
  apply Z.quot_div_nonneg; lia.
Qed.

(** A size within the range of the attribute is stored in whole pixels. *)
Lemma toCanvasSize_floor dflt v :
  (0 <= v)%Q → (v < inject_Z 2147483648)%Q → toCanvasSize dflt v = Qfloor v.
Proof.
  intros Hlo Hhi. unfold toCanvasSize. rewrite (truncate_nonneg v Hlo).
  assert (H0 : 0 ≤ Qfloor v).
  { change 0 with (Qfloor 0). apply Qfloor_resp_le, Hlo. }
  assert (H1 : Qfloor v < 2147483648).
  { rewrite Zlt_Qlt. eapply Qle_lt_trans; [apply Qfloor_le | exact Hhi]. }
  rewrite Z.mod_small by lia.
  destruct (Z.leb_spec (Qfloor v) 2147483647); [reflexivity | lia].
Qed.

Lemma toCanvasSize_zero dflt v : (v == 0)%Q → toCanvasSize dflt v = 0.
Proof.
  intros Hv. rewrite toCanvasSize_floor.
  - rewrite (Qfloor_comp _ _ Hv). reflexivity.
  - rewrite Hv. apply Qle_refl.
  - rewrite Hv. reflexivity.
Qed.

Lemma pixelRatioOf_pos P :
  (0 < devicePixelRatio P)%Q → pixelRatioOf P = devicePixelRatio P.
Proof.
  intros Hr. unfold pixelRatioOf.
  destruct (Qeq_bool (devicePixelRatio P) 0) eqn:E; [|reflexivity].
  apply Qeq_bool_eq in E. rewrite E in Hr. discriminate Hr.
Qed.

Lemma drawImageScaled_frame img sx sy sw sh dx dy dw dh c :
  canvasWidth (drawImageScaled img sx sy sw sh dx dy dw dh c) = canvasWidth c
  ∧ canvasHeight (drawImageScaled img sx sy sw sh dx dy dw dh c) = canvasHeight c
  ∧ ctx (drawImageScaled img sx sy sw sh dx dy dw dh c) = ctx c.
Proof.
  unfold drawImageScaled.
  destruct (finite sx), (finite sy), (finite sw), (finite sh); repeat split.
Qed.

Lemma cropCanvas_size P c image :
  canvasWidth (cropCanvas P c image)
  = toCanvasSize 300 (finiteOrZero (times (cropWidth c) (Finite (pixelRatioOf P))))
  ∧ canvasHeight (cropCanvas P c image)
    = toCanvasSize 150
        (finiteOrZero (times (cropHeight c) (Finite (pixelRatioOf P))))
  ∧ transform (ctx (cropCanvas P c image))
    = (pixelRatioOf P, 0, 0, pixelRatioOf P, 0, 0)%Q.
Proof.
  unfold cropCanvas. cbn zeta.
  match goal with
  | |- context [drawImageScaled ?i ?sx ?sy ?sw ?sh ?dx ?dy ?dw ?dh ?cv] =>
      destruct (drawImageScaled_frame i sx sy sw sh dx dy dw dh cv)
        as (Ew & Eh & Ec)
  end.
  rewrite Ew, Eh, Ec. repeat split.
Qed.

(** The size stored for a binary64 product that lies between two whole
    numbers of pixels. *)
Lemma stored_size dflt (w dpr : Q) (lo hi : Z) :
  (inject_Z lo <= w * dpr <= inject_Z hi)%Q → 0 ≤ lo → hi ≤ 2147483647 →
  ∃ W, times w (Finite dpr) = Finite W
       ∧ (inject_Z lo <= W <= inject_Z hi)%Q
       ∧ toCanvasSize dflt (finiteOrZero (times w (Finite dpr))) = Qfloor W
       ∧ lo ≤ Qfloor W ≤ hi.
Proof.
  intros Hx Hlo Hhi.
  destruct (binary64_between (w * dpr) lo hi Hx Hlo ltac:(lia))
    as (W & EW & HW1 & HW2).
  exists W. unfold times. rewrite EW. split; [reflexivity|].
  split; [split; assumption|].
  assert (H0 : (0 <= W)%Q).
  { apply (Qle_trans _ (inject_Z lo)); [|exact HW1].
    change 0%Q with (inject_Z 0). rewrite <- Zle_Qle. exact Hlo. }
  assert (Hmax : (W < inject_Z 2147483648)%Q).
  { eapply Qle_lt_trans; [exact HW2|]. rewrite <- Zlt_Qlt. lia. }
  split; [exact (toCanvasSize_floor dflt W H0 Hmax)|].
  split.
  - rewrite <- (Qfloor_Z lo). apply Qfloor_resp_le, HW1.
  - rewrite <- (Qfloor_Z hi). apply Qfloor_resp_le, HW2.
Qed.

Lemma floor_bracket (x : Q) :
  (inject_Z (Qfloor x) <= x <= inject_Z (Qfloor x + 1))%Q.
Proof.
  split; [apply Qfloor_le | apply Qlt_le_weak, Qlt_floor].
Qed.

Lemma floor_of_positive (x : Q) (n : Z) :
  (0 < x)%Q → (x <= inject_Z n)%Q → 0 ≤ Qfloor x ≤ n.
Proof.
  intros H0 Hn. split.
  - change 0 with (Qfloor 0). apply Qfloor_resp_le, Qlt_le_weak, H0.
  - rewrite <- (Qfloor_Z n). apply Qfloor_resp_le, Hn.
Qed.

(** One axis of the crop canvas. *)
Lemma crop_axis dflt (w dpr : Q) :
  (0 < w)%Q → (0 < dpr)%Q → (w * dpr <= inject_Z 2147483647)%Q →
  ∃ W, times w (Finite dpr) = Finite W
       ∧ toCanvasSize dflt (finiteOrZero (times w (Finite dpr))) = Qfloor W
       ∧ Qfloor (w * dpr) ≤ Qfloor W ≤ Qfloor (w * dpr) + 1
       ∧ ∀ n : Z, (w * dpr == inject_Z n)%Q → Qfloor W = n.
Proof.
  intros Hw Hr Hmax.
  assert (Hx : (0 < w * dpr)%Q) by (apply Qmult_lt_0_compat; assumption).
  destruct (floor_of_positive _ _ Hx Hmax) as [HN0 HN1].
  destruct (stored_size dflt w dpr (Qfloor (w * dpr)) 2147483647)
    as (W & EW & _ & ES & _); [|exact HN0|lia|].
  { split; [apply Qfloor_le | exact Hmax]. }
  exists W. split; [exact EW|]. split; [exact ES|]. split.
  - destruct (binary64_between (w * dpr) (Qfloor (w * dpr))
                (Qfloor (w * dpr) + 1) (floor_bracket _) HN0 ltac:(lia))
      as (W' & EW' & HW1 & HW2).
    unfold times in EW. rewrite EW in EW'. injection EW' as <-. split.
    + rewrite <- (Qfloor_Z (Qfloor (w * dpr))) at 1. apply Qfloor_resp_le, HW1.
    + rewrite <- (Qfloor_Z (Qfloor (w * dpr) + 1)). apply Qfloor_resp_le, HW2.
  - intros n En.
    assert (Hn : 0 ≤ n ≤ 2147483647).
    { rewrite En in Hx, Hmax. change 0%Q with (inject_Z 0) in Hx.
      rewrite <- Zlt_Qlt in Hx. rewrite <- Zle_Qle in Hmax. lia. }
    destruct (binary64_between (w * dpr) n n) as (W' & EW' & HW1 & HW2);
      [rewrite En; split; apply Qle_refl | lia | lia |].
    unfold times in EW. rewrite EW in EW'. injection EW' as <-.
    rewrite <- (Qfloor_Z n). apply Qfloor_comp, Qle_antisym; assumption.
Qed.

(** C5 (as the code has it).  For a region of positive display-space
    width [w] and height [h], the output buffer is as wide as the whole
    part of the binary64 product [w * dpr] and as high as the whole part
    of the binary64 product [h * dpr]: that is [w * dpr] by [h * dpr] in
    whole pixels when these are whole numbers, and otherwise their whole
    part, or one more where the product rounds up to the next integer.
    The display-to-natural scale of each axis (natural size / displayed
    size) is applied to the source rectangle only, which is copied onto
    the destination rectangle [(0, 0, w, h)] under the transform that
    scales by [dpr]. *)
Theorem crop_output_size (P : Platform) (c : PixelCrop) (image : ImageElement)
    (Hw : (0 < cropWidth c)%Q) (Hh : (0 < cropHeight c)%Q)
    (Hr : (0 < devicePixelRatio P)%Q)
    (Hwmax : (cropWidth c * devicePixelRatio P <= inject_Z 2147483647)%Q)
    (Hhmax : (cropHeight c * devicePixelRatio P <= inject_Z 2147483647)%Q) :
  let dpr := devicePixelRatio P in
  let scaleX := over (inject_Z (naturalWidth image)) (inject_Z (width image)) in
  let scaleY := over (inject_Z (naturalHeight image)) (inject_Z (height image)) in
  let out := cropCanvas P c image in
  (∃ W H : Q,
      times (cropWidth c) (Finite dpr) = Finite W
      ∧ times (cropHeight c) (Finite dpr) = Finite H
      ∧ canvasWidth out = Qfloor W ∧ canvasHeight out = Qfloor H)
  ∧ Qfloor (cropWidth c * dpr) ≤ canvasWidth out ≤ Qfloor (cropWidth c * dpr) + 1
  ∧ Qfloor (cropHeight c * dpr) ≤ canvasHeight out
    ≤ Qfloor (cropHeight c * dpr) + 1
  ∧ (∀ n : Z, (cropWidth c * dpr == inject_Z n)%Q → canvasWidth out = n)
  ∧ (∀ n : Z, (cropHeight c * dpr == inject_Z n)%Q → canvasHeight out = n)
  ∧ transform (ctx out) = (dpr, 0, 0, dpr, 0, 0)%Q
  ∧ ∀ sx sy sw sh : Q,
      times (cropX c) scaleX = Finite sx →
      times (cropY c) scaleY = Finite sy →
      times (cropWidth c) scaleX = Finite sw →
      times (cropHeight c) scaleY = Finite sh →
      drawn out
      = [DrawImageRect (FromElement image) sx sy sw sh
           0 0 (cropWidth c) (cropHeight c) (ctx out)].
Proof.
  cbn zeta. destruct (cropCanvas_size P c image) as (Ew & Eh & Et).
  rewrite (pixelRatioOf_pos P Hr) in Ew, Eh, Et.
  destruct (crop_axis 300 _ _ Hw Hr Hwmax) as (W & EW & SW & BW & NW).
  destruct (crop_axis 150 _ _ Hh Hr Hhmax) as (H & EH & SH & BH & NH).
  rewrite Ew, Eh, SW, SH.
  split; [exists W, H; repeat split; assumption|].
  split; [exact BW|]. split; [exact BH|]. split; [exact NW|].
  split; [exact NH|]. split; [exact Et|].
  intros sx sy sw sh Ex Ey Esw Esh.
  unfold cropCanvas. cbn zeta. rewrite Ex, Ey, Esw, Esh. reflexivity.
Qed.

Lemma crop_output_size_witness :
  canvasWidth (cropCanvas Sample.platform Sample.region Sample.element) = 100.
Proof.
  refine (proj1 (proj2 (proj2 (proj2
            (crop_output_size Sample.platform Sample.region Sample.element
               _ _ _ _ _)))) 100 _);
    first [reflexivity | discriminate].
Defined.

(** A 1000x500 raster displayed at 500x250 with the display-space region
    (100, 50, 100, 50) and a device pixel ratio of 1: the source
    rectangle is (200, 100, 200, 100) in natural pixels, and the output
    buffer is 100x50, not 200x100. *)
Lemma crop_output_is_display_sized :
  drawn (cropCanvas Sample.platform Sample.region Sample.element)
  = [DrawImageRect (FromElement Sample.element) 200 100 200 100 0 0 100 50
       (mkCtx2D 1 (mkCssFont 10 "sans-serif") "#000000" "alphabetic"
          (1, 0, 0, 1, 0, 0)%Q "high")]
  ∧ canvasWidth (cropCanvas Sample.platform Sample.region Sample.element) = 100
  ∧ canvasHeight (cropCanvas Sample.platform Sample.region Sample.element) = 50
  ∧ ¬ (inject_Z (canvasWidth (cropCanvas Sample.platform Sample.region Sample.element))
       == (cropWidth Sample.region
           * (inject_Z (naturalWidth Sample.element) / inject_Z (width Sample.element)))
          * devicePixelRatio Sample.platform)%Q
  ∧ ¬ (inject_Z (canvasHeight (cropCanvas Sample.platform Sample.region Sample.element))
       == (cropHeight Sample.region
           * (inject_Z (naturalHeight Sample.element) / inject_Z (height Sample.element)))
          * devicePixelRatio Sample.platform)%Q.
Proof.
  split; [vm_compute; reflexivity|].
  split; [vm_compute; reflexivity|]. split; [vm_compute; reflexivity|].
  split; intros H; vm_compute in H; discriminate H.
Qed.

(** The product is rounded before it is truncated: a region
    1.3333333333333333 wide at a device pixel ratio of 3 gets a buffer 4
    pixels wide, where the exact product has the whole part 3. *)
Remark crop_width_rounds_up :
  canvasWidth
    (cropCanvas
       (mkPlatform (atob Sample.platform) 3 true (decodeImage Sample.platform)
          (encodePng Sample.platform) (fontParses Sample.platform)
          (colorParses Sample.platform))
       (mkCrop 0 0 (6004799503160661 # 4503599627370496) 10 UnitPx)
       Sample.element) = 4
  ∧ Qfloor ((6004799503160661 # 4503599627370496) * 3) = 3.
Proof. split; vm_compute; reflexivity. Qed.

(** ** Crop attempts that cannot produce a raster *)

(** The data URL of a canvas without pixels is not accepted. *)
Lemma empty_data_url_rejected P filename :
  dataURLtoFile P "data:," filename
  = Throw (ErrorObj "Could not parse MIME type from data URL").
Proof. reflexivity. Qed.

Lemma toDataURL_empty P c :
  canvasWidth c = 0 ∨ canvasHeight c = 0 → toDataURL P c = "data:,".
Proof.
  intros [E|E]; unfold toDataURL; rewrite E; cbn; [reflexivity|].
  rewrite orb_true_r. reflexivity.
Qed.

Lemma times_zero (w : Q) (v : Q) :
  (w == 0)%Q → finiteOrZero (times w (Finite v)) = 0%Q.
Proof.
  intros E. unfold times. rewrite binary64_zero; [reflexivity|].
  rewrite E. ring.
Qed.

Lemma cropCanvas_empty P c image :
  (cropWidth c == 0 ∨ cropHeight c == 0)%Q →
  canvasWidth (cropCanvas P c image) = 0
  ∨ canvasHeight (cropCanvas P c image) = 0.
Proof.
  destruct (cropCanvas_size P c image) as (Ew & Eh & _). rewrite Ew, Eh.
  intros [E|E]; [left|right]; rewrite (times_zero _ _ E); reflexivity.
Qed.

(** What [handleApplyCrop] does when there is nothing to crop, and what
    the crop panel lets through.  Without a completed region or without
    an image element the handler sets the error message "Please select an
    area to crop." and commits nothing.  The handler does not examine the
    size of the region: the crop panel keeps "Apply Crop" disabled for a
    completed region whose width is not positive, and for a region of
    zero width or zero height nothing is committed, the history and the
    cursor being left as they were. *)
Lemma crop_attempt_without_region (P : Platform)
    (imgRef : option ImageElement) (now : Z) (s : AppState) :
  (completedCrop s = None ∨ imgRef = None →
   handleApplyCrop P imgRef now s
   = Returned (setError (Some "Please select an area to crop.") s))
  ∧ (∀ c, completedCrop s = Some c → (cropWidth c <= 0)%Q →
          isApplyCropEnabled s = false)
  ∧ (completedCrop s = None → isApplyCropEnabled s = false)
  ∧ (∀ c, completedCrop s = Some c →
          (cropWidth c == 0 ∨ cropHeight c == 0)%Q →
          historyUntouched s (stateOf (handleApplyCrop P imgRef now s))).
Proof.
  split; [|split; [|split]].
  - unfold handleApplyCrop. intros [E|E]; rewrite E; [reflexivity|].
    destruct (completedCrop s); reflexivity.
  - intros c Ec Hw. unfold isApplyCropEnabled, Qlt_bool. rewrite Ec.
    apply (proj2 (Qle_bool_iff _ _)) in Hw. rewrite Hw.
    apply andb_false_r.
  - intros Ec. unfold isApplyCropEnabled. rewrite Ec. reflexivity.
  - intros c Ec Hz. unfold handleApplyCrop. rewrite Ec.
    destruct imgRef as [image|]; [|split; reflexivity].
    destruct (hasContext2d P); cbn [negb]; [|split; reflexivity].
    rewrite (toDataURL_empty P _ (cropCanvas_empty P c image Hz)).
    rewrite empty_data_url_rejected. split; reflexivity.
Qed.

(** A crop attempt whose region has a positive width and no height never
    gets an error message: whatever the state, the platform and the
    image, "Apply Crop" is enabled, and with an image mounted and a
    drawing context the exception of [dataURLtoFile] leaves the handler
    with the state, its error message included, as it was. *)
Lemma flat_region_escapes (P : Platform) (image : ImageElement) (now : Z)
    (s : AppState) (c : PixelCrop) :
  completedCrop s = Some c → (0 < cropWidth c)%Q → (cropHeight c == 0)%Q →
  hasContext2d P = true →
  isApplyCropEnabled s = true
  ∧ handleApplyCrop P (Some image) now s
    = Uncaught (ErrorObj "Could not parse MIME type from data URL") s.
Proof.
  intros Ec Hw Hh Hctx. split.
  - unfold isApplyCropEnabled, Qlt_bool. rewrite Ec.
    destruct (Qeq_bool (cropWidth c) 0) eqn:E0.
    { apply Qeq_bool_eq in E0. rewrite E0 in Hw. discriminate Hw. }
    destruct (Qle_bool (cropWidth c) 0) eqn:E1; [|reflexivity].
    apply Qle_bool_iff in E1. lra.
  - unfold handleApplyCrop. rewrite Ec, Hctx. cbn [negb].
    rewrite (toDataURL_empty P _ (cropCanvas_empty P c image (or_intror Hh))).
    rewrite empty_data_url_rejected. reflexivity.
Qed.

(** C6, at a region 40 wide and 0 high, as a purely horizontal drag
    leaves it.  The crop panel enables "Apply Crop", since it looks at
    the width only; the handler passes its guard, the empty canvas
    serialises to ["data:,"] and the exception of [dataURLtoFile] leaves
    the handler: nothing is committed, and no error message is set,
    whereas the attempt without a region, through the same handler, sets
    "Please select an area to crop.". *)
Theorem flat_region_raises_no_error :
  cropWidth Sample.flatRegion = 40%Q
  ∧ cropHeight Sample.flatRegion = 0%Q
  ∧ isApplyCropEnabled Sample.flat = true
  ∧ handleApplyCrop Sample.platform (Some Sample.element) 9 Sample.flat
    = Uncaught (ErrorObj "Could not parse MIME type from data URL") Sample.flat
  ∧ error Sample.flat = None
  ∧ historyUntouched Sample.flat
      (stateOf (handleApplyCrop Sample.platform (Some Sample.element) 9
                  Sample.flat))
  ∧ error (stateOf (handleApplyCrop Sample.platform (Some Sample.element) 9
                      (setCompletedCrop None Sample.flat)))
    = Some "Please select an area to crop.".
Proof.
  split; [reflexivity|]. split; [reflexivity|]. split; [reflexivity|].
  split; [vm_compute; reflexivity|]. split; [reflexivity|].
  split; [split; vm_compute; reflexivity | reflexivity].
Qed.

(** A region of negative width: the canvas falls back to its default
    width of 300 and a raster is committed. *)
Remark inverted_region_is_committed :
  canvasWidth (cropCanvas Sample.platform (mkCrop 10 10 (-5) 20 UnitPx)
                 Sample.element) = 300
  ∧ stateOf (handleApplyCrop Sample.platform (Some Sample.element) 9
               Sample.inverted)
    = addImageToHistory (mkFile "iVBORw0KGgo=" "cropped-9.png" "image/png")
        Sample.inverted.
Proof. split; vm_compute; reflexivity. Qed.

(** ** Flattening *)

Lemma paintLayer_invisible P canvas L :
  TextLayer.visible L = false → paintLayer P canvas L = canvas.
Proof. intros E. unfold paintLayer. rewrite E. reflexivity. Qed.

(** An invisible layer leaves the whole painting pass as it is without
    it: the canvas, its context state and every later drawing call. *)
Lemma paint_skips_invisible P canvas l1 L l2 :
  TextLayer.visible L = false →
  foldl (paintLayer P) canvas (reverse (l1 ++ L :: l2))
  = foldl (paintLayer P) canvas (reverse (l1 ++ l2)).
Proof.
  intros E.
  rewrite !reverse_app, reverse_cons, !foldl_app. cbn [foldl].
  rewrite (paintLayer_invisible P _ L E). reflexivity.
Qed.

Lemma merge_download_same_canvas P image ls :
  mergeCanvas P image ls = downloadCanvas P image ls.
Proof. reflexivity. Qed.

(** Hiding a layer from the layer panel makes it invisible. *)
Lemma toggled_off l :
  TextLayer.visible
    (spread l (mkPartial None None None None None None None
                 (Some (negb true)))) = false.
Proof. reflexivity. Qed.

(** C7.  With a layer [L] whose [visible] flag is false anywhere in the
    layer list, flattening gives exactly what it gives with [L] removed
    from the list: [L] issues no drawing call and touches no context
    state.  This holds for the canvas merged into the history and for the
    canvas exported by the download, which are the same canvas. *)
Theorem flatten_skips_invisible (P : Platform) (image : LoadedImage)
    (l1 l2 : list TextLayer.t) (L : TextLayer.t)
    (Hhidden : TextLayer.visible L = false) :
  mergeCanvas P image (l1 ++ L :: l2) = mergeCanvas P image (l1 ++ l2)
  ∧ downloadCanvas P image (l1 ++ L :: l2) = downloadCanvas P image (l1 ++ l2)
  ∧ mergeCanvas P image (l1 ++ L :: l2) = downloadCanvas P image (l1 ++ L :: l2)
  ∧ ∀ (now : Z) (s : AppState),
      handleDownload P (setLayers (l1 ++ L :: l2) s)
      = handleDownload P (setLayers (l1 ++ l2) s)
      ∧ history (stateOf (handleMergeLayers P now (setLayers (l1 ++ L :: l2) s)))
        = history (stateOf (handleMergeLayers P now (setLayers (l1 ++ l2) s))).
Proof.
  assert (Hm : mergeCanvas P image (l1 ++ L :: l2)
               = mergeCanvas P image (l1 ++ l2)).
  { unfold mergeCanvas. apply paint_skips_invisible, Hhidden. }
  assert (Hd : ∀ img, downloadCanvas P img (l1 ++ L :: l2)
                      = downloadCanvas P img (l1 ++ l2)).
  { intros img. unfold downloadCanvas. apply paint_skips_invisible, Hhidden. }
  split; [exact Hm|]. split; [apply Hd|]. split; [reflexivity|].
  intros now s. split.
  - unfold handleDownload.
    change (currentImageUrl (setLayers (l1 ++ L :: l2) s))
      with (currentImageUrl (setLayers (l1 ++ l2) s)).
    destruct (loadImage P _) as [img|]; [|reflexivity].
    destruct (hasContext2d P); cbn [negb]; [|reflexivity].
    cbn [layers setLayers]. rewrite Hd. reflexivity.
  - unfold handleMergeLayers.
    change (currentImageUrl (setLayers (l1 ++ L :: l2) s))
      with (currentImageUrl (setLayers (l1 ++ l2) s)).
    destruct (currentImageUrl _); [|reflexivity].
    destruct (loadImage P _) as [img|]; [|reflexivity].
    destruct (hasContext2d P); cbn [negb]; [|reflexivity].
    cbn [layers setLayers].
    rewrite !merge_download_same_canvas, Hd.
    destruct (dataURLtoFile P _ _); reflexivity.
Qed.

Lemma flatten_skips_invisible_witness :
  mergeCanvas Sample.platform Sample.bitmap
    (take 1 (layers Sample.twoLayers) ++ Sample.hiddenLayer
       :: drop 1 (layers Sample.twoLayers))
  = mergeCanvas Sample.platform Sample.bitmap
      (take 1 (layers Sample.twoLayers) ++ drop 1 (layers Sample.twoLayers)).
Proof.
  apply (flatten_skips_invisible Sample.platform Sample.bitmap
           (take 1 (layers Sample.twoLayers))
           (drop 1 (layers Sample.twoLayers)) Sample.hiddenLayer).
  reflexivity.
Defined.

(** ** Failing collaborator calls *)

Lemma failedEdit_catch what s0 s e :
  history s = history s0 → historyIndex s = historyIndex s0 →
  layers s = layers s0 →
  failedEdit s0 (tryCatchFinally what s (Throw e)).
Proof.
  intros Hh Hi Hl. unfold failedEdit, historyUntouched, currentImage.
  cbn. rewrite Hh, Hi, Hl. repeat split. eexists. reflexivity.
Qed.

(** C8.  When the collaborator call of a content edit (retouch, filter,
    adjustment, auto-enhance, upscale) fails, the history sequence and
    the cursor are untouched, so the current raster is unchanged; the
    error message is set and the busy flag is cleared. *)
Theorem failed_edit_keeps_history (P : Platform) (G : Services) (now : Z)
    (s : AppState) (image : File) (e : JsThrown)
    (Himage : currentImage s = Some image) :
  (∀ hotspot,
      truthy (trim (prompt s)) = true → editHotspot s = Some hotspot →
      generateEditedImage G image (prompt s) hotspot = Throw e →
      failedEdit s (handleGenerate P G now s)
      ∧ error (handleGenerate P G now s)
        = Some ("Failed to generate the image. " +:+ errorMessage e))
  ∧ (∀ filterPrompt,
        generateFilteredImage G image filterPrompt = Throw e →
        failedEdit s (handleApplyFilter P G now filterPrompt s)
        ∧ error (handleApplyFilter P G now filterPrompt s)
          = Some ("Failed to apply the filter. " +:+ errorMessage e))
  ∧ (∀ adjustmentPrompt,
        generateAdjustedImage G image adjustmentPrompt = Throw e →
        failedEdit s (handleApplyAdjustment P G now adjustmentPrompt s)
        ∧ error (handleApplyAdjustment P G now adjustmentPrompt s)
          = Some ("Failed to apply the adjustment. " +:+ errorMessage e))
  ∧ (generateAutoEnhancedImage G image = Throw e →
     failedEdit s (handleAutoEnhance P G now s)
     ∧ error (handleAutoEnhance P G now s)
       = Some ("Failed to auto-enhance the image. " +:+ errorMessage e))
  ∧ (generateUpscaledImage G image = Throw e →
     failedEdit s (handleUpscale P G now s)
     ∧ error (handleUpscale P G now s)
       = Some ("Failed to upscale the image. " +:+ errorMessage e)).
Proof.
  split; [|split; [|split; [|split]]].
  - intros hotspot Hp Hs Hfail. unfold handleGenerate.
    rewrite Himage, Hp, Hs. cbn [negb prompt setError setIsLoading].
    rewrite Hfail. split; [apply failedEdit_catch|]; reflexivity.
  - intros fp Hfail. unfold handleApplyFilter. rewrite Himage, Hfail.
    split; [apply failedEdit_catch|]; reflexivity.
  - intros ap Hfail. unfold handleApplyAdjustment. rewrite Himage, Hfail.
    split; [apply failedEdit_catch|]; reflexivity.
  - intros Hfail. unfold handleAutoEnhance. rewrite Himage, Hfail.
    split; [apply failedEdit_catch|]; reflexivity.
  - intros Hfail. unfold handleUpscale. rewrite Himage, Hfail.
    split; [apply failedEdit_catch|]; reflexivity.
Qed.

Lemma failed_edit_keeps_history_witness :
  failedEdit Sample.marked
    (handleGenerate Sample.platform Sample.rejecting 5 Sample.marked)
  ∧ failedEdit Sample.marked
      (handleApplyFilter Sample.platform Sample.rejecting 5 "vintage"
         Sample.marked).
Proof.
  pose proof (failed_edit_keeps_history Sample.platform Sample.rejecting 5
                Sample.marked Sample.R0 (ErrorObj "quota exceeded") eq_refl)
    as (Hgen & Hfil & _).
  split.
  - exact (proj1 (Hgen Sample.spot eq_refl eq_refl eq_refl)).
  - exact (proj1 (Hfil "vintage" eq_refl)).
Defined.

(** The same holds when the call resolves to something that is not a
    usable data URL: the exception of [dataURLtoFile] is caught by the
    same clause. *)
Lemma unusable_result_keeps_history P G now fp s image url e :
  currentImage s = Some image →
  generateFilteredImage G image fp = Ok url →
  dataURLtoFile P url ("filtered-" +:+ showZ now +:+ ".png") = Throw e →
  failedEdit s (handleApplyFilter P G now fp s).
Proof.
  intros Himage Hok Hbad. unfold handleApplyFilter.
  rewrite Himage, Hok. cbn [mbind Result_bind]. rewrite Hbad.
  apply failedEdit_catch; reflexivity.
Qed.

(** ** Text layers *)

(** A new text layer goes to the end of the sequence with the default
    attributes and becomes the selected layer; being last among the
    rendered elements it is stacked above all the others on screen. *)
Lemma add_text_layer_appends_selected now s :
  let s' := handleAddTextLayer now s in
  layers s' = (layers s ++ [newTextLayer now])%list
  ∧ selectedLayerId s' = Some (TextLayer.id (newTextLayer now))
  ∧ last (renderedLayers s') = Some (newTextLayer now)
  ∧ TextLayer.content (newTextLayer now) = "Your Text Here"
  ∧ TextLayer.opacity (newTextLayer now) = 1%Q
  ∧ TextLayer.visible (newTextLayer now) = true.
Proof.
  cbn zeta. repeat split.
  unfold renderedLayers. cbn [layers handleAddTextLayer setActiveTab
    setSelectedLayerId setLayers].
  rewrite filter_app. apply last_snoc.
Qed.

(** Removing the selected layer leaves no layer selected. *)
Lemma remove_selected_clears_selection id s :
  selectedLayerId s = Some id →
  selectedLayerId (handleRemoveLayer id s) = None
  ∧ layers (handleRemoveLayer id s)
    = filter (fun l => TextLayer.id l ≠ id) (layers s).
Proof.
  intros Hsel. unfold handleRemoveLayer.
  destruct (decide (selectedLayerId s = Some id)); [|contradiction].
  split; reflexivity.
Qed.

(** Flattening paints the newly added layer first, straight onto the
    raster, and every older layer after it. *)
Lemma flatten_paints_new_layer_first P image now s :
  mergeCanvas P image (layers (handleAddTextLayer now s))
  = foldl (paintLayer P) (paintLayer P (rasterCanvas image) (newTextLayer now))
      (reverse (layers s)).
Proof.
  unfold mergeCanvas. cbn [layers handleAddTextLayer setActiveTab
    setSelectedLayerId setLayers].
  rewrite reverse_snoc. reflexivity.
Qed.

(** C9, at two layers added in turn, the second carrying the text
    "Top".  The second layer is last in the sequence, selected, and last
    among the rendered elements, hence above the first on screen; the
    flattened image paints "Top" first and the text of the first layer
    over it, in the merge and in the download alike. *)
Theorem new_layer_flattened_beneath_older :
  TextLayer.id <$> layers Sample.twoLayers = ["layer_1"; "layer_2"]
  ∧ selectedLayerId Sample.twoLayers = Some "layer_2"
  ∧ TextLayer.content <$> renderedLayers Sample.twoLayers
    = ["Your Text Here"; "Top"]
  ∧ paintedTexts (mergeCanvas Sample.platform Sample.bitmap
                    (layers Sample.twoLayers))
    = ["Top"; "Your Text Here"]
  ∧ paintedTexts (downloadCanvas Sample.platform Sample.bitmap
                    (layers Sample.twoLayers))
    = ["Top"; "Your Text Here"].
Proof. repeat split. Qed.

(** * Further properties *)

(** ** The shape of the history stack in every reachable session *)

Ltac core :=
  cbn [mode history historyIndex setMode setHistory setHistoryIndex setPrompt
       setIsLoading setError setEditHotspot setDisplayHotspot setActiveTab
       setCrop setCompletedCrop setAspect setLayers setSelectedLayerId
       setCurrentImageUrl currentImageEffect
       addImageToHistory addImageToHistoryOf startNewHistoryWithFile
       handleImageUpload handleUploadNew handleResetCrop stateOf fst snd] in *.

Lemma wellFormed_append m (l : list File) f :
  wellFormed m (l ++ [f]) (Z.of_nat (length (l ++ [f])) - 1).
Proof.
  unfold wellFormed. rewrite !length_app. cbn [length].
  split; [lia|]. split; [lia|].
  intros _ E. apply app_eq_nil in E. destruct E as [_ E]. discriminate E.
Qed.

Lemma wellFormed_single m f : wellFormed m [f] 0.
Proof. split; [cbn; lia|]. split; [lia | discriminate]. Qed.

Lemma wellFormed_empty m : m ≠ ModeEdit → wellFormed m [] (-1).
Proof. intros Hm. split; [cbn; lia|]. split; [congruence | intros E; congruence]. Qed.

Lemma wellFormed_leave m h i m' :
  m' ≠ ModeEdit → wellFormed m h i → wellFormed m' h i.
Proof. intros Hm (Hi & Hn & _). repeat split; try tauto; try lia. Qed.


(** How each case of a handler is closed. *)
Ltac invariant_case :=
  core;
  first
    [ assumption
    | apply wellFormed_append
    | apply wellFormed_single
    | apply wellFormed_empty; discriminate
    | eapply wellFormed_leave; [discriminate | eassumption] ].





Lemma invariant_generate_image P G now prompt aspectRatio images s :
  sessionInvariant s →
  sessionInvariant (handleGenerateImage P G now prompt aspectRatio images s).
Proof.
  unfold sessionInvariant, handleGenerateImage, mbind, Result_bind. intros H.
  handler_cases; invariant_case.
Qed.

Lemma invariant_content_edits P G now txt s :
  sessionInvariant s →
  sessionInvariant (handleGenerate P G now s)
  ∧ sessionInvariant (handleApplyFilter P G now txt s)
  ∧ sessionInvariant (handleApplyAdjustment P G now txt s)
  ∧ sessionInvariant (handleAutoEnhance P G now s)
  ∧ sessionInvariant (handleUpscale P G now s).
Proof.
  unfold sessionInvariant, handleGenerate, handleApplyFilter,
    handleApplyAdjustment, handleAutoEnhance, handleUpscale, tryCatchFinally,
    mbind, Result_bind.
  intros H. split; [|split; [|split; [|split]]]; handler_cases; invariant_case.
Qed.









(** The invariant of a given state, by evaluation. *)
Ltac closed_invariant :=
  unfold sessionInvariant, wellFormed; vm_compute;
  repeat split; try (intros; discriminate); try reflexivity.








(** Right after an upload the render has mode [edit] and no URL yet: it
    takes the fallback, and the effect that follows brings the editor. *)
Remark upload_renders_fallback_first :
  renderContent (handleImageUpload Sample.R0 initialState) = FallbackStartScreen
  ∧ renderContent (currentImageEffect (handleImageUpload Sample.R0 initialState))
    = EditorScreen.
Proof. split; reflexivity. Qed.

(** ** Undo, redo and reset as moves of the cursor *)

Lemma current_depends_on_stack s s' :
  history s' = history s → historyIndex s' = historyIndex s →
  currentImage s' = currentImage s.
Proof. intros Hh Hi. unfold currentImage. rewrite Hh, Hi. reflexivity. Qed.

(** X2.  On a well-formed history stack, an undo followed by a redo, and
    a redo followed by an undo, bring back the same sequence, the same
    cursor and the same current raster (the transient selections are
    gone). *)
Theorem undo_redo_round_trip (s : AppState) (Hinv : sessionInvariant s) :
  (canUndo s = true → sameStack s (handleRedo (handleUndo s)))
  ∧ (canRedo s = true → sameStack s (handleUndo (handleRedo s))).
Proof.
  destruct Hinv as (Hi & Hn & _). unfold sameStack. split; intros Hc.
  - assert (Hh : history (handleRedo (handleUndo s)) = history s).
    { rewrite history_redo, history_undo. reflexivity. }
    assert (Hk : historyIndex (handleRedo (handleUndo s)) = historyIndex s).
    { rewrite cursor_redo. unfold canRedo. rewrite history_undo, cursor_undo, Hc.
      destruct (Z.ltb_spec (historyIndex s - 1)
                  (Z.of_nat (length (history s)) - 1)); lia. }
    split; [exact Hh|]. split; [exact Hk|].
    apply current_depends_on_stack; assumption.
  - assert (Hlt : historyIndex s < Z.of_nat (length (history s)) - 1).
    { unfold canRedo in Hc. apply Z.ltb_lt, Hc. }
    assert (H0 : 0 ≤ historyIndex s).
    { apply Hn. intros E. rewrite E in Hlt. cbn in Hlt. lia. }
    assert (Hh : history (handleUndo (handleRedo s)) = history s).
    { rewrite history_undo, history_redo. reflexivity. }
    assert (Hk : historyIndex (handleUndo (handleRedo s)) = historyIndex s).
    { rewrite cursor_undo. unfold canUndo. rewrite cursor_redo, Hc.
      destruct (Z.ltb_spec 0 (historyIndex s + 1)); lia. }
    split; [exact Hh|]. split; [exact Hk|].
    apply current_depends_on_stack; assumption.
Qed.

Lemma undo_redo_round_trip_witness :
  sameStack Sample.three (handleRedo (handleUndo Sample.three)).
Proof.
  refine (proj1 (undo_redo_round_trip Sample.three _) eq_refl).
  closed_invariant.
Defined.

(** [k] redos move the cursor up by [k] as long as it stays on an
    entry, and never touch the sequence. *)
Lemma redos_spec k : ∀ s,
  historyIndex s + Z.of_nat k < Z.of_nat (length (history s)) →
  history (redos k s) = history s
  ∧ historyIndex (redos k s) = historyIndex s + Z.of_nat k.
Proof.
  induction k as [|k IH]; intros s Hk.
  - cbn. split; [done | lia].
  - destruct (IH s) as [Hh Hi]; [lia|].
    change (redos (S k) s) with (handleRedo (redos k s)).
    rewrite history_redo, cursor_redo, Hh. unfold canRedo. rewrite Hh, Hi.
    destruct (Z.ltb_spec (historyIndex s + Z.of_nat k)
                (Z.of_nat (length (history s)) - 1)); [|lia].
    split; [done | lia].
Qed.

(** X3.  "Reset" never shortens the sequence: on a history that is not
    empty it only moves the cursor to 0, so the current raster becomes
    the original one, redo is available exactly when there is more than
    one entry, and [k] redos after the reset make entry [k] current. *)
Theorem reset_keeps_every_entry (s : AppState) (k : nat)
    (Hne : history s ≠ []) (Hk : (k < length (history s))%nat) :
  history (handleReset s) = history s
  ∧ historyIndex (handleReset s) = 0
  ∧ currentImage (handleReset s) = originalImage s
  ∧ canRedo (handleReset s) = bool_decide (1 < length (history s))%nat
  ∧ currentImage (redos k (handleReset s)) = history s !! k.
Proof.
  assert (Hlen : (0 <? length (history s))%nat = true).
  { apply Nat.ltb_lt. lia. }
  assert (Hh : history (handleReset s) = history s).
  { unfold handleReset. rewrite Hlen. reflexivity. }
  assert (Hi : historyIndex (handleReset s) = 0).
  { unfold handleReset. rewrite Hlen. reflexivity. }
  split; [exact Hh|]. split; [exact Hi|]. split.
  { unfold currentImage, originalImage. rewrite Hh, Hi. reflexivity. }
  split.
  { unfold canRedo. rewrite Hh, Hi.
    destruct (Z.ltb_spec 0 (Z.of_nat (length (history s)) - 1)).
    - rewrite bool_decide_eq_true_2 by lia. reflexivity.
    - rewrite bool_decide_eq_false_2 by lia. reflexivity. }
  destruct (redos_spec k (handleReset s)) as [Hrh Hri].
  { rewrite Hh, Hi. lia. }
  unfold currentImage. rewrite Hrh, Hri, Hh, Hi.
  rewrite index_lookup by lia. f_equal. lia.
Qed.

Lemma reset_keeps_every_entry_witness :
  currentImage (redos 2 (handleReset Sample.three)) = Some Sample.R2.
Proof.
  refine (proj2 (proj2 (proj2 (proj2
            (reset_keeps_every_entry Sample.three 2 _ _))))).
  - discriminate.
  - vm_compute. lia.
Defined.

(** ** The original raster *)








(** Without that proviso the original raster can change: a filter is
    requested on [R0], the user starts over and uploads [B0] before the
    call settles, and the late commit, computed from the history of the
    render in which the filter was requested, puts [R0] and its filtered
    version in place of [B0]. *)
Remark late_commit_replaces_session :
  (w ← run Scenario.overtaken firstRender;
   Some (history (app w), historyIndex (app w), mode (app w)))
  = Some ([Sample.R0; mkFile "ZmlsdA==" "filtered-7.png" "image/png"], 1,
          ModeEdit).
Proof. vm_compute. reflexivity. Qed.

(** ** Handlers that await a call *)





(** ** Data URLs *)

Lemma append_cons x (a b : string) : String x a +:+ b = String x (a +:+ b).
Proof. reflexivity. Qed.

Lemma append_empty (b : string) : "" +:+ b = b.
Proof. reflexivity. Qed.

Lemma append_assoc_string (a b c : string) :
  (a +:+ b) +:+ c = a +:+ (b +:+ c).
Proof.
  induction a as [|x a IH]; [reflexivity|].
  rewrite !append_cons, IH. reflexivity.
Qed.

Lemma occurs_app c (a b : string) :
  occurs c (a +:+ b) = occurs c a || occurs c b.
Proof.
  induction a as [|x a IH]; [reflexivity|].
  rewrite append_cons. cbn [occurs]. rewrite IH, orb_assoc. reflexivity.
Qed.

Lemma split_without_separator sep s :
  occurs sep s = false → split sep s = [s].
Proof.
  induction s as [|x s IH]; cbn [occurs split]; [reflexivity|].
  intros H. apply orb_false_iff in H as [Hx Hs].
  rewrite Hx, (IH Hs). reflexivity.
Qed.

Lemma split_at_separator sep (a b : string) :
  occurs sep a = false →
  split sep (a +:+ String sep b) = a :: split sep b.
Proof.
  induction a as [|x a IH].
  - intros _. rewrite append_empty. cbn [split].
    rewrite Ascii.eqb_refl. reflexivity.
  - cbn [occurs]. intros H. apply orb_false_iff in H as [Hx Ha].
    rewrite append_cons. cbn [split]. rewrite Hx, (IH Ha). reflexivity.
Qed.

Lemma split_not_empty sep s : split sep s ≠ [].
Proof.
  destruct s as [|x s]; cbn [split]; [discriminate|].
  destruct (Ascii.eqb x sep); [discriminate|].
  destruct (split sep s); discriminate.
Qed.

Lemma split_length_separator sep s :
  occurs sep s = true → (2 ≤ length (split sep s))%nat.
Proof.
  induction s as [|x s IH]; cbn [occurs split]; [discriminate|].
  destruct (Ascii.eqb x sep); cbn [orb].
  - intros _. pose proof (split_not_empty sep s) as Hne.
    destruct (split sep s); [contradiction | cbn; lia].
  - intros H. specialize (IH H).
    destruct (split sep s) as [|w ws]; cbn in *; lia.
Qed.

(** A printable character is matched by the dot of the regular
    expression. *)
Lemma printable_in_dot x r :
  isPrintable x = true →
  isLineTerminator x || startsWithSeparator (String x r) = false.
Proof.
  intros H. destruct r as [|b [|c r]];
    destruct x as [[] [] [] [] [] [] [] []]; try discriminate H; reflexivity.
Qed.

Lemma lazyUpToSemicolon_capture (m r : string) :
  occurs ";"%char m = false → allPrintable m = true →
  lazyUpToSemicolon (m +:+ String ";"%char r) = Some m.
Proof.
  induction m as [|x m IH].
  - intros _ _. reflexivity.
  - cbn [occurs allPrintable]. intros H1 H2.
    apply orb_false_iff in H1 as [Hx1 Hm1].
    apply andb_true_iff in H2 as [Hx2 Hm2].
    rewrite append_cons. cbn [lazyUpToSemicolon].
    rewrite Hx1, (printable_in_dot x _ Hx2), (IH Hm1 Hm2). reflexivity.
Qed.

(** The parser shared by [dataURLtoFile] and [fileToPart] recovers the
    MIME type and the payload of a base-64 data URL. *)
Lemma base64Url_fields mime payload :
  plainMime mime → occurs ","%char payload = false →
  split ","%char (base64Url mime payload) = ["data:" +:+ mime +:+ ";base64"; payload]
  ∧ matchMime ("data:" +:+ mime +:+ ";base64") = Some mime.
Proof.
  intros (_ & Hp & Hc & Hs) Hpayload. split.
  - unfold base64Url.
    change (";base64," +:+ payload) with (";base64" +:+ String ","%char payload).
    rewrite <- !append_assoc_string.
    rewrite split_at_separator.
    + rewrite (split_without_separator _ _ Hpayload), !append_assoc_string.
      reflexivity.
    + rewrite !occurs_app, Hc. reflexivity.
  - rewrite !append_cons, append_empty.
    cbn [matchMime Ascii.eqb Bool.eqb].
    change (mime +:+ ";base64") with (mime +:+ String ";"%char "base64").
    rewrite (lazyUpToSemicolon_capture mime "base64" Hs Hp). reflexivity.
Qed.

Lemma parsers_on_base64Url (P : Platform) (mime payload filename : string) :
  plainMime mime → occurs ","%char payload = false →
  fileToPart (base64Url mime payload)
  = Ok (mkInlineData (Some mime) (Some payload))
  ∧ dataURLtoFile P (base64Url mime payload) filename
    = match atob P payload with
      | Ok bits => Ok (mkFile bits filename (lowerCase mime))
      | Throw e => Throw e
      end.
Proof.
  intros Hmime Hpayload.
  destruct (base64Url_fields mime payload Hmime Hpayload) as [Hsplit Hmatch].
  destruct Hmime as (Ht & Hp & _).
  unfold fileToPart, dataURLtoFile, newFile, normalizedType. rewrite Hsplit.
  change (["data:" +:+ mime +:+ ";base64"; payload] !! 0%nat)
    with (Some ("data:" +:+ mime +:+ ";base64")).
  change (["data:" +:+ mime +:+ ";base64"; payload] !! 1%nat)
    with (Some payload).
  cbn [length Nat.ltb Nat.leb default from_option id].
  rewrite Hmatch, Ht, Hp. cbn [negb]. split; reflexivity.
Qed.

(** Lower case, character by character. *)
Lemma toLowerCase_facts c :
  toLowerCase (toLowerCase c) = toLowerCase c
  ∧ (isPrintable c = true → isPrintable (toLowerCase c) = true)
  ∧ Ascii.eqb (toLowerCase c) ","%char = Ascii.eqb c ","%char
  ∧ Ascii.eqb (toLowerCase c) ";"%char = Ascii.eqb c ";"%char.
Proof.
  destruct c as [[] [] [] [] [] [] [] []];
    (split; [reflexivity|]); (split; [intros H; exact H|]);
    split; reflexivity.
Qed.

Lemma lowerCase_facts (m : string) :
  lowerCase (lowerCase m) = lowerCase m
  ∧ (allPrintable m = true → allPrintable (lowerCase m) = true)
  ∧ occurs ","%char (lowerCase m) = occurs ","%char m
  ∧ occurs ";"%char (lowerCase m) = occurs ";"%char m
  ∧ truthy (lowerCase m) = truthy m.
Proof.
  induction m as [|x m (I1 & I2 & I3 & I4 & _)]; [repeat split|].
  destruct (toLowerCase_facts x) as (T1 & T2 & T3 & T4).
  cbn [lowerCase allPrintable occurs truthy].
  rewrite I1, I3, I4, T1, T3, T4.
  split; [reflexivity|]. split; [|repeat split].
  intros H. apply andb_true_iff in H as [Hx Hm].
  rewrite (T2 Hx), (I2 Hm). reflexivity.
Qed.

Lemma plainMime_lowerCase m : plainMime m → plainMime (lowerCase m).
Proof.
  intros (Ht & Hp & Hc & Hs).
  destruct (lowerCase_facts m) as (_ & L2 & L3 & L4 & L5).
  unfold plainMime. rewrite L3, L4, L5. repeat split; auto.
Qed.

(** The type of a file is empty, or printable and in lower case. *)
Lemma normalizedType_cases t :
  normalizedType t = EmptyString
  ∨ (allPrintable t = true ∧ normalizedType t = lowerCase t
     ∧ allPrintable (normalizedType t) = true
     ∧ lowerCase (normalizedType t) = normalizedType t).
Proof.
  unfold normalizedType. destruct (allPrintable t) eqn:E; [right | left; reflexivity].
  destruct (lowerCase_facts t) as (L1 & L2 & _).
  repeat split; auto.
Qed.

(** X5.  Both parsers of data URLs, [dataURLtoFile] of the editor and
    [fileToPart] of the service module, recover the MIME type and the
    payload of a base-64 data URL whose MIME type is plain and whose
    payload has no comma.  The part carries them unchanged.  The file has
    the given name, the decoded payload as its bytes and the MIME type in
    lower case, as the [File] constructor stores it (or [atob] rejects
    the payload and its exception is the one thrown).  The type of the
    file is again plain, so that the data URL of the file is parsed back
    to that type. *)
Theorem data_url_round_trip (P : Platform) (mime payload filename : string)
    (Hmime : plainMime mime) (Hpayload : occurs ","%char payload = false) :
  fileToPart (base64Url mime payload)
  = Ok (mkInlineData (Some mime) (Some payload))
  ∧ dataURLtoFile P (base64Url mime payload) filename
    = match atob P payload with
      | Ok bits => Ok (mkFile bits filename (lowerCase mime))
      | Throw e => Throw e
      end
  ∧ ∀ f encoded,
      dataURLtoFile P (base64Url mime payload) filename = Ok f →
      occurs ","%char encoded = false →
      fileType f = lowerCase mime
      ∧ fileToPart (base64Url (fileType f) encoded)
        = Ok (mkInlineData (Some (fileType f)) (Some encoded)).
Proof.
  destruct (parsers_on_base64Url P mime payload filename Hmime Hpayload)
    as [Hpart Hfile].
  split; [exact Hpart|]. split; [exact Hfile|].
  intros f encoded Hf Hencoded. rewrite Hfile in Hf.
  destruct (atob P payload) as [bits|e]; [|discriminate Hf].
  injection Hf as <-. cbn [fileType]. split; [reflexivity|].
  exact (proj1 (parsers_on_base64Url P (lowerCase mime) encoded filename
                  (plainMime_lowerCase mime Hmime) Hencoded)).
Qed.

Lemma data_url_round_trip_witness :
  dataURLtoFile Sample.platform (base64Url "IMAGE/PNG" "iVBORw0KGgo=") "a.png"
  = Ok (mkFile "iVBORw0KGgo=" "a.png" "image/png").
Proof.
  refine (proj1 (proj2 (data_url_round_trip Sample.platform "IMAGE/PNG"
                          "iVBORw0KGgo=" "a.png" _ _))).
  - repeat split.
  - reflexivity.
Defined.

Lemma dataURLtoFile_cases P url filename :
  match dataURLtoFile P url filename with
  | Ok f =>
      fileName f = filename
      ∧ occurs ","%char url = true
      ∧ (∃ mime, truthy mime = true ∧ fileType f = normalizedType mime)
      ∧ ∃ payload, atob P payload = Ok (fileBits f)
  | Throw e =>
      e = ErrorObj "Invalid data URL"
      ∨ e = ErrorObj "Could not parse MIME type from data URL"
      ∨ ∃ payload, atob P payload = Throw e
  end.
Proof.
  unfold dataURLtoFile.
  destruct (Nat.ltb_spec (length (split ","%char url)) 2) as [Hlen|Hlen];
    [left; reflexivity|].
  destruct (matchMime _) as [mime|]; [|right; left; reflexivity].
  destruct (truthy mime) eqn:Hmime; cbn [negb]; [|right; left; reflexivity].
  destruct (atob P _) as [bits|e] eqn:Hatob; [|right; right; eexists; exact Hatob].
  cbn [newFile fileName fileType fileBits]. split; [reflexivity|]. split.
  - destruct (occurs ","%char url) eqn:Hoc; [reflexivity|].
    rewrite (split_without_separator _ _ Hoc) in Hlen. cbn in Hlen. lia.
  - split; [exists mime; split; [exact Hmime | reflexivity]|].
    eexists. exact Hatob.
Qed.

(** X6.  [dataURLtoFile] accepts nothing without a comma: such a string
    throws "Invalid data URL".  When it returns a file, the file bears
    the name it was given, its bytes are what [atob] made of some
    payload, and its MIME type is the one the [File] constructor makes of
    a captured type that is not empty: the empty string, or a printable
    string in lower case.  When it throws, the error is one of its own
    two or the exception of [atob]. *)
Theorem dataURLtoFile_outcomes (P : Platform) (url filename : string) :
  (occurs ","%char url = false →
   dataURLtoFile P url filename = Throw (ErrorObj "Invalid data URL"))
  ∧ (∀ f, dataURLtoFile P url filename = Ok f →
          fileName f = filename
          ∧ occurs ","%char url = true
          ∧ (∃ mime, truthy mime = true ∧ fileType f = normalizedType mime)
          ∧ (fileType f = EmptyString
             ∨ (allPrintable (fileType f) = true
                ∧ lowerCase (fileType f) = fileType f))
          ∧ ∃ payload, atob P payload = Ok (fileBits f))
  ∧ (∀ e, dataURLtoFile P url filename = Throw e →
          e = ErrorObj "Invalid data URL"
          ∨ e = ErrorObj "Could not parse MIME type from data URL"
          ∨ ∃ payload, atob P payload = Throw e).
Proof.
  pose proof (dataURLtoFile_cases P url filename) as Hcases.
  split; [|split].
  - intros Hoc. unfold dataURLtoFile.
    rewrite (split_without_separator _ _ Hoc). reflexivity.
  - intros f E. rewrite E in Hcases.
    destruct Hcases as (Hn & Hc & (mime & Hm & Ht) & Hb).
    split; [exact Hn|]. split; [exact Hc|].
    split; [exists mime; split; assumption|]. split; [|exact Hb].
    rewrite Ht.
    destruct (normalizedType_cases mime) as [E0|(_ & _ & E1 & E2)];
      [left; exact E0 | right; split; assumption].
  - intros e E. rewrite E in Hcases. exact Hcases.
Qed.

Lemma dataURLtoFile_outcomes_witness :
  dataURLtoFile Sample.platform "not a data url" "a.png"
  = Throw (ErrorObj "Invalid data URL").
Proof.
  apply (proj1 (dataURLtoFile_outcomes Sample.platform "not a data url" "a.png")).
  reflexivity.
Defined.

(** A MIME type with a character outside U+0020 .. U+007E, here a tab,
    gives a file whose type is empty. *)
Remark unprintable_type_is_dropped :
  dataURLtoFile Sample.platform
    ("data:image/" +:+ String (ascii_of_nat 9) "png;base64,AAAA") "a.png"
  = Ok (mkFile "AAAA" "a.png" "").
Proof. reflexivity. Qed.

(** ** Responses of the model *)

Lemma firstCandidate_later response rest :
  firstCandidate (withLaterCandidates response rest) = firstCandidate response.
Proof.
  unfold firstCandidate, withLaterCandidates. cbn.
  destruct (candidates response) as [[|c cs]|]; reflexivity.
Qed.

(** X7.  [handleApiResponse] checks the prompt feedback first: a block
    reason makes it throw "Request was blocked..." whatever the
    candidates hold.  It never looks past the first candidate: replacing
    the later candidates changes nothing.  And what it returns always has
    a comma, so [dataURLtoFile] never answers "Invalid data URL" to it:
    when it throws, it is for the MIME type or it is the exception of
    [atob]. *)
Theorem api_response_priorities (P : Platform)
    (response : GenerateContentResponse) (context filename : string) :
  (∀ reason,
      promptFeedback response ≫= (fun f => truthyOpt (blockReason f))
      = Some reason →
      handleApiResponse response context
      = Throw (ErrorObj
          ("Request was blocked. Reason: " +:+ reason +:+ ". " +:+
           default "" (promptFeedback response
                         ≫= (fun f => truthyOpt (blockReasonMessage f))))))
  ∧ (∀ rest,
        handleApiResponse (withLaterCandidates response rest) context
        = handleApiResponse response context)
  ∧ (∀ url,
        handleApiResponse response context = Ok url →
        occurs ","%char url = true
        ∧ (2 ≤ length (split ","%char url))%nat
        ∧ ∀ e, dataURLtoFile P url filename = Throw e →
               e = ErrorObj "Could not parse MIME type from data URL"
               ∨ ∃ payload, atob P payload = Throw e).
Proof.
  split; [|split].
  - intros reason E. unfold handleApiResponse. rewrite E. reflexivity.
  - intros rest. unfold handleApiResponse, imagePartFromResponse, noImageMessage.
    rewrite !firstCandidate_later. reflexivity.
  - intros url E. unfold handleApiResponse in E.
    destruct (promptFeedback response ≫= _); [discriminate E|].
    destruct (imagePartFromResponse response ≫= inlineData) as [img|].
    + injection E as <-.
      assert (Hoc : occurs ","%char
                ("data:" +:+ render (mimeType img) +:+ ";base64," +:+
                 render (data img)) = true).
      { rewrite !occurs_app. cbn. rewrite !orb_true_r. reflexivity. }
      pose proof (split_length_separator _ _ Hoc) as Hlen.
      split; [exact Hoc|]. split; [exact Hlen|].
      intros e. unfold dataURLtoFile.
      destruct (Nat.ltb_spec (length (split ","%char
                  ("data:" +:+ render (mimeType img) +:+ ";base64," +:+
                   render (data img)))) 2) as [Hlt|_]; [lia|].
      destruct (matchMime _); [|intros [= <-]; left; reflexivity].
      destruct (negb _); [intros [= <-]; left; reflexivity|].
      destruct (atob P _) as [bits|e'] eqn:Hatob; [discriminate|].
      intros [= <-]. right. eexists. exact Hatob.
    + destruct (firstCandidate response ≫= _); [|discriminate E].
      destruct (negb _); discriminate E.
Qed.

Lemma api_response_priorities_witness :
  handleApiResponse
    (mkResponse (Some (mkPromptFeedback (Some "SAFETY") None))
       (candidates Scenario.answer) None) "filter"
  = Throw (ErrorObj "Request was blocked. Reason: SAFETY. ").
Proof.
  apply (proj1 (api_response_priorities Sample.platform
                  (mkResponse (Some (mkPromptFeedback (Some "SAFETY") None))
                     (candidates Scenario.answer) None) "filter" "a.png")
           "SAFETY").
  reflexivity.
Defined.

Lemma api_response_image response context mime payload :
  carriesImage response mime payload →
  handleApiResponse response context = Ok (base64Url mime payload).
Proof.
  intros [Hfree Himg]. unfold handleApiResponse. rewrite Hfree, Himg.
  reflexivity.
Qed.

(** X8.  From the answer of the model to the history: when the response
    to a filter request is not blocked and carries an image of a plain
    MIME type whose payload [atob] decodes, [handleApplyFilter] commits
    exactly one file, with the decoded payload as its bytes, the MIME
    type of the response in lower case and the name
    [filtered-<time>.png], sets no error and clears the busy flag. *)
Theorem filter_commits_model_image (P : Platform) (G : Services) (now : Z)
    (filterPrompt : string) (s : AppState) (current : File)
    (response : GenerateContentResponse) (mime payload bits : string)
    (Hcurrent : currentImage s = Some current)
    (Hcall : generateFilteredImage G current filterPrompt
             = handleApiResponse response "filter")
    (Himage : carriesImage response mime payload)
    (Hmime : plainMime mime) (Hpayload : occurs ","%char payload = false)
    (Hatob : atob P payload = Ok bits) :
  handleApplyFilter P G now filterPrompt s
  = setIsLoading false
      (addImageToHistory
         (mkFile bits ("filtered-" +:+ showZ now +:+ ".png") (lowerCase mime))
         (setError None (setIsLoading true s))).
Proof.
  unfold handleApplyFilter. rewrite Hcurrent, Hcall.
  rewrite (api_response_image response "filter" mime payload Himage).
  cbn [mbind Result_bind].
  rewrite (proj2 (parsers_on_base64Url P mime payload _ Hmime Hpayload)), Hatob.
  reflexivity.
Qed.

Lemma filter_commits_model_image_witness :
  history (handleApplyFilter Sample.platform Scenario.services 7 "vintage"
             Scenario.loaded)
  = [Sample.R0; mkFile "ZmlsdA==" "filtered-7.png" "image/jpeg"].
Proof.
  rewrite (filter_commits_model_image Sample.platform Scenario.services 7
             "vintage" Scenario.loaded Sample.R0 Scenario.answer
             "image/jpeg" "ZmlsdA==" "ZmlsdA==").
  - reflexivity.
  - reflexivity.
  - reflexivity.
  - split; reflexivity.
  - repeat split.
  - reflexivity.
  - reflexivity.
Defined.

(** ** Generating the first image *)

(** X9.  [handleGenerateImage] asks the text-and-images generator when
    reference images are given and the text generator otherwise.  If the
    call or the conversion of its result fails, the history stack is
    untouched, the error message is set, the mode is [generate] and the
    busy flag is cleared; if both succeed, the session is replaced by a
    one-entry history in mode [edit] with nothing to undo or redo. *)
Theorem generate_image_outcomes (P : Platform) (G : Generators) (now : Z)
    (prompt aspectRatio : string) (images : list File) (s : AppState) :
  let call :=
    match images with
    | [] => generateImageFromText G prompt aspectRatio
    | _ :: _ => generateImageFromTextAndImages G prompt aspectRatio images
    end in
  let s' := handleGenerateImage P G now prompt aspectRatio images s in
  match call ≫= (fun url =>
          dataURLtoFile P url ("generated-" +:+ showZ now +:+ ".jpeg")) with
  | Ok file =>
      history s' = [file] ∧ historyIndex s' = 0 ∧ currentImage s' = Some file
      ∧ mode s' = ModeEdit ∧ error s' = None ∧ isLoading s' = false
      ∧ canUndo s' = false ∧ canRedo s' = false
      ∧ layers s' = [] ∧ hotspotCleared s'
  | Throw err =>
      historyUntouched s s'
      ∧ error s' = Some ("Failed to generate the image. " +:+ errorMessage err)
      ∧ mode s' = ModeGenerate ∧ isLoading s' = false
  end.
Proof.
  cbn zeta. unfold handleGenerateImage.
  destruct images as [|image images]; cbn [length Nat.ltb Nat.leb].
  - destruct (generateImageFromText G prompt aspectRatio) as [url|err];
      cbn [mbind Result_bind]; [|repeat split].
    destruct (dataURLtoFile P url _) as [file|err]; repeat split.
  - destruct (generateImageFromTextAndImages G prompt aspectRatio _)
      as [url|err]; cbn [mbind Result_bind]; [|repeat split].
    destruct (dataURLtoFile P url _) as [file|err]; repeat split.
Qed.

(** X10.  What the image model returns becomes a JPEG: when its first
    generated image has bytes that are not empty and hold no comma, and
    [atob] decodes them, generating from text alone starts a session
    whose only raster has type [image/jpeg] and the decoded bytes; when
    it has none, the error message names the missing image and the
    history is untouched. *)
Theorem generate_from_text_result (P : Platform) (G : Generators) (now : Z)
    (prompt aspectRatio : string) (s : AppState)
    (response : GenerateImagesResponse)
    (Hcall : generateImageFromText G prompt aspectRatio
             = imageFromTextResult response) :
  let s' := handleGenerateImage P G now prompt aspectRatio [] s in
  match firstImageBytes response with
  | Some bytes =>
      occurs ","%char bytes = false →
      ∀ bits, atob P bytes = Ok bits →
        history s'
        = [mkFile bits ("generated-" +:+ showZ now +:+ ".jpeg") "image/jpeg"]
        ∧ mode s' = ModeEdit
  | None =>
      historyUntouched s s'
      ∧ error s'
        = Some "Failed to generate the image. The AI model did not return an image. This could be due to safety filters or a complex prompt. Please try again."
      ∧ mode s' = ModeGenerate
  end.
Proof.
  cbn zeta. unfold handleGenerateImage. cbn [length Nat.ltb Nat.leb].
  rewrite Hcall. unfold imageFromTextResult.
  destruct (firstImageBytes response) as [bytes|]; [|repeat split].
  intros Hbytes bits Hbits. cbn [mbind Result_bind].
  change ("data:image/jpeg;base64," +:+ bytes)
    with (base64Url "image/jpeg" bytes).
  rewrite (proj2 (parsers_on_base64Url P "image/jpeg" bytes _
                    ltac:(repeat split) Hbytes)), Hbits.
  split; reflexivity.
Qed.

Lemma generate_from_text_result_witness :
  history (handleGenerateImage Sample.platform Scenario.generators 3
             "a raccoon in a library" "1:1" [] initialState)
  = [mkFile "/9j/4AAQ" "generated-3.jpeg" "image/jpeg"].
Proof.
  refine (proj1 (generate_from_text_result Sample.platform Scenario.generators
                   3 "a raccoon in a library" "1:1" initialState
                   Scenario.picture eq_refl eq_refl "/9j/4AAQ" eq_refl)).
Defined.

(** ** The hotspot *)




Section hotspot.
Local Open Scope Q_scope.



End hotspot.



(** The product is rounded before [Math.round] sees it: on a raster 313
    wide laid out 300 wide, a click 150 from the left edge gives the
    binary64 product 156.49999999999997 and the hotspot 156, where the
    exact product 156.5 would give 157. *)
Remark hotspot_rounds_the_binary64_product :
  (s ← handleImageClick
         (Some (mkImageLayout 313 200 300 200 (mkDOMRect 0 0 300 200)))
         (mkMouseEvent 150 100) Scenario.loaded;
   editHotspot s) = Some (mkPoint 156 100)
  ∧ mathRound (150 * (313 / 300)) = 157.
Proof. split; vm_compute; reflexivity. Qed.

(** ** Dragging a layer and the magnifier *)

Lemma dragging_after_mouse_down elRect e id so :
  truthy id = true → dragging (handleLayerMouseDown elRect e id so).2 = Some id.
Proof.
  destruct so as [s o]. intros Hid. unfold dragging. cbn. rewrite Hid.
  reflexivity.
Qed.







(** ** A commit and its undo *)

(** X14.  On a well-formed history that is not empty, a commit makes the
    new raster current, the history then holds the entries up to the old
    cursor and the new one, an undo brings back the raster that was
    current before the commit, and a redo the committed one. *)
Theorem undo_reverts_commit (s : AppState) (f : File)
    (Hinv : sessionInvariant s) (Hne : history s ≠ []) :
  let c := addImageToHistory f s in
  currentImage c = Some f
  ∧ Z.of_nat (length (history c)) = historyIndex s + 2
  ∧ currentImage (handleUndo c) = currentImage s
  ∧ currentImage (handleRedo (handleUndo c)) = Some f.
Proof.
  cbn zeta. destruct Hinv as (Hi & Hn & _). specialize (Hn Hne).
  assert (Hv : cursorValid s) by exact Hi.
  pose proof (history_commit s f Hv) as Hh.
  pose proof (cursor_commit s f Hv) as Hk.
  assert (Hlen : length (take (Z.to_nat (historyIndex s + 1)) (history s))
                 = Z.to_nat (historyIndex s + 1)).
  { apply length_take_le. lia. }
  assert (Hcur : currentImage (addImageToHistory f s) = Some f).
  { unfold currentImage. rewrite Hh, Hk, index_lookup by lia.
    rewrite lookup_app_r by lia. rewrite Hlen, Nat.sub_diag. reflexivity. }
  assert (Hu : historyIndex (handleUndo (addImageToHistory f s))
               = historyIndex s).
  { rewrite cursor_undo. unfold canUndo. rewrite Hk.
    destruct (Z.ltb_spec 0 (historyIndex s + 1)); lia. }
  split; [exact Hcur|]. split.
  { rewrite Hh, length_app, Hlen. cbn [length]. lia. }
  split.
  - unfold currentImage. rewrite Hu, history_undo, Hh, !index_lookup by lia.
    rewrite lookup_app_l by lia. apply lookup_take_lt. lia.
  - rewrite <- Hcur. apply current_depends_on_stack.
    + rewrite history_redo, history_undo. reflexivity.
    + rewrite cursor_redo. unfold canRedo. rewrite Hu, history_undo, Hh.
      rewrite length_app, Hlen, Hk. cbn [length].
      destruct (Z.ltb_spec (historyIndex s)
                  (Z.of_nat (Z.to_nat (historyIndex s + 1) + 1) - 1)); lia.
Qed.

Lemma undo_reverts_commit_witness :
  currentImage (handleUndo (addImageToHistory Sample.R3 Sample.three))
  = currentImage Sample.three.
Proof.
  refine (proj1 (proj2 (proj2
            (undo_reverts_commit Sample.three Sample.R3 _ _)))).
  - closed_invariant.
  - discriminate.
Defined.

(** ** Editing the layer list *)

Lemma layer_map_absent id (g : TextLayer.t → TextLayer.t)
    (ls : list TextLayer.t) :
  id ∉ TextLayer.id <$> ls →
  (fun l => if String.eqb (TextLayer.id l) id then g l else l) <$> ls = ls.
Proof.
  induction ls as [|l ls IH]; [reflexivity|].
  rewrite fmap_cons, not_elem_of_cons. intros [Hl Hls]. cbn [fmap list_fmap].
  destruct (String.eqb_spec (TextLayer.id l) id) as [E|_]; [congruence|].
  f_equal. apply IH, Hls.
Qed.

Lemma setLayers_same s : setLayers (layers s) s = s.
Proof. destruct s. reflexivity. Qed.

Lemma setLayers_twice a b s : setLayers a (setLayers b s) = setLayers a s.
Proof. reflexivity. Qed.

Lemma spread_id_kept l updates :
  newId updates = None → TextLayer.id (spread l updates) = TextLayer.id l.
Proof. intros E. unfold spread. cbn. rewrite E. reflexivity. Qed.

Lemma spread_twice l updates :
  spread (spread l updates) updates = spread l updates.
Proof.
  destruct updates as [a b c d e f g h]. unfold spread. cbn.
  destruct a, b, c, d, e, f, g, h; reflexivity.
Qed.

(** X15.  [handleUpdateLayer] touches only the layers: it changes
    nothing at all when no layer has the given id; it keeps the number
    and the order of the layers; and for an update that does not rename
    the layer it keeps every id and is idempotent. *)
Theorem update_layer_frame (id : string) (updates : PartialTextLayer)
    (s : AppState) :
  (id ∉ TextLayer.id <$> layers s → handleUpdateLayer id updates s = s)
  ∧ length (layers (handleUpdateLayer id updates s)) = length (layers s)
  ∧ sameStack s (handleUpdateLayer id updates s)
  ∧ selectedLayerId (handleUpdateLayer id updates s) = selectedLayerId s
  ∧ (newId updates = None →
     TextLayer.id <$> layers (handleUpdateLayer id updates s)
     = TextLayer.id <$> layers s
     ∧ handleUpdateLayer id updates (handleUpdateLayer id updates s)
       = handleUpdateLayer id updates s).
Proof.
  split; [|split; [|split; [|split]]].
  - intros Habsent. unfold handleUpdateLayer.
    rewrite (layer_map_absent id _ _ Habsent). apply setLayers_same.
  - unfold handleUpdateLayer. cbn. apply length_fmap.
  - repeat split.
  - reflexivity.
  - intros Hkeep. unfold handleUpdateLayer. cbn [layers setLayers]. split.
    + rewrite <- list_fmap_compose. apply list_fmap_ext. intros i l _. cbn.
      destruct (String.eqb (TextLayer.id l) id); [|reflexivity].
      apply spread_id_kept, Hkeep.
    + rewrite setLayers_twice. f_equal.
      rewrite <- list_fmap_compose. apply list_fmap_ext.
      intros i l _. cbn.
      destruct (String.eqb_spec (TextLayer.id l) id) as [E|E].
      * rewrite (spread_id_kept l updates Hkeep).
        destruct (String.eqb_spec (TextLayer.id l) id); [|contradiction].
        apply spread_twice.
      * destruct (String.eqb_spec (TextLayer.id l) id); [contradiction|].
        reflexivity.
Qed.

Lemma update_layer_frame_witness :
  handleUpdateLayer "layer_7" noUpdates Sample.twoLayers = Sample.twoLayers.
Proof.
  apply (proj1 (update_layer_frame "layer_7" noUpdates Sample.twoLayers)).
  vm_compute. intros H.
  repeat (apply elem_of_cons in H as [H|H]; [discriminate H|]).
  apply elem_of_nil in H. exact H.
Defined.

Lemma filter_absent id (ls : list TextLayer.t) :
  id ∉ TextLayer.id <$> ls →
  filter (fun l => TextLayer.id l ≠ id) ls = ls.
Proof.
  induction ls as [|l ls IH]; [reflexivity|].
  rewrite fmap_cons, not_elem_of_cons. intros [Hl Hls].
  rewrite filter_cons_True by congruence. f_equal. apply IH, Hls.
Qed.

(** X16.  [handleRemoveLayer] leaves no layer with the given id and
    keeps all the others in their order; it changes nothing at all when
    no layer has that id and it is not the selected one; the selection
    is kept unless it was the removed id; the history stack is not
    involved. *)
Theorem remove_layer_frame (id : string) (s : AppState) :
  let s' := handleRemoveLayer id s in
  (id ∉ TextLayer.id <$> layers s')
  ∧ layers s' = filter (fun l => TextLayer.id l ≠ id) (layers s)
  ∧ (layers s') `sublist_of` (layers s)
  ∧ (∀ l, l ∈ layers s → TextLayer.id l ≠ id → l ∈ layers s')
  ∧ (selectedLayerId s ≠ Some id → selectedLayerId s' = selectedLayerId s)
  ∧ selectedLayerId s' ≠ Some id
  ∧ sameStack s s'
  ∧ (id ∉ TextLayer.id <$> layers s → selectedLayerId s ≠ Some id → s' = s).
Proof.
  cbn zeta.
  assert (Hl : layers (handleRemoveLayer id s)
               = filter (fun l => TextLayer.id l ≠ id) (layers s)).
  { unfold handleRemoveLayer. destruct (decide _); reflexivity. }
  split.
  { rewrite Hl. intros H. apply list_elem_of_fmap in H as (l & E & Hin).
    apply list_elem_of_filter in Hin as [Hne _]. congruence. }
  split; [exact Hl|]. split; [rewrite Hl; apply sublist_filter|].
  split.
  { intros l Hin Hne. rewrite Hl. apply list_elem_of_filter. split; assumption. }
  split.
  { intros Hsel. unfold handleRemoveLayer.
    destruct (decide _); [contradiction | reflexivity]. }
  split.
  { unfold handleRemoveLayer.
    destruct (decide (selectedLayerId s = Some id)) as [E|E];
      [discriminate | exact E]. }
  split.
  { unfold handleRemoveLayer. destruct (decide _); repeat split. }
  intros Habsent Hsel. unfold handleRemoveLayer.
  destruct (decide _); [contradiction|].
  rewrite (filter_absent id (layers s) Habsent). apply setLayers_same.
Qed.

Lemma selectedLayer_last id (ls : list TextLayer.t) (l : TextLayer.t)
    (s : AppState) :
  id ∉ TextLayer.id <$> ls → TextLayer.id l = id →
  selectedLayer (setSelectedLayerId (Some id) (setLayers (ls ++ [l]) s))
  = Some l.
Proof.
  intros Hfresh Hid. unfold selectedLayer. cbn [selectedLayerId layers
    setSelectedLayerId setLayers].
  rewrite list_find_app_r.
  - cbn. destruct (decide (TextLayer.id l = id)); [reflexivity | contradiction].
  - apply list_find_None, Forall_forall. intros x Hx E. apply Hfresh.
    rewrite <- E. apply list_elem_of_fmap. exists x.
    split; [reflexivity | exact Hx].
Qed.

(** X17.  When no layer bears the id made from the clock yet, the layer
    that [handleAddTextLayer] adds is the one the text panel edits:
    [selectedLayer] is the new layer, and an update sent to the selected
    id changes the new layer alone and stays on it. *)
Theorem new_layer_is_edited (now : Z) (updates : PartialTextLayer)
    (s : AppState)
    (Hfresh : TextLayer.id (newTextLayer now) ∉ TextLayer.id <$> layers s)
    (Hkeep : newId updates = None) :
  let added := handleAddTextLayer now s in
  let edited := handleUpdateLayer (TextLayer.id (newTextLayer now)) updates added in
  selectedLayer added = Some (newTextLayer now)
  ∧ layers edited = (layers s ++ [spread (newTextLayer now) updates])%list
  ∧ selectedLayer edited = Some (spread (newTextLayer now) updates).
Proof.
  cbn zeta.
  assert (Hl : layers (handleUpdateLayer (TextLayer.id (newTextLayer now))
                         updates (handleAddTextLayer now s))
               = (layers s ++ [spread (newTextLayer now) updates])%list).
  { unfold handleUpdateLayer, handleAddTextLayer.
    cbn [layers setLayers setSelectedLayerId setActiveTab].
    rewrite fmap_app, (layer_map_absent _ _ _ Hfresh).
    cbn [fmap list_fmap]. rewrite String.eqb_refl. reflexivity. }
  split; [|split; [exact Hl|]].
  - exact (selectedLayer_last _ (layers s) (newTextLayer now)
             (setActiveTab TabText s) Hfresh eq_refl).
  - assert (E : handleUpdateLayer (TextLayer.id (newTextLayer now)) updates
                  (handleAddTextLayer now s)
                = setSelectedLayerId (Some (TextLayer.id (newTextLayer now)))
                    (setLayers
                       (layers s ++ [spread (newTextLayer now) updates])
                       (setActiveTab TabText s))).
    { unfold handleUpdateLayer in *. cbn [layers setLayers] in Hl.
      rewrite Hl. reflexivity. }
    rewrite E. apply selectedLayer_last; [exact Hfresh|].
    apply spread_id_kept, Hkeep.
Qed.

Lemma new_layer_is_edited_witness :
  selectedLayer (handleAddTextLayer 3 Sample.twoLayers)
  = Some (newTextLayer 3).
Proof.
  refine (proj1 (new_layer_is_edited 3 noUpdates Sample.twoLayers _ eq_refl)).
  vm_compute. intros H.
  repeat (apply elem_of_cons in H as [H|H]; [discriminate H|]).
  apply elem_of_nil in H. exact H.
Defined.

(** ** Reordering the layers *)

Section reorder.
Context {A : Type}.
Implicit Types (l m : list A) (k d : nat).
Local Open Scope list_scope.

Lemma relativeIndex_inside (len i : Z) :
  0 ≤ i ≤ len → relativeIndex len i = i.
Proof.
  intros Hi. unfold relativeIndex.
  destruct (Z.ltb_spec i 0); [lia|]. lia.
Qed.

Lemma splice_remove l k x :
  l !! k = Some x →
  splice l (Z.of_nat k) 1 [] = ([x], take k l ++ drop (S k) l).
Proof.
  intros Hx. pose proof (lookup_lt_Some _ _ _ Hx) as Hk.
  unfold splice. rewrite relativeIndex_inside by lia.
  replace (Z.min (Z.max 1 0) (Z.of_nat (length l) - Z.of_nat k)) with 1 by lia.
  rewrite Nat2Z.id.
  replace (Z.to_nat (Z.of_nat k + 1)) with (S k) by lia.
  rewrite (drop_S l x k Hx). reflexivity.
Qed.

Lemma splice_insert m d y :
  (d ≤ length m)%nat →
  splice m (Z.of_nat d) 0 [y] = ([], take d m ++ y :: drop d m).
Proof.
  intros Hd. unfold splice. rewrite relativeIndex_inside by lia.
  replace (Z.min (Z.max 0 0) (Z.of_nat (length m) - Z.of_nat d)) with 0 by lia.
  rewrite Z.add_0_r, Nat2Z.id. reflexivity.
Qed.

End reorder.

Section moving.
Context {A : Type}.
Implicit Types (l m : list A) (k d : nat).
Local Open Scope list_scope.

(** The list with the element at [k] taken out and put back at [d]. *)
Lemma reorderItems_inside l k d x :
  l !! k = Some x → (d < length l)%nat →
  reorderItems l (Z.of_nat k) (Z.of_nat d)
  = Some <$> (take d (delete k l) ++ x :: drop d (delete k l)).
Proof.
  intros Hx Hd. pose proof (lookup_lt_Some _ _ _ Hx) as Hk.
  unfold reorderItems.
  rewrite (splice_remove (Some <$> l) k (Some x))
    by (rewrite list_lookup_fmap, Hx; reflexivity).
  cbn [head mjoin option_join snd].
  rewrite splice_insert.
  - cbn [snd]. rewrite delete_take_drop.
    repeat first [rewrite fmap_app | rewrite fmap_cons
                 | rewrite fmap_take | rewrite fmap_drop].
    reflexivity.
  - rewrite length_app, length_take, length_drop, length_fmap. lia.
Qed.

Lemma moved_properties l k d x :
  l !! k = Some x → (d < length l)%nat →
  let l' := take d (delete k l) ++ x :: drop d (delete k l) in
  l' ≡ₚ l ∧ l' !! d = Some x ∧ length l' = length l
  ∧ delete d l' = delete k l
  ∧ take k (delete d l') ++ x :: drop k (delete d l') = l.
Proof.
  intros Hx Hd. pose proof (lookup_lt_Some _ _ _ Hx) as Hk. cbn zeta.
  assert (Hlen : length (delete k l) = (length l - 1)%nat).
  { rewrite length_delete by eauto. lia. }
  assert (Htake : length (take d (delete k l)) = d).
  { rewrite length_take. lia. }
  assert (Hdel : delete d (take d (delete k l) ++ x :: drop d (delete k l))
                 = delete k l).
  { rewrite <- Htake at 1. rewrite delete_middle. apply take_drop. }
  split; [|split; [|split; [|split]]].
  - rewrite <- Permutation_middle, take_drop.
    rewrite delete_take_drop.
    rewrite <- (take_drop_middle l k x Hx) at 3.
    apply Permutation_middle.
  - apply list_lookup_middle. symmetry. exact Htake.
  - rewrite length_app. cbn [length]. rewrite Htake, length_drop. lia.
  - exact Hdel.
  - rewrite Hdel, delete_take_drop.
    rewrite take_app_length' by (rewrite length_take; lia).
    rewrite drop_app_length' by (rewrite length_take; lia).
    apply take_drop_middle, Hx.
Qed.
End moving.

Lemma mapM_present {A : Type} (l : list A) :
  mapM (fun x : option A => x) (Some <$> l) = Some l.
Proof. apply mapM_fmap_Some. reflexivity. Qed.

(** X18.  [handleReorderLayers] with a source index and a destination
    index within the list moves one layer: the result holds the same
    layers, the moved layer sits at the destination index, the other
    layers keep their relative order, and moving it back from the
    destination to the source restores the list. *)
Theorem reorder_moves_one_layer (sourceIndex destIndex : Z) (s : AppState)
    (x : TextLayer.t)
    (Hsrc : 0 ≤ sourceIndex)
    (Hx : layers s !! Z.to_nat sourceIndex = Some x)
    (Hdst : 0 ≤ destIndex < Z.of_nat (length (layers s))) :
  ∃ ls',
    handleReorderLayers sourceIndex destIndex s = Some (setLayers ls' s)
    ∧ ls' ≡ₚ layers s
    ∧ ls' !! Z.to_nat destIndex = Some x
    ∧ delete (Z.to_nat destIndex) ls' = delete (Z.to_nat sourceIndex) (layers s)
    ∧ handleReorderLayers destIndex sourceIndex (setLayers ls' s)
      = Some (setLayers (layers s) s).
Proof.
  set (k := Z.to_nat sourceIndex). set (d := Z.to_nat destIndex).
  assert (Hk : sourceIndex = Z.of_nat k) by lia.
  assert (Hd : destIndex = Z.of_nat d) by lia.
  assert (Hd' : (d < length (layers s))%nat) by lia.
  pose proof (lookup_lt_Some _ _ _ Hx) as Hk'.
  destruct (moved_properties (layers s) k d x Hx Hd')
    as (Hperm & Hat & Hlen & Hdel & Hback).
  exists (take d (delete k (layers s)) ++ x :: drop d (delete k (layers s)))%list.
  split; [|split; [exact Hperm|split; [exact Hat|split; [exact Hdel|]]]].
  - unfold handleReorderLayers. rewrite Hk, Hd.
    rewrite (reorderItems_inside (layers s) k d x Hx Hd'), mapM_present.
    reflexivity.
  - unfold handleReorderLayers. cbn [layers setLayers]. rewrite Hk, Hd.
    rewrite (reorderItems_inside _ d k x Hat) by (rewrite Hlen; exact Hk').
    rewrite Hback, mapM_present. reflexivity.
Qed.

Lemma reorder_moves_one_layer_witness :
  ∃ ls', handleReorderLayers 0 1 Sample.twoLayers
         = Some (setLayers ls' Sample.twoLayers)
         ∧ ls' ≡ₚ layers Sample.twoLayers.
Proof.
  destruct (reorder_moves_one_layer 0 1 Sample.twoLayers (newTextLayer 1))
    as (ls' & H1 & H2 & _).
  - lia.
  - reflexivity.
  - vm_compute. split; [discriminate | reflexivity].
  - exists ls'. split; assumption.
Defined.

(** ** The reference images of the generate screen *)

Lemma slice_take {A : Type} (l : list A) (n : Z) :
  0 ≤ n → slice l 0 n = take (Z.to_nat n) l.
Proof.
  intros Hn. unfold slice, relativeIndex.
  replace (0 <? 0) with false by reflexivity.
  destruct (Z.ltb_spec n 0) as [?|_]; [lia|].
  replace (Z.min 0 (Z.of_nat (length l))) with 0 by lia.
  rewrite Z.sub_0_r. change (Z.to_nat 0) with 0%nat. rewrite drop_0.
  destruct (Z.le_gt_cases n (Z.of_nat (length l))).
  - rewrite Z.min_l by lia. reflexivity.
  - rewrite Z.min_r, Nat2Z.id by lia. rewrite !take_ge by lia. reflexivity.
Qed.

Lemma removeIndex_shift {A : Type} (i : Z) (l : list A) : ∀ k : nat,
  imap (fun j x => if Z.of_nat (k + j) =? i then [] else [x]) l ≫= id
  = if bool_decide (Z.of_nat k ≤ i < Z.of_nat (k + length l))
    then delete (Z.to_nat i - k)%nat l else l.
Proof.
  induction l as [|x l IH]; intros k.
  - destruct (bool_decide _); reflexivity.
  - rewrite imap_cons, bind_cons.
    rewrite (imap_ext _ (fun j x => if Z.of_nat (S k + j) =? i then [] else [x]))
      by (intros j y _; cbn; replace (k + S j)%nat with (S (k + j)) by lia;
          reflexivity).
    rewrite (IH (S k)). cbn [length].
    replace (k + 0)%nat with k by lia.
    destruct (Z.eqb_spec (Z.of_nat k) i) as [E|E].
    + rewrite bool_decide_eq_false_2 by lia.
      rewrite bool_decide_eq_true_2 by lia.
      replace (Z.to_nat i - k)%nat with 0%nat by lia. reflexivity.
    + destruct (decide (Z.of_nat (S k) ≤ i < Z.of_nat (S k + length l))).
      * rewrite !bool_decide_eq_true_2 by lia.
        replace (Z.to_nat i - k)%nat with (S (Z.to_nat i - S k)) by lia.
        reflexivity.
      * rewrite !bool_decide_eq_false_2 by lia. reflexivity.
Qed.

Lemma removeIndex_delete {A : Type} (i : Z) (l : list A) :
  removeIndex i l
  = if bool_decide (0 ≤ i < Z.of_nat (length l))
    then delete (Z.to_nat i) l else l.
Proof.
  unfold removeIndex. pose proof (removeIndex_shift i l 0) as H.
  cbn [Nat.add Z.of_nat] in H. rewrite Nat.sub_0_r in H. exact H.
Qed.

(** X19.  The reference images of the generate screen: starting from at
    most [MAX_IMAGES] images with their previews in step, a selection of
    files adds as many of them, in order, as still fit and never goes
    beyond [MAX_IMAGES] (a null file list adds nothing); removing an
    index within the list deletes that image and its preview, any other
    index removes nothing; the previews stay in step throughout. *)
Theorem reference_images_capped (files : option (list File))
    (indexToRemove : Z) (g : GenerateScreenState)
    (Hcap : Z.of_nat (length (images g)) ≤ MAX_IMAGES)
    (Hstep : imagePreviews g = images g) :
  (let g' := handleFileSelect files g in
   Z.of_nat (length (images g')) ≤ MAX_IMAGES
   ∧ imagePreviews g' = images g'
   ∧ images g'
     = (images g
        ++ take (Z.to_nat (MAX_IMAGES - Z.of_nat (length (images g))))
             (default [] files))%list)
  ∧ (let g' := handleRemoveImage indexToRemove g in
     imagePreviews g' = images g'
     ∧ images g'
       = if bool_decide (0 ≤ indexToRemove < Z.of_nat (length (images g)))
         then delete (Z.to_nat indexToRemove) (images g) else images g).
Proof.
  unfold handleFileSelect, MAX_IMAGES in *. split; cbn zeta.
  - destruct files as [files|]; cbn [default from_option id].
    + rewrite slice_take by lia.
      set (room := Z.to_nat (3 - Z.of_nat (length (images g)))).
      destruct (Nat.ltb_spec 0 (length (take room files))) as [Hsome|Hnone].
      * cbn [images imagePreviews]. rewrite Hstep.
        split; [|split; reflexivity].
        rewrite length_app, length_take. lia.
      * assert (E : take room files = []).
        { destruct (take room files); [reflexivity | cbn in Hnone; lia]. }
        rewrite E, app_nil_r. split; [exact Hcap|]. split; [exact Hstep | reflexivity].
    + rewrite take_nil, app_nil_r.
      split; [exact Hcap|]. split; [exact Hstep | reflexivity].
  - unfold handleRemoveImage. cbn [images imagePreviews]. rewrite Hstep.
    split; [reflexivity | apply removeIndex_delete].
Qed.

Lemma reference_images_capped_witness :
  images (handleFileSelect
            (Some [Sample.R0; Sample.R1; Sample.R2; Sample.R3])
            initialGenerateScreen)
  = [Sample.R0; Sample.R1; Sample.R2].
Proof.
  refine (proj2 (proj2 (proj1
            (reference_images_capped
               (Some [Sample.R0; Sample.R1; Sample.R2; Sample.R3]) 0
               initialGenerateScreen _ _)))).
  - vm_compute. discriminate.
  - reflexivity.
Defined.

(** ** What the flattened image shows *)

Lemma paintedTexts_paint P canvas layer :
  canvasWidth (paintLayer P canvas layer) = canvasWidth canvas
  ∧ canvasHeight (paintLayer P canvas layer) = canvasHeight canvas
  ∧ paintedTexts (paintLayer P canvas layer)
    = (paintedTexts canvas
       ++ (if TextLayer.visible layer then [TextLayer.content layer] else []))%list.
Proof.
  unfold paintLayer, TextLayer.isText.
  destruct (TextLayer.visible layer), (TextLayer.type layer); cbn [andb].
  - split; [reflexivity|]. split; [reflexivity|].
    unfold paintedTexts. cbn [drawn fillText draw]. rewrite omap_app.
    reflexivity.
  - rewrite app_nil_r. repeat split.
Qed.

Lemma paintedTexts_fold P (ls : list TextLayer.t) : ∀ canvas,
  canvasWidth (foldl (paintLayer P) canvas ls) = canvasWidth canvas
  ∧ canvasHeight (foldl (paintLayer P) canvas ls) = canvasHeight canvas
  ∧ paintedTexts (foldl (paintLayer P) canvas ls)
    = (paintedTexts canvas
       ++ (TextLayer.content
             <$> filter (fun l => TextLayer.visible l = true) ls))%list.
Proof.
  induction ls as [|l ls IH]; intros canvas; cbn [foldl].
  - rewrite app_nil_r. repeat split.
  - destruct (IH (paintLayer P canvas l)) as (Hw & Hh & Ht).
    destruct (paintedTexts_paint P canvas l) as (Hw' & Hh' & Ht').
    rewrite Hw, Hh, Ht, Hw', Hh', Ht'.
    split; [reflexivity|]. split; [reflexivity|].
    rewrite <- app_assoc. f_equal.
    destruct (TextLayer.visible l) eqn:E.
    + rewrite filter_cons_True by exact E. reflexivity.
    + rewrite filter_cons_False by (rewrite E; discriminate). reflexivity.
Qed.

Lemma toCanvasSize_integer dflt (n : Z) :
  0 ≤ n < 2147483648 → toCanvasSize dflt (inject_Z n) = n.
Proof.
  intros Hn. rewrite toCanvasSize_floor.
  - apply Qfloor_Z.
  - change 0%Q with (inject_Z 0). rewrite <- Zle_Qle. lia.
  - rewrite <- Zlt_Qlt. lia.
Qed.

(** X20.  The flattened image has the natural size of the raster (for
    sizes a canvas can have), and over the raster it paints the text of
    every visible layer and of no other, the last layer of the sequence
    first and the first layer last, so that the first layer ends up on
    top. *)
Theorem flatten_paints_visible_in_reverse (P : Platform)
    (image : LoadedImage) (ls : list TextLayer.t)
    (Hw : 0 ≤ loadedNaturalWidth image < 2147483648)
    (Hh : 0 ≤ loadedNaturalHeight image < 2147483648) :
  canvasWidth (mergeCanvas P image ls) = loadedNaturalWidth image
  ∧ canvasHeight (mergeCanvas P image ls) = loadedNaturalHeight image
  ∧ head (drawn (mergeCanvas P image ls))
    = Some (DrawImageAt (FromLoaded image) 0 0 defaultCtx)
  ∧ paintedTexts (mergeCanvas P image ls)
    = TextLayer.content
        <$> reverse (filter (fun l => TextLayer.visible l = true) ls).
Proof.
  unfold mergeCanvas. fold (rasterCanvas image).
  destruct (paintedTexts_fold P (reverse ls) (rasterCanvas image))
    as (Ew & Eh & Et).
  rewrite Ew, Eh, Et.
  split; [apply toCanvasSize_integer, Hw|].
  split; [apply toCanvasSize_integer, Hh|].
  split.
  - clear. generalize (reverse ls). intros l.
    assert (Hhead : ∀ c x, head (drawn c) = Some x →
                      head (drawn (foldl (paintLayer P) c l)) = Some x).
    { induction l as [|y l IH]; intros c x Hc; [exact Hc|].
      cbn [foldl]. apply IH. unfold paintLayer.
      destruct (_ && _); [|exact Hc].
      cbn [drawn fillText draw setTextBaseline setFillStyle setFont
           setGlobalAlpha withCtx].
      destruct (drawn c); [discriminate Hc | exact Hc]. }
    apply Hhead. reflexivity.
  - rewrite filter_reverse. reflexivity.
Qed.

Lemma flatten_paints_visible_in_reverse_witness :
  paintedTexts (mergeCanvas Sample.platform Sample.bitmap
                  (Sample.hiddenLayer :: layers Sample.twoLayers))
  = TextLayer.content
      <$> reverse (filter (fun l => TextLayer.visible l = true)
                     (Sample.hiddenLayer :: layers Sample.twoLayers)).
Proof.
  refine (proj2 (proj2 (proj2
            (flatten_paints_visible_in_reverse Sample.platform Sample.bitmap
               (Sample.hiddenLayer :: layers Sample.twoLayers) _ _)))).
  - vm_compute. split; [discriminate | reflexivity].
  - vm_compute. split; [discriminate | reflexivity].
Defined.

(** ** Commits made on the canvas *)









(** ** Leaving the error screen *)


